(** * The StorageCluster reconciliation engine of ocs-operator

    A shallow embedding of the reconcile pass ([Reconcile]), its per-kind
    ensurers ([ensureCephCluster], [ensureCephObjectStores], the StorageClass
    manager) and the external-secret synthesizer, over an explicit model of
    the Kubernetes client the Go code talks to.

    The client is a store of typed objects together with the chronological
    trace of the calls issued against it; every Go function that receives the
    reconciler [r] is a computation in the state-and-error monad [M]. *)

From stdpp Require Import gmap strings list fin_maps.
From Stdlib Require Import ZArith Lia.

Open Scope Z_scope.
Open Scope string_scope.
Open Scope list_scope.

(** ** Errors and results *)

(** The classes of [error] the code distinguishes with [errors.IsNotFound]
    and [errors.IsAlreadyExists]; every other error is [Generic]. *)
Inductive ErrorKind := NotFound | AlreadyExists | Generic.

(** A Go [error]: its class and the text of [err.Error()]. *)
Record error := mkError { err_kind : ErrorKind; err_text : string }.

Definition IsNotFound (e : error) : bool :=
  match err_kind e with NotFound => true | _ => false end.

Definition IsAlreadyExists (e : error) : bool :=
  match err_kind e with AlreadyExists => true | _ => false end.

(** [fmt.Errorf] with the format already expanded. *)
Definition Errorf (msg : string) : error := mkError Generic msg.

(** What a call produces: a value, a returned [error], or a runtime panic
    (nil dereference, index out of range). *)
Inductive Res (A : Type) :=
| Ok (a : A)
| Err (e : error)
| Panic (msg : string).
Arguments Ok {A} a.
Arguments Err {A} e.
Arguments Panic {A} msg.

#[global] Instance ErrorKind_eq_dec : EqDecision ErrorKind.
Proof. solve_decision. Defined.
#[global] Instance error_eq_dec : EqDecision error.
Proof. solve_decision. Defined.

(** ** Object metadata *)

(** [types.NamespacedName]: namespace first, then name. *)
Abbreviation Key := (string * string)%type.

Record OwnerReference := mkOwnerReference {
  or_APIVersion : string;
  or_Kind : string;
  or_Name : string;
  or_UID : string;
  or_Controller : bool
}.

Record ObjectMeta := mkObjectMeta {
  om_Name : string;
  om_Namespace : string;
  om_UID : string;
  om_Labels : gmap string string;
  om_Annotations : gmap string string;
  om_OwnerReferences : list OwnerReference;
  (* nil when the object is not marked for deletion *)
  om_DeletionTimestamp : option Z
}.

Definition emptyMeta : ObjectMeta := mkObjectMeta "" "" "" ∅ ∅ [] None.

Definition keyOf (m : ObjectMeta) : Key := (om_Namespace m, om_Name m).

Definition withName (m : ObjectMeta) (n : string) : ObjectMeta :=
  mkObjectMeta n (om_Namespace m) (om_UID m) (om_Labels m) (om_Annotations m)
    (om_OwnerReferences m) (om_DeletionTimestamp m).

Definition withOwnerReferences (m : ObjectMeta) (refs : list OwnerReference) : ObjectMeta :=
  mkObjectMeta (om_Name m) (om_Namespace m) (om_UID m) (om_Labels m) (om_Annotations m)
    refs (om_DeletionTimestamp m).

#[global] Instance OwnerReference_eq_dec : EqDecision OwnerReference.
Proof. solve_decision. Defined.
#[global] Instance ObjectMeta_eq_dec : EqDecision ObjectMeta.
Proof. solve_decision. Defined.

(** ** Conditions (conditionsv1) *)

Inductive ConditionStatus := ConditionTrue | ConditionFalse | ConditionUnknown.

Record Condition := mkCondition {
  cond_Type : string;
  cond_Status : ConditionStatus;
  cond_Reason : string;
  cond_Message : string;
  cond_LastHeartbeatTime : Z;
  cond_LastTransitionTime : Z
}.

#[global] Instance ConditionStatus_eq_dec : EqDecision ConditionStatus.
Proof. solve_decision. Defined.
#[global] Instance Condition_eq_dec : EqDecision Condition.
Proof. solve_decision. Defined.

(** [corev1.ObjectReference], as [reference.GetReference] fills it. *)
Record ObjectReference := mkObjectReference {
  oref_Kind : string;
  oref_Namespace : string;
  oref_Name : string
}.

#[global] Instance ObjectReference_eq_dec : EqDecision ObjectReference.
Proof. solve_decision. Defined.

(** ** Placement (rook.Placement) *)

Record NodeSelectorRequirement := mkNodeSelectorRequirement {
  nsr_Key : string;
  nsr_Operator : string;
  nsr_Values : list string
}.

(** [corev1.NodeSelectorTerm]: its match expressions. *)
Abbreviation NodeSelectorTerm := (list NodeSelectorRequirement).

(** [corev1.NodeAffinity]: the terms of
    RequiredDuringSchedulingIgnoredDuringExecution. *)
Abbreviation NodeAffinity := (list NodeSelectorTerm).

Record Toleration := mkToleration {
  tol_Key : string;
  tol_Operator : string;
  tol_Value : string;
  tol_Effect : string
}.

Record WeightedPodAffinityTerm := mkWeightedPodAffinityTerm {
  wpat_Weight : Z;
  (* the label selector's match expressions *)
  wpat_LabelSelector : list NodeSelectorRequirement;
  wpat_TopologyKey : string
}.

Record Placement := mkPlacement {
  pl_NodeAffinity : option NodeAffinity;
  pl_Tolerations : list Toleration;
  (* PreferredDuringSchedulingIgnoredDuringExecution of the anti-affinity *)
  pl_PodAntiAffinity : option (list WeightedPodAffinityTerm)
}.

#[global] Instance NodeSelectorRequirement_eq_dec : EqDecision NodeSelectorRequirement.
Proof. solve_decision. Defined.
#[global] Instance Toleration_eq_dec : EqDecision Toleration.
Proof. solve_decision. Defined.
#[global] Instance WeightedPodAffinityTerm_eq_dec : EqDecision WeightedPodAffinityTerm.
Proof. solve_decision. Defined.
#[global] Instance Placement_eq_dec : EqDecision Placement.
Proof. solve_decision. Defined.

(** [corev1.PersistentVolumeClaim], the fields the engine sets or reads. *)
Record PersistentVolumeClaim := mkPVC {
  pvc_StorageClassName : option string;
  (* Spec.Resources.Requests, quantities in their textual form *)
  pvc_Requests : gmap string string
}.

#[global] Instance PersistentVolumeClaim_eq_dec : EqDecision PersistentVolumeClaim.
Proof. solve_decision. Defined.

(** [corev1.ResourceRequirements]: limits and requests, quantities as text. *)
Record ResourceRequirements := mkResourceRequirements {
  rr_Limits : gmap string string;
  rr_Requests : gmap string string
}.

#[global] Instance ResourceRequirements_eq_dec : EqDecision ResourceRequirements.
Proof. solve_decision. Defined.

(** ** The top-level object (api/v1/storagecluster_types.go) *)

(** A Go map that may be nil: [reflect.DeepEqual] tells a nil map from an
    empty one. *)
Abbreviation GoMap := (option (gmap string string)).

(** ManageCephBlockPools, ManageCephFilesystems and ManageCephObjectStores
    share this shape (the last has no DisableSnapshotClass, left [false]). *)
Record ManagedResource := mkManagedResource {
  mr_ReconcileStrategy : string;
  mr_DisableStorageClass : bool;
  mr_DisableSnapshotClass : bool
}.

Record ManagedResourcesSpec := mkManagedResourcesSpec {
  CephBlockPools : ManagedResource;
  CephFilesystems : ManagedResource;
  CephObjectStores : ManagedResource
}.

Record StorageDeviceSet := mkStorageDeviceSet {
  sds_Count : Z;
  sds_Replica : Z;
  sds_Portable : bool;
  sds_Name : string;
  sds_Resources : ResourceRequirements;
  sds_Placement : Placement;
  sds_DataPVCTemplate : PersistentVolumeClaim
}.

Record StorageClusterSpec := mkStorageClusterSpec {
  (* ExternalStorage.Enable *)
  spec_ExternalStorageEnable : bool;
  spec_HostNetwork : bool;
  spec_Resources : gmap string ResourceRequirements;
  spec_StorageDeviceSets : list StorageDeviceSet;
  spec_MonPVCTemplate : option PersistentVolumeClaim;
  spec_ManagedResources : ManagedResourcesSpec
}.

Record StorageClusterStatus := mkStorageClusterStatus {
  st_Phase : string;
  (* a nil slice and an empty one are both [[]] *)
  st_Conditions : list Condition;
  st_RelatedObjects : list ObjectReference;
  st_FailureDomain : string;
  st_ExternalSecretHash : string
}.

Record StorageCluster := mkStorageCluster {
  (* TypeMeta *)
  sc_APIVersion : string;
  sc_Kind : string;
  sc_Meta : ObjectMeta;
  sc_Spec : StorageClusterSpec;
  sc_Status : StorageClusterStatus
}.

Definition withStatus (i : StorageCluster) (st : StorageClusterStatus) : StorageCluster :=
  mkStorageCluster (sc_APIVersion i) (sc_Kind i) (sc_Meta i) (sc_Spec i) st.

Definition withPhase (st : StorageClusterStatus) (p : string) : StorageClusterStatus :=
  mkStorageClusterStatus p (st_Conditions st) (st_RelatedObjects st)
    (st_FailureDomain st) (st_ExternalSecretHash st).

Definition withConditions (st : StorageClusterStatus) (cs : list Condition) : StorageClusterStatus :=
  mkStorageClusterStatus (st_Phase st) cs (st_RelatedObjects st)
    (st_FailureDomain st) (st_ExternalSecretHash st).

Definition withRelatedObjects (st : StorageClusterStatus) (rs : list ObjectReference) : StorageClusterStatus :=
  mkStorageClusterStatus (st_Phase st) (st_Conditions st) rs
    (st_FailureDomain st) (st_ExternalSecretHash st).

Definition withExternalSecretHash (st : StorageClusterStatus) (h : string) : StorageClusterStatus :=
  mkStorageClusterStatus (st_Phase st) (st_Conditions st) (st_RelatedObjects st)
    (st_FailureDomain st) h.

Record StorageClusterInitialization := mkStorageClusterInitialization {
  sci_Meta : ObjectMeta
}.

(** ** Rook objects *)

(** [rook.StorageClassDeviceSet]. *)
Record StorageClassDeviceSet := mkStorageClassDeviceSet {
  scds_Name : string;
  scds_Count : Z;
  scds_Resources : ResourceRequirements;
  scds_Placement : Placement;
  scds_Portable : bool;
  scds_VolumeClaimTemplates : list PersistentVolumeClaim
}.

Definition withPlacement (d : StorageClassDeviceSet) (p : Placement) : StorageClassDeviceSet :=
  mkStorageClassDeviceSet (scds_Name d) (scds_Count d) (scds_Resources d) p
    (scds_Portable d) (scds_VolumeClaimTemplates d).

(** [cephv1.Module]. *)
Record MgrModule := mkMgrModule { mod_Name : string; mod_Enabled : bool }.

(** [cephv1.ClusterSpec], field by field as [newCephCluster] fills it. *)
Record ClusterSpec := mkClusterSpec {
  cs_CephVersionImage : string;
  cs_CephVersionAllowUnsupported : bool;
  cs_MonCount : Z;
  cs_MonAllowMultiplePerNode : bool;
  cs_MonVolumeClaimTemplate : option PersistentVolumeClaim;
  cs_MgrModules : list MgrModule;
  cs_DataDirHostPath : string;
  cs_ManagePodBudgets : bool;
  cs_ManageMachineDisruptionBudgets : bool;
  cs_MachineDisruptionBudgetNamespace : string;
  cs_RBDMirroringWorkers : Z;
  cs_HostNetwork : bool;
  cs_MonitoringEnabled : bool;
  cs_MonitoringRulesNamespace : string;
  cs_StorageClassDeviceSets : list StorageClassDeviceSet;
  cs_TopologyAware : bool;
  cs_Placement : gmap string Placement
}.

Record CephCluster := mkCephCluster {
  cc_Meta : ObjectMeta;
  cc_Spec : ClusterSpec;
  (* Status.State *)
  cc_State : string
}.

(** CephBlockPool and CephFilesystem: the engine reads their status only.
    [None] is a nil Status; otherwise the phase it reports. *)
Record CephBlockPool := mkCephBlockPool {
  cbp_Meta : ObjectMeta;
  cbp_Status : option string
}.

Record CephFilesystem := mkCephFilesystem {
  cfs_Meta : ObjectMeta;
  cfs_Status : option string
}.

(** [cephv1.PoolSpec]; the target size ratio in hundredths. *)
Record PoolSpec := mkPoolSpec {
  ps_FailureDomain : string;
  ps_ReplicatedSize : Z;
  ps_TargetSizeRatio : Z
}.

Record GatewaySpec := mkGatewaySpec {
  gw_Port : Z;
  gw_Instances : Z;
  gw_Placement : Placement;
  gw_Resources : ResourceRequirements;
  (* the IPs of ExternalRgwEndpoints *)
  gw_ExternalRgwEndpoints : list string
}.

Record ObjectStoreSpec := mkObjectStoreSpec {
  os_PreservePoolsOnDelete : bool;
  os_DataPool : PoolSpec;
  os_MetadataPool : PoolSpec;
  os_Gateway : GatewaySpec;
  (* HealthCheck.Bucket *)
  os_HealthCheckDisabled : bool;
  os_HealthCheckInterval : string
}.

Record CephObjectStore := mkCephObjectStore {
  cos_Meta : ObjectMeta;
  cos_Spec : ObjectStoreSpec
}.

(** ** Core objects *)

Record StorageClass := mkStorageClass {
  scl_Meta : ObjectMeta;
  scl_Provisioner : string;
  scl_ReclaimPolicy : option string;
  scl_AllowVolumeExpansion : option bool;
  scl_Parameters : GoMap
}.

Record ConfigMap := mkConfigMap {
  cm_Meta : ObjectMeta;
  cm_Data : gmap string string
}.

Record Secret := mkSecret {
  sec_Meta : ObjectMeta;
  (* byte strings as text *)
  sec_Data : gmap string string
}.

#[global] Instance StorageClassDeviceSet_eq_dec : EqDecision StorageClassDeviceSet.
Proof. solve_decision. Defined.
#[global] Instance MgrModule_eq_dec : EqDecision MgrModule.
Proof. solve_decision. Defined.
#[global] Instance ClusterSpec_eq_dec : EqDecision ClusterSpec.
Proof. solve_decision. Defined.

(** ** The dependent-object store and the client *)

Inductive Kind :=
| KStorageCluster | KStorageClusterInitialization | KCephCluster
| KCephBlockPool | KCephFilesystem | KCephObjectStore
| KStorageClass | KConfigMap | KSecret.

#[global] Instance Kind_eq_dec : EqDecision Kind.
Proof. solve_decision. Defined.

Record Store := mkStore {
  storageClusters : gmap Key StorageCluster;
  storageClusterInitializations : gmap Key StorageClusterInitialization;
  cephClusters : gmap Key CephCluster;
  cephBlockPools : gmap Key CephBlockPool;
  cephFilesystems : gmap Key CephFilesystem;
  cephObjectStores : gmap Key CephObjectStore;
  storageClasses : gmap Key StorageClass;
  configMaps : gmap Key ConfigMap;
  secrets : gmap Key Secret
}.

Definition emptyStore : Store := mkStore ∅ ∅ ∅ ∅ ∅ ∅ ∅ ∅ ∅.

(** A kind of object the client can be asked for: where its objects live in
    the store, and the metadata that names one. *)
Class Resource (A : Type) := {
  kindOf : Kind;
  objects : Store -> gmap Key A;
  setObjects : gmap Key A -> Store -> Store;
  metaOf : A -> ObjectMeta
}.

#[global] Instance StorageCluster_resource : Resource StorageCluster := {
  kindOf := KStorageCluster;
  objects := storageClusters;
  setObjects m s := mkStore m (storageClusterInitializations s) (cephClusters s)
    (cephBlockPools s) (cephFilesystems s) (cephObjectStores s) (storageClasses s)
    (configMaps s) (secrets s);
  metaOf := sc_Meta
}.

#[global] Instance StorageClusterInitialization_resource : Resource StorageClusterInitialization := {
  kindOf := KStorageClusterInitialization;
  objects := storageClusterInitializations;
  setObjects m s := mkStore (storageClusters s) m (cephClusters s)
    (cephBlockPools s) (cephFilesystems s) (cephObjectStores s) (storageClasses s)
    (configMaps s) (secrets s);
  metaOf := sci_Meta
}.

#[global] Instance CephCluster_resource : Resource CephCluster := {
  kindOf := KCephCluster;
  objects := cephClusters;
  setObjects m s := mkStore (storageClusters s) (storageClusterInitializations s) m
    (cephBlockPools s) (cephFilesystems s) (cephObjectStores s) (storageClasses s)
    (configMaps s) (secrets s);
  metaOf := cc_Meta
}.

#[global] Instance CephBlockPool_resource : Resource CephBlockPool := {
  kindOf := KCephBlockPool;
  objects := cephBlockPools;
  setObjects m s := mkStore (storageClusters s) (storageClusterInitializations s)
    (cephClusters s) m (cephFilesystems s) (cephObjectStores s) (storageClasses s)
    (configMaps s) (secrets s);
  metaOf := cbp_Meta
}.

#[global] Instance CephFilesystem_resource : Resource CephFilesystem := {
  kindOf := KCephFilesystem;
  objects := cephFilesystems;
  setObjects m s := mkStore (storageClusters s) (storageClusterInitializations s)
    (cephClusters s) (cephBlockPools s) m (cephObjectStores s) (storageClasses s)
    (configMaps s) (secrets s);
  metaOf := cfs_Meta
}.

#[global] Instance CephObjectStore_resource : Resource CephObjectStore := {
  kindOf := KCephObjectStore;
  objects := cephObjectStores;
  setObjects m s := mkStore (storageClusters s) (storageClusterInitializations s)
    (cephClusters s) (cephBlockPools s) (cephFilesystems s) m (storageClasses s)
    (configMaps s) (secrets s);
  metaOf := cos_Meta
}.

#[global] Instance StorageClass_resource : Resource StorageClass := {
  kindOf := KStorageClass;
  objects := storageClasses;
  setObjects m s := mkStore (storageClusters s) (storageClusterInitializations s)
    (cephClusters s) (cephBlockPools s) (cephFilesystems s) (cephObjectStores s) m
    (configMaps s) (secrets s);
  metaOf := scl_Meta
}.

#[global] Instance ConfigMap_resource : Resource ConfigMap := {
  kindOf := KConfigMap;
  objects := configMaps;
  setObjects m s := mkStore (storageClusters s) (storageClusterInitializations s)
    (cephClusters s) (cephBlockPools s) (cephFilesystems s) (cephObjectStores s)
    (storageClasses s) m (secrets s);
  metaOf := cm_Meta
}.

#[global] Instance Secret_resource : Resource Secret := {
  kindOf := KSecret;
  objects := secrets;
  setObjects m s := mkStore (storageClusters s) (storageClusterInitializations s)
    (cephClusters s) (cephBlockPools s) (cephFilesystems s) (cephObjectStores s)
    (storageClasses s) (configMaps s) m;
  metaOf := sec_Meta
}.

Inductive Verb := Get | Create | Update | Delete | StatusUpdate.

#[global] Instance Verb_eq_dec : EqDecision Verb.
Proof. solve_decision. Defined.

(** One call on the client: what was asked, of which kind, for which key. *)
Record Call := mkCall { verb : Verb; kind : Kind; key : Key }.

(** A call together with the error the client returned for it. *)
Record Event := mkEvent { ev_call : Call; ev_err : option error }.

#[global] Instance Call_eq_dec : EqDecision Call.
Proof. solve_decision. Defined.
#[global] Instance Event_eq_dec : EqDecision Event.
Proof. solve_decision. Defined.

(** The state a pass runs in: the store behind the client and the calls
    issued so far (oldest first), the one [*StorageCluster] the pass works on
    (every ensurer receives the same pointer, so its mutations outlive a
    returned error), and the reconciler's own fields. *)
Record State := mkState {
  store : Store;
  trace : list Event;
  instance : StorageCluster;
  (* r.conditions; nil and empty are both [[]] *)
  conditions : list Condition;
  (* r.monitoringIP *)
  monitoringIP : string;
  (* the readiness file of ready.NewFileReady *)
  ready : bool
}.

Definition setStore (s : State) (st : Store) : State :=
  mkState st (trace s) (instance s) (conditions s) (monitoringIP s) (ready s).

Definition logEvent (s : State) (c : Call) (e : option error) : State :=
  mkState (store s) (trace s ++ [mkEvent c e]) (instance s) (conditions s)
    (monitoringIP s) (ready s).

Definition setInstance (s : State) (i : StorageCluster) : State :=
  mkState (store s) (trace s) i (conditions s) (monitoringIP s) (ready s).

Definition setConditions (s : State) (cs : list Condition) : State :=
  mkState (store s) (trace s) (instance s) cs (monitoringIP s) (ready s).

Definition setMonitoringIP (s : State) (ip : string) : State :=
  mkState (store s) (trace s) (instance s) (conditions s) ip (ready s).

Definition setReady (s : State) (b : bool) : State :=
  mkState (store s) (trace s) (instance s) (conditions s) (monitoringIP s) b.

(** ** The monad of reconciler code *)

Definition M (A : Type) : Type := State -> Res A * State.

Definition ret {A} (a : A) : M A := fun s => (Ok a, s).

Definition fail {A} (e : error) : M A := fun s => (Err e, s).

Definition panic {A} (msg : string) : M A := fun s => (Panic msg, s).

Definition bind {A B} (m : M A) (f : A -> M B) : M B :=
  fun s =>
    match m s with
    | (Ok a, s') => f a s'
    | (Err e, s') => (Err e, s')
    | (Panic p, s') => (Panic p, s')
    end.

(** [err := f(...)]: the error a call returned, for the caller to inspect. *)
Definition attempt {A} (m : M A) : M (error + A) :=
  fun s =>
    match m s with
    | (Ok a, s') => (Ok (inr a), s')
    | (Err e, s') => (Ok (inl e), s')
    | (Panic p, s') => (Panic p, s')
    end.

Definition lift {A} (r : Res A) : M A := fun s => (r, s).

(** A call that returns [(value, err)] and cannot panic: [inl err] or
    [inr value]; [if err != nil { return err }] follows it. *)
Definition liftE {A} (r : error + A) : M A :=
  fun s => match r with inl e => (Err e, s) | inr a => (Ok a, s) end.

Definition getState : M State := fun s => (Ok s, s).

Definition getInstance : M StorageCluster := fun s => (Ok (instance s), s).

Definition putInstance (i : StorageCluster) : M unit := fun s => (Ok tt, setInstance s i).

Declare Scope monad_scope.
Delimit Scope monad_scope with M.
Notation "x <- m ;; k" := (bind m (fun x => k))
  (at level 100, m at level 99, k at level 200, right associativity) : monad_scope.
Notation "m ;;; k" := (bind m (fun _ => k))
  (at level 100, k at level 200, right associativity) : monad_scope.
Open Scope monad_scope.

(** ** The world outside the engine *)

(** [ExternalResource]: one record of the external-cluster secret. *)
Record ExternalResource := mkExternalResource {
  er_Kind : string;
  er_Data : gmap string string;
  er_Name : string
}.

(** What the engine cannot decide by itself: the errors of the API server,
    the clock, the network, and the Go libraries it calls.  A library call
    that returns a value and an error is a sum: [inl err] or [inr value]. *)
Record Env := mkEnv {
  (* the error the client returns for a call, given how many calls were
     issued before it; [None] lets the call reach the store *)
  clientFault : nat -> Call -> option error;
  (* time.Now() *)
  now : Z;
  (* r.cephImage *)
  cephImage : string;
  (* the error of controllerutil.SetControllerReference(owner, object, scheme) *)
  setControllerReferenceErr : ObjectMeta -> ObjectMeta -> option error;
  (* the error of reference.GetReference(scheme, object) *)
  getReferenceErr : ObjectMeta -> option error;
  (* r.Platform.GetPlatform(r.Client) *)
  GetPlatform : error + string;
  (* hash.Write and the hexadecimal digest of crypto/sha512 *)
  sha512WriteErr : string -> option error;
  sha512Hex : string -> string;
  (* json.Unmarshal into []ExternalResource *)
  jsonUnmarshal : string -> error + list ExternalResource;
  (* the error of net.DialTimeout("tcp", endpoint, timeout) *)
  DialTimeout : string -> option error;
  (* the error of net.LookupIP *)
  LookupIP : string -> option error;
  (* net.SplitHostPort, net.JoinHostPort, strconv.ParseInt(s, 10, 32),
     strings.TrimSpace *)
  SplitHostPort : string -> error + string * string;
  JoinHostPort : string -> string -> string;
  ParseInt32 : string -> error + Z;
  TrimSpace : string -> string;
  (* the errors of ready.NewFileReady().Set() and .Unset() *)
  readySetErr : option error;
  readyUnsetErr : option error
}.

Section Client.
Context (E : Env).

Definition notFound : error := mkError NotFound "not found".
Definition alreadyExists : error := mkError AlreadyExists "already exists".

(** r.client.Get(ctx, key, &obj) *)
Definition clientGet {A} `{Resource A} (k : Key) : M A :=
  fun s =>
    let c := mkCall Get (kindOf (A:=A)) k in
    match clientFault E (length (trace s)) c with
    | Some e => (Err e, logEvent s c (Some e))
    | None =>
        match objects (store s) !! k with
        | Some o => (Ok o, logEvent s c None)
        | None => (Err notFound, logEvent s c (Some notFound))
        end
    end.

(** r.client.Create(ctx, obj) *)
Definition clientCreate {A} `{Resource A} (o : A) : M unit :=
  fun s =>
    let k := keyOf (metaOf o) in
    let c := mkCall Create (kindOf (A:=A)) k in
    match clientFault E (length (trace s)) c with
    | Some e => (Err e, logEvent s c (Some e))
    | None =>
        match objects (store s) !! k with
        | Some _ => (Err alreadyExists, logEvent s c (Some alreadyExists))
        | None =>
            (Ok tt, logEvent (setStore s (setObjects (<[k := o]> (objects (store s))) (store s))) c None)
        end
    end.

(** r.client.Update(ctx, obj): the stored object is replaced whole. *)
Definition clientUpdate {A} `{Resource A} (o : A) : M unit :=
  fun s =>
    let k := keyOf (metaOf o) in
    let c := mkCall Update (kindOf (A:=A)) k in
    match clientFault E (length (trace s)) c with
    | Some e => (Err e, logEvent s c (Some e))
    | None =>
        match objects (store s) !! k with
        | Some _ =>
            (Ok tt, logEvent (setStore s (setObjects (<[k := o]> (objects (store s))) (store s))) c None)
        | None => (Err notFound, logEvent s c (Some notFound))
        end
    end.

(** r.client.Delete(ctx, obj) *)
Definition clientDelete {A} `{Resource A} (o : A) : M unit :=
  fun s =>
    let k := keyOf (metaOf o) in
    let c := mkCall Delete (kindOf (A:=A)) k in
    match clientFault E (length (trace s)) c with
    | Some e => (Err e, logEvent s c (Some e))
    | None =>
        match objects (store s) !! k with
        | Some _ =>
            (Ok tt, logEvent (setStore s (setObjects (delete k (objects (store s))) (store s))) c None)
        | None => (Err notFound, logEvent s c (Some notFound))
        end
    end.

(** r.client.Status().Update(ctx, instance): only the status of the stored
    object is replaced. *)
Definition clientStatusUpdate (i : StorageCluster) : M unit :=
  fun s =>
    let k := keyOf (sc_Meta i) in
    let c := mkCall StatusUpdate KStorageCluster k in
    match clientFault E (length (trace s)) c with
    | Some e => (Err e, logEvent s c (Some e))
    | None =>
        match storageClusters (store s) !! k with
        | Some old =>
            (Ok tt, logEvent (setStore s (setObjects (<[k := withStatus old (sc_Status i)]> (storageClusters (store s))) (store s))) c None)
        | None => (Err notFound, logEvent s c (Some notFound))
        end
    end.

(** controllerutil.SetControllerReference(owner, object, scheme): the
    object's metadata with the owner appended as its controller. *)
Definition SetControllerReference (owner : StorageCluster) (m : ObjectMeta)
  : error + ObjectMeta :=
  match setControllerReferenceErr E (sc_Meta owner) m with
  | Some e => inl e
  | None =>
      inr (withOwnerReferences m
            (om_OwnerReferences m ++
             [mkOwnerReference (sc_APIVersion owner) (sc_Kind owner)
                (om_Name (sc_Meta owner)) (om_UID (sc_Meta owner)) true]))
  end.

(** reference.GetReference(scheme, object) *)
Definition GetReference (k : string) (m : ObjectMeta) : error + ObjectReference :=
  match getReferenceErr E m with
  | Some e => inl e
  | None => inr (mkObjectReference k (om_Namespace m) (om_Name m))
  end.

(** conditionsv1.SetStatusCondition: conditions are keyed by type; a new type
    is appended, an existing one keeps its place and its transition time
    unless the status value changes. *)
Fixpoint SetStatusCondition (cs : list Condition) (c : Condition) : list Condition :=
  match cs with
  | [] =>
      [mkCondition (cond_Type c) (cond_Status c) (cond_Reason c) (cond_Message c)
         (now E) (now E)]
  | x :: rest =>
      if decide (cond_Type x = cond_Type c) then
        mkCondition (cond_Type x) (cond_Status c) (cond_Reason c) (cond_Message c)
          (now E)
          (if decide (cond_Status x = cond_Status c)
           then cond_LastTransitionTime x else now E)
        :: rest
      else x :: SetStatusCondition rest c
  end.

(** conditionsv1.IsStatusConditionFalse *)
Fixpoint IsStatusConditionFalse (cs : list Condition) (t : string) : bool :=
  match cs with
  | [] => false
  | x :: rest =>
      if decide (cond_Type x = t) then bool_decide (cond_Status x = ConditionFalse)
      else IsStatusConditionFalse rest t
  end.

(** objectreferencesv1.SetObjectReference: insert, or replace the reference
    of the same kind, namespace and name. *)
Definition SetObjectReference (rs : list ObjectReference) (r : ObjectReference) : list ObjectReference :=
  if bool_decide (r ∈ rs) then rs else rs ++ [r].

End Client.

(** ** Parts of the repository outside the embedded files *)

(** Functions and tables of the repository that the embedded files call but
    do not define.  Nothing is assumed about them: every definition below
    takes them as given, and a theorem that needs one of them to behave says
    so in a hypothesis. *)
Record Repo := mkRepo {
  generateNameForCephObjectStore : StorageCluster -> string;
  generateNameForCephBlockPool : StorageCluster -> string;
  generateNameForCephFilesystem : StorageCluster -> string;
  generateNameForCephFilesystemSC : StorageCluster -> string;
  generateNameForCephBlockPoolSC : StorageCluster -> string -> string;
  generateNameForCephRgwSC : StorageCluster -> string;
  getPlacement : StorageCluster -> string -> Placement;
  (* defaults.GetDaemonResources *)
  GetDaemonResources : string -> gmap string ResourceRequirements -> ResourceRequirements;
  newStorageClassDeviceSets : list StorageDeviceSet -> list StorageClassDeviceSet;
  (* statusutil.MapCephClusterNoConditions, MapCephClusterNegativeConditions *)
  MapCephClusterNoConditions : list Condition -> string -> string -> list Condition;
  MapCephClusterNegativeConditions : list Condition -> CephCluster -> list Condition;
  (* the platforms avoidObjectStore ranges over *)
  AvoidObjectStorePlatforms : list string;
  (* r.newStorageClasses(instance), of the external synthesizer's reconciler *)
  newStorageClasses : StorageCluster -> Res (list StorageClass);
  (* r.createStorageClasses(scs, instance, reqLogger) and
     r.createCephObjectStores(stores, instance, reqLogger), the three-argument
     forms the external synthesizer calls; a nil pointer is [None] *)
  createStorageClasses_reqLogger : list (option StorageClass) -> M unit;
  createCephObjectStores_reqLogger : list CephObjectStore -> M unit;
  (* where newStorageClasses puts each class *)
  cephFileSystemIndex : nat;
  cephBlockPoolIndex : nat;
  cephObjectStoreIndex : nat
}.

(** Modelled from the spec: the ReconcileStrategy constants are declared
    outside src/; the reconcile policy has the strategies Manage, Init and
    Ignore.  The code only ever compares with Ignore and Init: every other
    value, the empty default included, is handled as Manage. *)
Definition ReconcileStrategyManage : string := "manage".
Definition ReconcileStrategyInit : string := "init".
Definition ReconcileStrategyIgnore : string := "ignore".

(** Modelled from the spec: the phase constants of the util package are
    declared outside src/; the spec names the phases Progressing, Error,
    Ready, Not Ready and the informational Expanding. *)
Definition PhaseProgressing : string := "Progressing".
Definition PhaseError : string := "Error".
Definition PhaseReady : string := "Ready".
Definition PhaseNotReady : string := "Not Ready".
Definition PhaseClusterExpanding : string := "Expanding".

(** api/v1/storagecluster_types.go *)
Definition ConditionReconcileComplete : string := "ReconcileComplete".
Definition ConditionUpgradeable : string := "Upgradeable".
Definition ReconcileFailed : string := "ReconcileFailed".
Definition ReconcileInit : string := "Init".
Definition ReconcileCompleted : string := "ReconcileCompleted".
Definition ReconcileCompletedMessage : string := "Reconcile completed successfully".

(** The double quote of [%q], and a [types.NamespacedName] printed with it. *)
Definition dquote : string := String (Ascii.ascii_of_nat 34) EmptyString.
Definition quoted (s : string) : string := dquote +:+ s +:+ dquote.
Definition quotedKey (k : Key) : string := quoted (k.1 +:+ "/" +:+ k.2).

(** ** The StorageClass manager (controllers/storagecluster) *)

(** StorageClassConfiguration provides configuration options for a StorageClass. *)
Record StorageClassConfiguration := mkStorageClassConfiguration {
  storageClass : StorageClass;
  reconcileStrategy : string;
  disable : bool
}.

Definition PersistentVolumeReclaimDelete : string := "Delete".

Section Engine.
Context (E : Env) (R : Repo).

(** newCephFilesystemStorageClassConfiguration *)
Definition newCephFilesystemStorageClassConfiguration (initData : StorageCluster)
  : StorageClassConfiguration :=
  let ns := om_Namespace (sc_Meta initData) in
  let managementSpec := CephFilesystems (spec_ManagedResources (sc_Spec initData)) in
  mkStorageClassConfiguration
    (mkStorageClass
       (mkObjectMeta (generateNameForCephFilesystemSC R initData) "" "" ∅
          {[ "description" := "Provides RWO and RWX Filesystem volumes" ]} [] None)
       (ns +:+ ".cephfs.csi.ceph.com")
       (Some PersistentVolumeReclaimDelete)
       (Some true)
       (Some (list_to_map [
          ("clusterID", ns);
          ("fsName", om_Name (sc_Meta initData) +:+ "-cephfilesystem");
          ("csi.storage.k8s.io/provisioner-secret-name", "rook-csi-cephfs-provisioner");
          ("csi.storage.k8s.io/provisioner-secret-namespace", ns);
          ("csi.storage.k8s.io/node-stage-secret-name", "rook-csi-cephfs-node");
          ("csi.storage.k8s.io/node-stage-secret-namespace", ns);
          ("csi.storage.k8s.io/controller-expand-secret-name", "rook-csi-cephfs-provisioner");
          ("csi.storage.k8s.io/controller-expand-secret-namespace", ns) ])))
    (mr_ReconcileStrategy managementSpec)
    (mr_DisableStorageClass managementSpec).

(** newCephBlockPoolStorageClassConfiguration *)
Definition newCephBlockPoolStorageClassConfiguration (initData : StorageCluster)
  (thickProvision : bool) : StorageClassConfiguration :=
  let thickProvisionStr := if thickProvision then "true" else "false" in
  let storageClassSuffix := if thickProvision then "-thick" else "" in
  let ns := om_Namespace (sc_Meta initData) in
  let managementSpec := CephBlockPools (spec_ManagedResources (sc_Spec initData)) in
  mkStorageClassConfiguration
    (mkStorageClass
       (mkObjectMeta (generateNameForCephBlockPoolSC R initData storageClassSuffix) "" "" ∅
          {[ "description" := "Provides RWO Filesystem volumes, and RWO and RWX Block volumes" ]}
          [] None)
       (ns +:+ ".rbd.csi.ceph.com")
       (Some PersistentVolumeReclaimDelete)
       (Some true)
       (Some (list_to_map [
          ("clusterID", ns);
          ("pool", generateNameForCephBlockPool R initData);
          ("imageFeatures", "layering");
          ("csi.storage.k8s.io/fstype", "ext4");
          ("imageFormat", "2");
          ("thickProvision", thickProvisionStr);
          ("csi.storage.k8s.io/provisioner-secret-name", "rook-csi-rbd-provisioner");
          ("csi.storage.k8s.io/provisioner-secret-namespace", ns);
          ("csi.storage.k8s.io/node-stage-secret-name", "rook-csi-rbd-node");
          ("csi.storage.k8s.io/node-stage-secret-namespace", ns);
          ("csi.storage.k8s.io/controller-expand-secret-name", "rook-csi-rbd-provisioner");
          ("csi.storage.k8s.io/controller-expand-secret-namespace", ns) ])))
    (mr_ReconcileStrategy managementSpec)
    (mr_DisableStorageClass managementSpec).

(** newCephOBCStorageClassConfiguration *)
Definition newCephOBCStorageClassConfiguration (initData : StorageCluster)
  : StorageClassConfiguration :=
  let ns := om_Namespace (sc_Meta initData) in
  let managementSpec := CephObjectStores (spec_ManagedResources (sc_Spec initData)) in
  mkStorageClassConfiguration
    (mkStorageClass
       (mkObjectMeta (generateNameForCephRgwSC R initData) "" "" ∅
          {[ "description" := "Provides Object Bucket Claims (OBCs)" ]} [] None)
       (ns +:+ ".ceph.rook.io/bucket")
       (Some PersistentVolumeReclaimDelete)
       None
       (Some (list_to_map [
          ("objectStoreNamespace", ns);
          ("region", "us-east-1");
          ("objectStoreName", generateNameForCephObjectStore R initData) ])))
    (mr_ReconcileStrategy managementSpec)
    (mr_DisableStorageClass managementSpec).

(** avoidObjectStore: is the platform one where object storage is avoided? *)
Definition avoidObjectStore (p : string) : bool :=
  bool_decide (p ∈ AvoidObjectStorePlatforms R).

(** Modelled from the spec: PlatformsShouldAvoidObjectStore is not under
    src/; it reports whether the current platform is a provider where object
    storage is avoided, or the error of looking the platform up. *)
Definition PlatformsShouldAvoidObjectStore : error + bool :=
  match GetPlatform E with
  | inr p => inr (avoidObjectStore p)
  | inl e => inl e
  end.

(** newStorageClassConfigurations returns the StorageClassConfiguration
    instances that should be created on first run. *)
Definition newStorageClassConfigurations (initData : StorageCluster)
  : error + list StorageClassConfiguration :=
  let configs := [ newCephFilesystemStorageClassConfiguration initData;
                   newCephBlockPoolStorageClassConfiguration initData false;
                   newCephBlockPoolStorageClassConfiguration initData true ] in
  let '(avoid, errIsNil) :=
    match PlatformsShouldAvoidObjectStore with
    | inr avoid => (avoid, true)
    | inl _ => (false, false)
    end in
  if spec_ExternalStorageEnable (sc_Spec initData) || (errIsNil && negb avoid)
  then inr (configs ++ [newCephOBCStorageClassConfiguration initData])
  else inr configs.

(** One iteration of the loop of createStorageClasses: [continue] is
    [ret tt], [return err] is [fail err]. *)
Definition createStorageClasses_iter (scc : StorageClassConfiguration) : M unit :=
  if bool_decide (reconcileStrategy scc = ReconcileStrategyIgnore) || disable scc
  then ret tt
  else
    let sc := storageClass scc in
    r <- attempt (clientGet E (A:=StorageClass) (keyOf (scl_Meta sc))) ;;
    match r with
    | inl err =>
        if IsNotFound err then clientCreate E sc else fail err
    | inr existing =>
        if bool_decide (reconcileStrategy scc = ReconcileStrategyInit) then ret tt
        else
          match om_DeletionTimestamp (scl_Meta existing) with
          | Some _ =>
              fail (Errorf ("failed to restore StorageClass  "
                              +:+ om_Name (scl_Meta existing)
                              +:+ " because it is marked for deletion"))
          | None =>
              if bool_decide (scl_Parameters sc = scl_Parameters existing) then ret tt
              else
                clientDelete E existing ;;;
                clientCreate E sc
          end
    end.

Fixpoint createStorageClasses (sccs : list StorageClassConfiguration) : M unit :=
  match sccs with
  | [] => ret tt
  | scc :: rest => createStorageClasses_iter scc ;;; createStorageClasses rest
  end.

(** The dependency gates of ensureCreated. *)
Definition waitForCephBlockPool (instance : StorageCluster) : M unit :=
  let key := (om_Namespace (sc_Meta instance), generateNameForCephBlockPool R instance) in
  cephBlockPool <- clientGet E (A:=CephBlockPool) key ;;
  match cbp_Status cephBlockPool with
  | None => fail (Errorf ("cephBlockPool " +:+ quotedKey key +:+ " is not reporting status"))
  | Some phase =>
      if bool_decide (phase = PhaseReady) then ret tt
      else fail (Errorf ("cephBlockPool " +:+ quotedKey key +:+ " is not " +:+ quoted PhaseReady))
  end.

Definition waitForCephFilesystem (instance : StorageCluster) : M unit :=
  let key := (om_Namespace (sc_Meta instance), generateNameForCephFilesystem R instance) in
  cephFilesystem <- clientGet E (A:=CephFilesystem) key ;;
  match cfs_Status cephFilesystem with
  | None => fail (Errorf ("cephFilesystem " +:+ quotedKey key +:+ " is not reporting status"))
  | Some phase =>
      if bool_decide (phase = PhaseReady) then ret tt
      else fail (Errorf ("cephFilesystem " +:+ quotedKey key +:+ " is not " +:+ quoted PhaseReady))
  end.

(** ensureCreated ensures that StorageClass resources exist in the desired
    state. *)
Definition ensureCreated : M unit :=
  instance <- getInstance ;;
  scs <- liftE (newStorageClassConfigurations instance) ;;
  (if negb (mr_DisableStorageClass (CephBlockPools (spec_ManagedResources (sc_Spec instance))))
   then waitForCephBlockPool instance else ret tt) ;;;
  (if negb (mr_DisableStorageClass (CephFilesystems (spec_ManagedResources (sc_Spec instance))))
   then waitForCephFilesystem instance else ret tt) ;;;
  createStorageClasses scs.

(** One iteration of the loop of ensureDeleted; every error is logged and
    ignored. *)
Definition ensureDeleted_iter (scc : StorageClassConfiguration) : M unit :=
  let sc := storageClass scc in
  r <- attempt (clientGet E (A:=StorageClass) (keyOf (scl_Meta sc))) ;;
  match r with
  | inr existing =>
      match om_DeletionTimestamp (scl_Meta existing) with
      | Some _ => ret tt
      | None =>
          let sc' :=
            mkStorageClass
              (withOwnerReferences (scl_Meta existing) (om_OwnerReferences (scl_Meta sc)))
              (scl_Provisioner sc) (scl_ReclaimPolicy sc) (scl_AllowVolumeExpansion sc)
              (scl_Parameters sc) in
          _ <- attempt (clientDelete E sc') ;;
          ret tt
      end
  | inl _ => ret tt
  end.

Fixpoint ensureDeleted_loop (sccs : list StorageClassConfiguration) : M unit :=
  match sccs with
  | [] => ret tt
  | scc :: rest => ensureDeleted_iter scc ;;; ensureDeleted_loop rest
  end.

(** ensureDeleted deletes the storageClasses that the ocs-operator created *)
Definition ensureDeleted : M unit :=
  instance <- getInstance ;;
  match newStorageClassConfigurations instance with
  | inl _ => ret tt
  | inr sccs => ensureDeleted_loop sccs
  end.

(** ** The CephObjectStore ensurer (controllers/storagecluster) *)

(** newCephObjectStoreInstances returns the cephObjectStore instances that
    should be created on first run. *)
Definition newCephObjectStoreInstances (initData : StorageCluster)
  : error + list CephObjectStore :=
  let obj :=
    mkCephObjectStore
      (mkObjectMeta (generateNameForCephObjectStore R initData)
         (om_Namespace (sc_Meta initData)) "" ∅ ∅ [] None)
      (mkObjectStoreSpec false
         (mkPoolSpec (st_FailureDomain (sc_Status initData)) 3 49)
         (mkPoolSpec (st_FailureDomain (sc_Status initData)) 3 0)
         (mkGatewaySpec 80 2 (getPlacement R initData "rgw")
            (GetDaemonResources R "rgw" (spec_Resources (sc_Spec initData))) [])
         false "") in
  match SetControllerReference E initData (cos_Meta obj) with
  | inr m => inr [mkCephObjectStore m (cos_Spec obj)]
  | inl e => inl e
  end.

(** How an iteration of a loop leaves it: on to the next element, or out of
    the function with [return nil]. *)
Inductive LoopCtl := Continue | Return.

(** One iteration of the loop of createCephObjectStores.  A Get error other
    than not-found matches no case of the switch and is dropped. *)
Definition createCephObjectStores_iter (cephObjectStore : CephObjectStore) : M LoopCtl :=
  instance <- getInstance ;;
  r <- attempt (clientGet E (A:=CephObjectStore) (keyOf (cos_Meta cephObjectStore))) ;;
  match r with
  | inr existing =>
      let reconcileStrategy :=
        mr_ReconcileStrategy (CephObjectStores (spec_ManagedResources (sc_Spec instance))) in
      if bool_decide (reconcileStrategy = ReconcileStrategyInit) then ret Return
      else
        match om_DeletionTimestamp (cos_Meta existing) with
        | Some _ =>
            fail (Errorf ("failed to restore cephobjectstore object "
                            +:+ om_Name (cos_Meta existing)
                            +:+ " because it is marked for deletion"))
        | None =>
            clientUpdate E
              (mkCephObjectStore
                 (withOwnerReferences (cos_Meta existing)
                    (om_OwnerReferences (cos_Meta cephObjectStore)))
                 (cos_Spec cephObjectStore)) ;;;
            ret Continue
        end
  | inl err =>
      if IsNotFound err then clientCreate E cephObjectStore ;;; ret Continue
      else ret Continue
  end.

(** createCephObjectStore creates CephObjectStore in the desired state *)
Fixpoint createCephObjectStores (cephObjectStores : list CephObjectStore) : M unit :=
  match cephObjectStores with
  | [] => ret tt
  | cephObjectStore :: rest =>
      ctl <- createCephObjectStores_iter cephObjectStore ;;
      match ctl with
      | Continue => createCephObjectStores rest
      | Return => ret tt
      end
  end.

(** ensureCephObjectStores ensures that CephObjectStore resources exist in
    the desired state. *)
Definition ensureCephObjectStores : M unit :=
  instance <- getInstance ;;
  let reconcileStrategy :=
    mr_ReconcileStrategy (CephObjectStores (spec_ManagedResources (sc_Spec instance))) in
  if bool_decide (reconcileStrategy = ReconcileStrategyIgnore) then ret tt
  else
    platform <- liftE (GetPlatform E) ;;
    if avoidObjectStore platform then ret tt
    else
      cephObjectStores <- liftE (newCephObjectStoreInstances instance) ;;
      createCephObjectStores cephObjectStores.

(** ** The engine-cluster ensurer and the orchestrator
       (pkg/controller/storagecluster/reconcile.go) *)

Definition nodeAffinityKey : string := "cluster.ocs.openshift.io/openshift-storage".
Definition nodeTolerationKey : string := "node.ocs.openshift.io/storage".

Definition defaultNodeAffinity : NodeAffinity :=
  [ [ mkNodeSelectorRequirement nodeAffinityKey "Exists" [] ] ].

Definition defaultTolerations : list Toleration :=
  [ mkToleration nodeTolerationKey "Equal" "true" "NoSchedule" ].

Definition defaultOSDPlacement : Placement :=
  mkPlacement (Some defaultNodeAffinity) defaultTolerations
    (Some [ mkWeightedPodAffinityTerm 100
              [ mkNodeSelectorRequirement "app" "In" ["rook-ceph-osd"] ]
              "kubernetes.io/hostname" ]).

(** newCephCluster returns a CephCluster object. *)
Definition newCephCluster (sc : StorageCluster) (cephImage : string) : CephCluster :=
  let labels : gmap string string := {[ "app" := om_Name (sc_Meta sc) ]} in
  let deviceSets :=
    map (fun d => withPlacement d defaultOSDPlacement)
      (newStorageClassDeviceSets R (spec_StorageDeviceSets (sc_Spec sc))) in
  let monVolumeClaimTemplate :=
    match spec_MonPVCTemplate (sc_Spec sc) with
    | Some t => Some t
    | None =>
        match spec_StorageDeviceSets (sc_Spec sc) with
        | ds :: _ =>
            Some (mkPVC (pvc_StorageClassName (sds_DataPVCTemplate ds))
                    {[ "storage" := "10Gi" ]})
        | [] => None
        end
    end in
  mkCephCluster
    (mkObjectMeta (om_Name (sc_Meta sc)) (om_Namespace (sc_Meta sc)) "" labels ∅ [] None)
    (mkClusterSpec
       cephImage false
       3 false monVolumeClaimTemplate
       [ mkMgrModule "pg_autoscaler" true ]
       "/var/lib/rook"
       true true "openshift-machine-api"
       0
       (spec_HostNetwork (sc_Spec sc))
       true "openshift-storage"
       deviceSets true
       {[ "all" := mkPlacement (Some defaultNodeAffinity) defaultTolerations None ]})
    "".

(** The search of ensureCephCluster for a device set whose count grows: for
    some set of the found spec, some set of the desired spec has the same
    name and a greater count. *)
Definition isExpanding (found desired : list StorageClassDeviceSet) : bool :=
  existsb (fun countInFoundSpec =>
    existsb (fun countInCephClusterSpec =>
      bool_decide (scds_Name countInFoundSpec = scds_Name countInCephClusterSpec)
      && bool_decide (scds_Count countInCephClusterSpec > scds_Count countInFoundSpec))
      desired)
    found.

Definition setPhase (p : string) : M unit :=
  fun s => (Ok tt, setInstance s (withStatus (instance s) (withPhase (sc_Status (instance s)) p))).

Definition withSpec (c : CephCluster) (sp : ClusterSpec) : CephCluster :=
  mkCephCluster (cc_Meta c) sp (cc_State c).

(** ensureCephCluster ensures that a CephCluster resource exists with its
    Spec in the desired state. *)
Definition ensureCephCluster : M unit :=
  sc <- getInstance ;;
  let cephCluster0 := newCephCluster sc (cephImage E) in
  m <- liftE (SetControllerReference E sc (cc_Meta cephCluster0)) ;;
  let cephCluster := mkCephCluster m (cc_Spec cephCluster0) (cc_State cephCluster0) in
  r <- attempt (clientGet E (A:=CephCluster) (keyOf (cc_Meta cephCluster))) ;;
  match r with
  | inl err =>
      if IsNotFound err then clientCreate E cephCluster else fail err
  | inr found =>
      if negb (bool_decide (cc_Spec cephCluster = cc_Spec found)) then
        (if isExpanding (cs_StorageClassDeviceSets (cc_Spec found))
                        (cs_StorageClassDeviceSets (cc_Spec cephCluster))
         then setPhase PhaseClusterExpanding else ret tt) ;;;
        clientUpdate E (withSpec found (cc_Spec cephCluster))
      else
        objectRef <- liftE (GetReference E "CephCluster" (cc_Meta found)) ;;
        (fun s =>
           let i := instance s in
           (Ok tt, setInstance s
              (withStatus i (withRelatedObjects (sc_Status i)
                 (SetObjectReference (st_RelatedObjects (sc_Status i)) objectRef))))) ;;;
        (fun s =>
           if bool_decide (cc_State found = "") then
             (Ok tt, setConditions s
                (MapCephClusterNoConditions R (conditions s) "CephClusterStatus"
                   "CephCluster resource is not reporting status"))
           else
             (Ok tt, setConditions s
                (MapCephClusterNegativeConditions R (conditions s) found)))
  end.

(** Modelled from the spec: statusutil.SetProgressingCondition,
    SetErrorCondition and SetCompleteCondition are not under src/.  The pass
    initializes a Progressing condition; on failure it records a Failed
    condition carrying the error text; on success it records completion.
    Failure and completion are the two values of ReconcileComplete, the
    condition type reconcile.go itself sets to true when a pass completes
    with negative conditions. *)
Definition SetProgressingCondition (cs : list Condition) (reason message : string)
  : list Condition :=
  SetStatusCondition E cs (mkCondition "Progressing" ConditionTrue reason message 0 0).

Definition SetErrorCondition (cs : list Condition) (reason message : string)
  : list Condition :=
  SetStatusCondition E cs
    (mkCondition ConditionReconcileComplete ConditionFalse reason message 0 0).

Definition SetCompleteCondition (cs : list Condition) (reason message : string)
  : list Condition :=
  SetStatusCondition E cs
    (mkCondition ConditionReconcileComplete ConditionTrue reason message 0 0).

(** In-place changes of the [*StorageCluster] of the pass. *)
Definition modifyStatus (f : StorageClusterStatus -> StorageClusterStatus) : M unit :=
  fun s => (Ok tt, setInstance s (withStatus (instance s) (f (sc_Status (instance s))))).

(** ready.NewFileReady().Set() and .Unset() *)
Definition readySet : M unit :=
  fun s => match readySetErr E with
           | Some e => (Err e, s)
           | None => (Ok tt, setReady s true)
           end.

Definition readyUnset : M unit :=
  fun s => match readyUnsetErr E with
           | Some e => (Err e, s)
           | None => (Ok tt, setReady s false)
           end.

(** The failure branch of the ensurer loop: the error is recorded in the
    status, the status update is tried (its own error is only logged), and
    the ensurer's error is returned. *)
Definition reconcileFailed (err : error) : M unit :=
  let reason := ReconcileFailed in
  let message := "Error while reconciling: " +:+ err_text err in
  modifyStatus (fun st => withConditions st (SetErrorCondition (st_Conditions st) reason message)) ;;;
  modifyStatus (fun st => withPhase st PhaseError) ;;;
  instance <- getInstance ;;
  _ <- attempt (clientStatusUpdate E instance) ;;
  fail err.

(** The loop of Reconcile over its ensurers. *)
Fixpoint runEnsurers (fs : list (M unit)) : M unit :=
  match fs with
  | [] => ret tt
  | f :: rest =>
      r <- attempt f ;;
      match r with
      | inl err => reconcileFailed err
      | inr _ => runEnsurers rest
      end
  end.

(** What Reconcile does once every ensurer has succeeded. *)
Definition reconcileCompleted : M unit :=
  s <- getState ;;
  match conditions s with
  | [] =>
      modifyStatus (fun st => withConditions st
        (SetCompleteCondition (st_Conditions st) ReconcileCompleted ReconcileCompletedMessage)) ;;;
      r <- attempt readySet ;;
      modifyStatus (fun st => withPhase st PhaseReady) ;;;
      match r with
      | inl err => fail err
      | inr _ => ret tt
      end
  | cs =>
      modifyStatus (fun st => withConditions st
        (fold_left (SetStatusCondition E) cs (st_Conditions st))) ;;;
      modifyStatus (fun st => withConditions st
        (SetStatusCondition E (st_Conditions st)
           (mkCondition ConditionReconcileComplete ConditionTrue
              ReconcileCompleted ReconcileCompletedMessage 0 0))) ;;;
      modifyStatus (fun st => withPhase st PhaseReady) ;;;
      instance <- getInstance ;;
      if IsStatusConditionFalse (st_Conditions (sc_Status instance)) ConditionUpgradeable then
        r <- attempt readyUnset ;;
        modifyStatus (fun st =>
          if bool_decide (st_Phase st = PhaseReady) || bool_decide (st_Phase st = "")
          then withPhase st PhaseNotReady else st) ;;;
        match r with
        | inl err => fail err
        | inr _ => ret tt
        end
      else ret tt
  end ;;;
  instance <- getInstance ;;
  clientStatusUpdate E instance.

(** The StorageClusterInitialization step of Reconcile.  [true]: the object
    was found and the pass goes on; [false]: the pass returns nil here. *)
Definition checkStorageClusterInitialization (request : Key) : M bool :=
  r <- attempt (clientGet E (A:=StorageClusterInitialization) request) ;;
  match r with
  | inr _ => ret true
  | inl err =>
      if IsNotFound err then
        instance <- getInstance ;;
        m <- liftE (SetControllerReference E instance
                      (mkObjectMeta request.2 request.1 "" ∅ ∅ [] None)) ;;
        c <- attempt (clientCreate E (mkStorageClusterInitialization m)) ;;
        match c with
        | inr _ => ret false
        | inl cerr => fail cerr
        end
      else fail err
  end.

(** Reconcile up to its ensurer loop: the instance is fetched, its
    conditions are initialized, the StorageClusterInitialization is looked
    up.  [true]: the pass goes on to the ensurers; [false]: it returns nil
    here. *)
Definition reconcilePrologue (request : Key) : M bool :=
  r <- attempt (clientGet E (A:=StorageCluster) request) ;;
  match r with
  | inl err => if IsNotFound err then ret false else fail err
  | inr fetched =>
      putInstance fetched ;;;
      (match st_Conditions (sc_Status fetched) with
       | [] =>
           modifyStatus (fun st => withConditions st
             (SetProgressingCondition (st_Conditions st) ReconcileInit
                "Initializing StorageCluster")) ;;;
           modifyStatus (fun st => withPhase st PhaseProgressing) ;;;
           instance <- getInstance ;;
           clientStatusUpdate E instance
       | _ => ret tt
       end) ;;;
      checkStorageClusterInitialization request
  end.

(** [r.conditions = nil] *)
Definition resetConditions : M unit := fun s => (Ok tt, setConditions s []).

(** Reconcile, over the list of ensurers it runs in order. *)
Definition Reconcile_with (ensurers : list (M unit)) (request : Key) : M unit :=
  goOn <- reconcilePrologue request ;;
  if goOn then
    resetConditions ;;;
    runEnsurers ensurers ;;;
    reconcileCompleted
  else ret tt.

(** Reconcile reads that state of the cluster for a StorageCluster object
    and makes changes based on the state read and what is in the
    StorageCluster.Spec; its ensurer list is [r.ensureCephCluster]. *)
Definition Reconcile (request : Key) : M unit :=
  Reconcile_with [ensureCephCluster] request.

(** ** The external-secret synthesizer *)

Definition externalClusterDetailsSecret : string := "rook-ceph-external-cluster-details".
Definition externalClusterDetailsKey : string := "external_cluster_details".
Definition cephFsStorageClassName : string := "cephfs".
Definition cephRbdStorageClassName : string := "ceph-rbd".
Definition cephRgwStorageClassName : string := "ceph-rgw".
Definition externalCephRgwEndpointKey : string := "endpoint".
Definition rookCephOperatorConfigName : string := "rook-ceph-operator-config".
Definition rookEnableCephFSCSIKey : string := "ROOK_CSI_ENABLE_CEPHFS".

(** A Go map read at a key: the zero value when the key is absent. *)
Definition mapIndex (m : gmap string string) (k : string) : string :=
  default "" (m !! k).

(** setRookCSICephFS function enables or disables the
    'ROOK_CSI_ENABLE_CEPHFS' key.  A ConfigMap without data has a nil map,
    and assigning into it panics. *)
Definition setRookCSICephFS (enableDisableFlag : bool) : M unit :=
  instance <- getInstance ;;
  rookCephOperatorConfig <-
    clientGet E (A:=ConfigMap) (om_Namespace (sc_Meta instance), rookCephOperatorConfigName) ;;
  let enableDisableFlagStr := if enableDisableFlag then "true" else "false" in
  if bool_decide (mapIndex (cm_Data rookCephOperatorConfig) rookEnableCephFSCSIKey
                  = enableDisableFlagStr)
  then ret tt
  else if bool_decide (cm_Data rookCephOperatorConfig = ∅)
  then panic "assignment to entry in nil map"
  else
    clientUpdate E
      (mkConfigMap (cm_Meta rookCephOperatorConfig)
         (<[rookEnableCephFSCSIKey := enableDisableFlagStr]> (cm_Data rookCephOperatorConfig))).

Definition checkRGWEndpoint (endpoint : string) : error + unit :=
  match DialTimeout E endpoint with
  | Some err => inl err
  | None => inr tt
  end.

Definition sha512sum (tobeHashed : string) : error + string :=
  match sha512WriteErr E tobeHashed with
  | Some err => inl err
  | None => inr (sha512Hex E tobeHashed)
  end.

(** retrieveSecret function retrieves the secret object with the specified name *)
Definition retrieveSecret (secretName : string) : M Secret :=
  instance <- getInstance ;;
  clientGet E (A:=Secret) (om_Namespace (sc_Meta instance), secretName).

Definition externalSecretDataChecksum : M string :=
  found <- retrieveSecret externalClusterDetailsSecret ;;
  liftE (sha512sum (mapIndex (sec_Data found) externalClusterDetailsKey)).

Definition sameExternalSecretData : M bool :=
  r <- attempt externalSecretDataChecksum ;;
  match r with
  | inl _ => ret false
  | inr extSecretChecksum =>
      instance <- getInstance ;;
      if bool_decide (st_ExternalSecretHash (sc_Status instance) = extSecretChecksum)
      then ret true
      else
        modifyStatus (fun st => withExternalSecretHash st extSecretChecksum) ;;;
        ret false
  end.

(** retrieveExternalSecretData function retrieves the external secret and
    returns the data it contains *)
Definition retrieveExternalSecretData : M (list ExternalResource) :=
  found <- retrieveSecret externalClusterDetailsSecret ;;
  liftE (jsonUnmarshal E (mapIndex (sec_Data found) externalClusterDetailsKey)).

Definition zeroPlacement : Placement := mkPlacement None [] None.
Definition zeroResources : ResourceRequirements := mkResourceRequirements ∅ ∅.

Definition newExternalGatewaySpec (rgwEndpoint : string) : error + GatewaySpec :=
  match SplitHostPort E rgwEndpoint with
  | inl err => inl err
  | inr (hostIP, portStr) =>
      if bool_decide (hostIP = "") then
        inl (Errorf "An empty rgw host 'IP' address found")
      else
        match ParseInt32 E portStr with
        | inl err => inl err
        | inr portInt64 => inr (mkGatewaySpec portInt64 0 zeroPlacement zeroResources [hostIP])
        end
  end.

(** newExternalCephObjectStoreInstances returns a set of CephObjectStores
    needed for external cluster mode; the nil slice is [[]]. *)
Definition newExternalCephObjectStoreInstances (initData : StorageCluster)
  (rgwEndpoint : string) : error + list CephObjectStore :=
  let rgwEndpoint := TrimSpace E rgwEndpoint in
  if bool_decide (rgwEndpoint = "") then inr []
  else
    match newExternalGatewaySpec rgwEndpoint with
    | inl err => inl err
    | inr gatewaySpec =>
        inr [ mkCephObjectStore
               (mkObjectMeta (generateNameForCephObjectStore R initData)
                  (om_Namespace (sc_Meta initData)) "" ∅ ∅ [] None)
               (mkObjectStoreSpec false (mkPoolSpec "" 0 0) (mkPoolSpec "" 0 0)
                  gatewaySpec false "60s") ]
    end.

(** createExternalStorageClusterConfigMap creates configmap for external cluster *)
Definition createExternalStorageClusterConfigMap (cm : ConfigMap) (objectKey : Key) : M unit :=
  r <- attempt (clientGet E (A:=ConfigMap) objectKey) ;;
  match r with
  | inl err => if IsNotFound err then clientCreate E cm else fail err
  | inr _ => ret tt
  end.

(** createExternalStorageClusterSecret creates secret for external cluster *)
Definition createExternalStorageClusterSecret (sec : Secret) (objectKey : Key) : M unit :=
  r <- attempt (clientGet E (A:=Secret) objectKey) ;;
  match r with
  | inl err => if IsNotFound err then clientCreate E sec else fail err
  | inr _ => ret tt
  end.

(** To check if endpoint is a VALID ip and is REACHABLE or not *)
Definition validateMonitoringEndpoint (monitoringIP monitoringPort : string)
  : error + unit :=
  match LookupIP E monitoringIP with
  | Some err => inl err
  | None =>
      let endpoint := JoinHostPort E monitoringIP monitoringPort in
      match DialTimeout E endpoint with
      | Some err => inl err
      | None => inr tt
      end
  end.

(** The variables the record loop of createExternalStorageClusterResources
    updates.  [availableSCs] holds pointers into [scs] (an index, or nil):
    writing through one changes the class every later record sees. *)
Record ExtLoop := mkExtLoop {
  scs : list StorageClass;
  availableSCs : list (option nat);
  enableRookCSICephFS : bool;
  extCephObjectStores : list CephObjectStore
}.

(** [for k, v := range d.Data { sc.Parameters[k] = v }] through the pointer
    [sc]; the loop body runs only for a non-empty [d.Data]. *)
Definition mergeParameters (st : ExtLoop) (sc : option nat) (data : gmap string string)
  : Res ExtLoop :=
  if bool_decide (data = ∅) then Ok st
  else
    match sc with
    | None => Panic "nil pointer dereference"
    | Some i =>
        match scs st !! i with
        | None => Panic "index out of range"
        | Some c =>
            match scl_Parameters c with
            | None => Panic "assignment to entry in nil map"
            | Some params =>
                Ok (mkExtLoop
                      (<[i := mkStorageClass (scl_Meta c) (scl_Provisioner c)
                                (scl_ReclaimPolicy c) (scl_AllowVolumeExpansion c)
                                (Some (data ∪ params))]> (scs st))
                      (availableSCs st) (enableRookCSICephFS st) (extCephObjectStores st))
            end
        end
    end.

(** [sc = scs[index]] *)
Definition indexSCs (st : ExtLoop) (index : nat) : Res (option nat) :=
  match scs st !! index with
  | Some _ => Ok (Some index)
  | None => Panic "index out of range"
  end.

(** [availableSCs[index] = sc] *)
Definition setAvailable (st : ExtLoop) (index : nat) (sc : option nat) : Res ExtLoop :=
  if bool_decide (index < length (availableSCs st))%nat then
    Ok (mkExtLoop (scs st) (<[index := sc]> (availableSCs st))
          (enableRookCSICephFS st) (extCephObjectStores st))
  else Panic "index out of range".

(** One iteration of the record loop. *)
Definition createExternalStorageClusterResources_iter (st : ExtLoop) (d : ExternalResource)
  : M ExtLoop :=
  instance <- getInstance ;;
  let ownerRef :=
    mkOwnerReference (sc_APIVersion instance) (sc_Kind instance)
      (om_Name (sc_Meta instance)) (om_UID (sc_Meta instance)) false in
  let objectMeta :=
    mkObjectMeta (er_Name d) (om_Namespace (sc_Meta instance)) "" ∅ ∅ [ownerRef] None in
  let objectKey := (om_Namespace (sc_Meta instance), er_Name d) in
  if bool_decide (er_Kind d = "CephCluster") then
    match er_Data d !! "MonitoringEndpoint" with
    | None =>
        fail (Errorf ("Monitoring Endpoint not present in the external cluster secret "
                        +:+ externalClusterDetailsSecret))
    | Some monitoringIP =>
        match er_Data d !! "MonitoringPort" with
        | None =>
            fail (Errorf ("Monitoring Port not present in the external cluster secret "
                            +:+ externalClusterDetailsSecret))
        | Some monitoringPort =>
            liftE (validateMonitoringEndpoint monitoringIP monitoringPort) ;;;
            (fun s => (Ok tt, setMonitoringIP s monitoringIP)) ;;;
            ret st
        end
    end
  else if bool_decide (er_Kind d = "ConfigMap") then
    createExternalStorageClusterConfigMap (mkConfigMap objectMeta (er_Data d)) objectKey ;;;
    ret st
  else if bool_decide (er_Kind d = "Secret") then
    createExternalStorageClusterSecret (mkSecret objectMeta (er_Data d)) objectKey ;;;
    ret st
  else if bool_decide (er_Kind d = "StorageClass") then
    if bool_decide (er_Name d = cephFsStorageClassName) then
      let index := cephFileSystemIndex R in
      sc <- lift (indexSCs st index) ;;
      let st := mkExtLoop (scs st) (availableSCs st) true (extCephObjectStores st) in
      st <- lift (mergeParameters st sc (er_Data d)) ;;
      lift (setAvailable st index sc)
    else if bool_decide (er_Name d = cephRbdStorageClassName) then
      let index := cephBlockPoolIndex R in
      sc <- lift (indexSCs st index) ;;
      st <- lift (mergeParameters st sc (er_Data d)) ;;
      lift (setAvailable st index sc)
    else if bool_decide (er_Name d = cephRgwStorageClassName) then
      let rgwEndpoint := mapIndex (er_Data d) externalCephRgwEndpointKey in
      liftE (checkRGWEndpoint rgwEndpoint) ;;;
      stores <- liftE (newExternalCephObjectStoreInstances instance rgwEndpoint) ;;
      let st := mkExtLoop (scs st) (availableSCs st) (enableRookCSICephFS st) stores in
      let data := delete externalCephRgwEndpointKey (er_Data d) in
      let index := cephObjectStoreIndex R in
      sc <- lift (indexSCs st index) ;;
      st <- lift (mergeParameters st sc data) ;;
      lift (setAvailable st index sc)
    else
      st <- lift (mergeParameters st None (er_Data d)) ;;
      lift (setAvailable st 0%nat None)
  else ret st.

Fixpoint createExternalStorageClusterResources_loop (st : ExtLoop)
  (data : list ExternalResource) : M ExtLoop :=
  match data with
  | [] => ret st
  | d :: rest =>
      st' <- createExternalStorageClusterResources_iter st d ;;
      createExternalStorageClusterResources_loop st' rest
  end.

(** createExternalStorageClusterResources creates external cluster resources *)
Definition createExternalStorageClusterResources : M unit :=
  instance <- getInstance ;;
  scs0 <- lift (newStorageClasses R instance) ;;
  data <- retrieveExternalSecretData ;;
  st <- createExternalStorageClusterResources_loop
          (mkExtLoop scs0 [None; None; None] false []) data ;;
  createStorageClasses_reqLogger R (map (fun p => i ← p; scs st !! i) (availableSCs st)) ;;;
  setRookCSICephFS (enableRookCSICephFS st) ;;;
  match extCephObjectStores st with
  | [] => ret tt
  | stores => createCephObjectStores_reqLogger R stores
  end.

(** ensureExternalStorageClusterResources ensures that requested resources
    for the external cluster being created *)
Definition ensureExternalStorageClusterResources : M unit :=
  same <- sameExternalSecretData ;;
  if same then ret tt
  else createExternalStorageClusterResources.

End Engine.

(** * Concrete worlds

    A fault-free environment, a reading of the repository's missing helpers
    that follows its tests (the cluster [ocsinit] has the classes
    [ocsinit-cephfs], [ocsinit-ceph-rbd] and [ocsinit-ceph-rgw]), and small
    stores, on which the definitions above are evaluated. *)

Module Fixture.

(** A world whose client never fails by itself, on the given platform, with
    the given answer of SetControllerReference and the given JSON decoder. *)
Definition world (platform : string) (schemeErr : option error)
  (decode : string -> error + list ExternalResource) : Env :=
  mkEnv (fun _ _ => None) 0 "ceph:v15" (fun _ _ => schemeErr) (fun _ => None)
    (inr platform) (fun _ => None) (fun b => "sha512:" +:+ b)
    decode (fun _ => None) (fun _ => None)
    (fun _ => inr ("10.0.0.1", "80")) (fun h p => h +:+ ":" +:+ p) (fun _ => inr 80)
    (fun s => s) None None.

Definition env : Env := world "BareMetal" None (fun _ => inr []).

(** The same world on a platform where object storage is avoided. *)
Definition envCloud : Env := world "AWS" None (fun _ => inr []).

Definition repo : Repo :=
  mkRepo
    (fun i => om_Name (sc_Meta i) +:+ "-cephobjectstore")
    (fun i => om_Name (sc_Meta i) +:+ "-cephblockpool")
    (fun i => om_Name (sc_Meta i) +:+ "-cephfilesystem")
    (fun i => om_Name (sc_Meta i) +:+ "-cephfs")
    (fun i suffix => om_Name (sc_Meta i) +:+ "-ceph-rbd" +:+ suffix)
    (fun i => om_Name (sc_Meta i) +:+ "-ceph-rgw")
    (fun _ _ => mkPlacement None [] None)
    (fun _ _ => mkResourceRequirements ∅ ∅)
    (map (fun d => mkStorageClassDeviceSet (sds_Name d) (sds_Count d) (sds_Resources d)
                     (sds_Placement d) (sds_Portable d) [sds_DataPVCTemplate d]))
    (fun cs _ _ => cs)
    (fun cs _ => cs)
    ["AWS"; "GCP"; "Azure"]
    (fun i => Ok [ mkStorageClass
                     (mkObjectMeta (om_Name (sc_Meta i) +:+ "-cephfs") "" "" ∅ ∅ [] None)
                     "cephfs.csi.ceph.com" (Some "Delete") None (Some ∅);
                   mkStorageClass
                     (mkObjectMeta (om_Name (sc_Meta i) +:+ "-ceph-rbd") "" "" ∅ ∅ [] None)
                     "rbd.csi.ceph.com" (Some "Delete") None (Some ∅);
                   mkStorageClass
                     (mkObjectMeta (om_Name (sc_Meta i) +:+ "-ceph-rgw") "" "" ∅ ∅ [] None)
                     "ceph.rook.io/bucket" (Some "Delete") None (Some ∅) ])
    (fun _ => ret tt)
    (fun _ => ret tt)
    0%nat 1%nat 2%nat.

Definition ns : string := "openshift-storage".
Definition request : Key := (ns, "ocsinit").

Definition policy (strategy : string) (disabled : bool) : ManagedResource :=
  mkManagedResource strategy disabled false.

Definition cluster (blockPools filesystems objectStores : ManagedResource) : StorageCluster :=
  mkStorageCluster "ocs.openshift.io/v1" "StorageCluster"
    (mkObjectMeta "ocsinit" ns "uid-1" ∅ ∅ [] None)
    (mkStorageClusterSpec false false ∅ [] None
       (mkManagedResourcesSpec blockPools filesystems objectStores))
    (mkStorageClusterStatus "" [] [] "" "").

(** Manage policy everywhere, external mode off. *)
Definition managed : StorageCluster :=
  cluster (policy "manage" false) (policy "manage" false) (policy "manage" false).

Definition stateOf (st : Store) (i : StorageCluster) : State :=
  mkState st [] i [] "" false.

(** A fresh cluster: the top-level object and nothing else. *)
Definition freshStore : Store :=
  setObjects (A:=StorageCluster) {[ request := managed ]} emptyStore.

(** A storage class as it may sit in the store. *)
Definition class (name : string) (deleted : option Z) (params : list (string * string))
  : StorageClass :=
  mkStorageClass (mkObjectMeta name "" "" ∅ ∅ [] deleted) "rbd.csi.ceph.com"
    (Some "Delete") None (Some (list_to_map params)).

Definition config (name strategy : string) (params : list (string * string))
  : StorageClassConfiguration :=
  mkStorageClassConfiguration (class name None params) strategy false.

Definition withClasses (cs : list StorageClass) (st : Store) : Store :=
  setObjects (A:=StorageClass) (list_to_map (map (fun c => (keyOf (scl_Meta c), c)) cs)) st.

(** The block class of [ocsinit]: what the engine wants, and two stale
    copies in the store, one of them marked for deletion. *)
Definition rbdName : string := "ocsinit-ceph-rbd".
Definition rbdKey : Key := ("", rbdName).
Definition rbdWanted (strategy : string) : StorageClassConfiguration :=
  config rbdName strategy [("pool", "ocsinit-cephblockpool"); ("imageFormat", "2")].
Definition rbdStale : StorageClass := class rbdName None [("pool", "old-pool")].
Definition rbdMarked : StorageClass := class rbdName (Some 7) [("pool", "old-pool")].

(** Pools and filesystems as the storage engine reports them. *)
Definition poolKey : Key := (ns, "ocsinit-cephblockpool").
Definition filesystemKey : Key := (ns, "ocsinit-cephfilesystem").
Definition pool (status : option string) : CephBlockPool :=
  mkCephBlockPool (mkObjectMeta "ocsinit-cephblockpool" ns "" ∅ ∅ [] None) status.
Definition filesystem (status : option string) : CephFilesystem :=
  mkCephFilesystem (mkObjectMeta "ocsinit-cephfilesystem" ns "" ∅ ∅ [] None) status.

(** The fresh cluster once the storage engine has a pool and a filesystem
    in the given states. *)
Definition withDependencies (p : option CephBlockPool) (f : option CephFilesystem)
  (st : Store) : Store :=
  setObjects (A:=CephFilesystem)
    (match f with Some x => {[ filesystemKey := x ]} | None => ∅ end)
    (setObjects (A:=CephBlockPool)
       (match p with Some x => {[ poolKey := x ]} | None => ∅ end) st).

(** The cluster whose block-pool storage class is disabled. *)
Definition blockClassDisabled : StorageCluster :=
  cluster (policy "manage" true) (policy "manage" false) (policy "manage" false).

(** Clusters whose block pools are ignored, and whose resources are all
    under Init. *)
Definition blockPoolsIgnored : StorageCluster :=
  cluster (policy "ignore" false) (policy "manage" false) (policy "manage" false).
Definition objectStoresIgnored : StorageCluster :=
  cluster (policy "manage" false) (policy "manage" false) (policy "ignore" false).
Definition allInit : StorageCluster :=
  cluster (policy "init" false) (policy "init" false) (policy "init" false).

(** The block class wanted under Init in two successive passes, the second
    with a changed parameter. *)
Definition rbdInitPasses : list (list StorageClassConfiguration) :=
  [ [ config rbdName "init" [("pool", "ocsinit-cephblockpool")] ];
    [ config rbdName "init" [("pool", "another-pool")] ] ].

(** [ocsinit] with one device set of [count] devices, and the CephCluster
    the engine made for it when the count was 1. *)
Definition deviceSet (count : Z) : StorageDeviceSet :=
  mkStorageDeviceSet count 3 false "ocs-deviceset" (mkResourceRequirements ∅ ∅)
    (mkPlacement None [] None) (mkPVC (Some "gp2") ∅).

Definition withDeviceSet (count : Z) : StorageCluster :=
  mkStorageCluster "ocs.openshift.io/v1" "StorageCluster"
    (mkObjectMeta "ocsinit" ns "uid-1" ∅ ∅ [] None)
    (mkStorageClusterSpec false false ∅ [deviceSet count] None
       (mkManagedResourcesSpec (policy "manage" false) (policy "manage" false)
          (policy "manage" false)))
    (mkStorageClusterStatus "" [] [] "" "").

Definition smallCephCluster : CephCluster :=
  newCephCluster repo (withDeviceSet 1) "ceph:v15".

Definition growing : State :=
  stateOf (setObjects (A:=CephCluster) {[ request := smallCephCluster ]} freshStore)
    (withDeviceSet 3).

(** A world whose scheme does not know the StorageCluster type:
    SetControllerReference fails. *)
Definition envNoScheme : Env :=
  world "BareMetal" (Some (Errorf "no kind is registered for the type StorageCluster"))
    (fun _ => inr []).

(** The cluster after its first pass: the initialization object exists. *)
Definition initializedStore : Store :=
  setObjects (A:=StorageClusterInitialization)
    {[ request := mkStorageClusterInitialization (mkObjectMeta "ocsinit" ns "" ∅ ∅ [] None) ]}
    freshStore.

(** The external-cluster secret with the given bytes under its details
    key, in the store of the initialized cluster. *)
Definition detailsSecret (bytes : string) : Secret :=
  mkSecret (mkObjectMeta externalClusterDetailsSecret ns "" ∅ ∅ [] None)
    {[ externalClusterDetailsKey := bytes ]}.

Definition externalStore (bytes : string) : Store :=
  setObjects (A:=Secret) {[ (ns, externalClusterDetailsSecret) := detailsSecret bytes ]}
    initializedStore.

(** The bytes of a secret whose JSON array holds a config map followed by a
    connection-info record without its monitoring endpoint, and the records
    json.Unmarshal reads from them. *)
Definition brokenDetails : string :=
  "[ConfigMap rook-ceph-mon-endpoints; CephCluster without MonitoringEndpoint]".

Definition brokenRecords : list ExternalResource :=
  [ mkExternalResource "ConfigMap" {[ "data" := "a=10.0.0.7:6789" ]}
      "rook-ceph-mon-endpoints";
    mkExternalResource "CephCluster" {[ "MonitoringPort" := "9283" ]}
      "monitoring-endpoint" ].

Definition envExternal : Env :=
  world "BareMetal" None
    (fun bytes => if decide (bytes = brokenDetails) then inr brokenRecords
                  else inl (Errorf "unexpected end of JSON input")).

(** The top-level object whose status carries the given checksum. *)
Definition withHash (h : string) : StorageCluster :=
  withStatus managed (withExternalSecretHash (sc_Status managed) h).

(** The object store of [ocsinit], marked for deletion. *)
Definition objectStoreKey : Key := (ns, "ocsinit-cephobjectstore").
Definition objectStoreMarked : CephObjectStore :=
  mkCephObjectStore (mkObjectMeta "ocsinit-cephobjectstore" ns "" ∅ ∅ [] (Some 7))
    (mkObjectStoreSpec false (mkPoolSpec "" 3 49) (mkPoolSpec "" 3 0)
       (mkGatewaySpec 80 1 (mkPlacement None [] None) (mkResourceRequirements ∅ ∅) [])
       false "").

End Fixture.

(** * Properties *)

(** ** The monad and the client *)

Definition ok (c : Call) : Event := mkEvent c None.

Lemma bind_Ok {A B} (m : M A) (f : A -> M B) s a s' :
  m s = (Ok a, s') -> bind m f s = f a s'.
Proof. intros H. unfold bind. by rewrite H. Qed.

Lemma bind_Err {A B} (m : M A) (f : A -> M B) s e s' :
  m s = (Err e, s') -> bind m f s = (Err e, s').
Proof. intros H. unfold bind. by rewrite H. Qed.

Lemma bind_Panic {A B} (m : M A) (f : A -> M B) s p s' :
  m s = (Panic p, s') -> bind m f s = (Panic p, s').
Proof. intros H. unfold bind. by rewrite H. Qed.

Lemma attempt_Ok {A} (m : M A) s a s' :
  m s = (Ok a, s') -> attempt m s = (Ok (inr a), s').
Proof. intros H. unfold attempt. by rewrite H. Qed.

Lemma attempt_Err {A} (m : M A) s e s' :
  m s = (Err e, s') -> attempt m s = (Ok (inl e), s').
Proof. intros H. unfold attempt. by rewrite H. Qed.

(** The loop of createStorageClasses over a list in two parts. *)
Lemma createStorageClasses_app E pre post s :
  createStorageClasses E (pre ++ post) s
  = bind (createStorageClasses E pre) (fun _ => createStorageClasses E post) s.
Proof.
  revert s. induction pre as [|scc pre IH]; intros s; simpl.
  - reflexivity.
  - unfold bind in *.
    destruct (createStorageClasses_iter E scc s) as [[[]| |] s1]; try reflexivity.
    apply IH.
Qed.

Lemma createStorageClasses_app_Ok E pre post s s1 :
  createStorageClasses E pre s = (Ok tt, s1) ->
  createStorageClasses E (pre ++ post) s = createStorageClasses E post s1.
Proof. intros H. rewrite createStorageClasses_app. by rewrite (bind_Ok _ _ _ _ _ H). Qed.

(** Every object of the store sits under the key its own metadata spells,
    as on an API server. *)
Definition wellKeyed `{Resource A} (st : Store) : Prop :=
  forall k (o : A), objects st !! k = Some o -> keyOf (metaOf o) = k.

(** The client never fails by itself: each call reaches the store. *)
Definition faultFree (E : Env) : Prop :=
  forall n c, clientFault E n c = None.

(** From the [n]-th call on, the client does not fail by itself. *)
Definition faultFreeFrom (E : Env) (n : nat) : Prop :=
  forall m c, (n <= m)%nat -> clientFault E m c = None.

Lemma faultFree_from E n : faultFree E -> faultFreeFrom E n.
Proof. intros H m c _. apply H. Qed.

(** The events a computation appended to the trace. *)
Definition issued (s s' : State) : list Event :=
  drop (length (trace s)) (trace s').

Lemma issued_app s s' evs : trace s' = trace s ++ evs -> issued s s' = evs.
Proof. intros H. unfold issued. rewrite H. by rewrite drop_app_length. Qed.

(** Two parameter maps that answer differently at one key differ. *)
Lemma parameters_differ_at (a b : GoMap) (k : string) :
  (a ≫= (fun m => m !! k)) <> (b ≫= (fun m => m !! k)) -> a <> b.
Proof. intros Hk Heq. apply Hk. by rewrite Heq. Qed.

(** ** Recreate-on-drift (C3) *)

Section RecreateOnDrift.
Context (E : Env).

(** An iteration of createStorageClasses issues calls on storage classes
    only, and never an Update. *)
Lemma createStorageClasses_iter_calls scc s :
  exists evs,
    trace (createStorageClasses_iter E scc s).2 = trace s ++ evs /\
    Forall (fun ev => kind (ev_call ev) = KStorageClass
                      /\ verb (ev_call ev) ∈ [Get; Create; Delete]) evs.
Proof.
  unfold createStorageClasses_iter.
  destruct (bool_decide _ || disable scc); [exists []; split; [by rewrite app_nil_r|constructor]|].
  unfold bind, attempt, clientGet, clientCreate, clientDelete, ret, fail, logEvent, setStore; simpl.
  repeat (case_match; simplify_eq/=);
    rewrite <- ?app_assoc; simpl;
    eexists; (split; [reflexivity|]);
    repeat constructor; set_solver.
Qed.

Lemma createStorageClasses_calls sccs s :
  exists evs,
    trace (createStorageClasses E sccs s).2 = trace s ++ evs /\
    Forall (fun ev => kind (ev_call ev) = KStorageClass
                      /\ verb (ev_call ev) ∈ [Get; Create; Delete]) evs.
Proof.
  revert s. induction sccs as [|scc sccs IH]; intros s; simpl.
  - exists []. split; [by rewrite app_nil_r|constructor].
  - destruct (createStorageClasses_iter_calls scc s) as (evs1 & Ht1 & Hf1).
    unfold bind.
    destruct (createStorageClasses_iter E scc s) as [[[]| |] s1]; simpl in *;
      try (exists evs1; by split).
    destruct (IH s1) as (evs2 & Ht2 & Hf2).
    exists (evs1 ++ evs2). split.
    + rewrite Ht2, Ht1. by rewrite app_assoc.
    + by apply Forall_app.
Qed.

(** C3, as amended: a storage class under the Manage strategy (neither
    Ignore nor Init, not disabled) that exists, is not marked for deletion
    and whose parameter map differs from the desired one is, when the loop
    of createStorageClasses reaches it and the client's calls succeed,
    deleted once and then created once from the desired class: the calls of
    its iteration are exactly Get, Delete, Create.  No call of
    createStorageClasses is ever an Update. *)
Theorem createStorageClasses_recreates_on_drift
  (pre post : list StorageClassConfiguration) (scc : StorageClassConfiguration)
  (existing : StorageClass) (s s1 : State) :
  let k := keyOf (scl_Meta (storageClass scc)) in
  createStorageClasses E pre s = (Ok tt, s1) ->
  faultFreeFrom E (length (trace s1)) ->
  reconcileStrategy scc <> ReconcileStrategyIgnore ->
  reconcileStrategy scc <> ReconcileStrategyInit ->
  disable scc = false ->
  storageClasses (store s1) !! k = Some existing ->
  keyOf (scl_Meta existing) = k ->
  om_DeletionTimestamp (scl_Meta existing) = None ->
  scl_Parameters (storageClass scc) <> scl_Parameters existing ->
  exists s2,
    createStorageClasses_iter E scc s1 = (Ok tt, s2) /\
    issued s1 s2 = [ ok (mkCall Get KStorageClass k);
                     ok (mkCall Delete KStorageClass k);
                     ok (mkCall Create KStorageClass k) ] /\
    storageClasses (store s2) !! k = Some (storageClass scc) /\
    createStorageClasses E (pre ++ scc :: post) s = createStorageClasses E post s2 /\
    Forall (fun ev => verb (ev_call ev) <> Update)
      (issued s (createStorageClasses E (pre ++ scc :: post) s).2).
Proof.
  intros k Hpre Hff Hign Hinit Hdis Hex Hkey Hdel Hdrift.
  assert (Hiter : exists s2,
    createStorageClasses_iter E scc s1 = (Ok tt, s2) /\
    trace s2 = trace s1 ++ [ ok (mkCall Get KStorageClass k);
                             ok (mkCall Delete KStorageClass k);
                             ok (mkCall Create KStorageClass k) ] /\
    storageClasses (store s2) !! k = Some (storageClass scc)).
  { unfold createStorageClasses_iter.
    rewrite bool_decide_eq_false_2 by done. rewrite Hdis. simpl.
    unfold bind, attempt, clientGet. simpl. fold k.
    rewrite Hff by lia. rewrite Hex. simpl.
    rewrite bool_decide_eq_false_2 by done. rewrite Hdel.
    rewrite bool_decide_eq_false_2 by done.
    unfold clientDelete, clientCreate. simpl. rewrite Hkey. fold k.
    rewrite Hff by (rewrite length_app; simpl; lia).
    rewrite Hex. simpl.
    rewrite Hff by (rewrite !length_app; simpl; lia).
    rewrite lookup_delete_eq. simpl.
    eexists. split; [reflexivity|]. simpl. split.
    - rewrite <- !app_assoc. reflexivity.
    - by rewrite lookup_insert_eq. }
  destruct Hiter as (s2 & Hrun & Htr & Hst).
  exists s2. split; [done|]. split; [by apply issued_app|]. split; [done|].
  assert (Hwhole : createStorageClasses E (pre ++ scc :: post) s
                   = createStorageClasses E post s2).
  { rewrite (createStorageClasses_app_Ok _ _ _ _ _ Hpre). simpl.
    by rewrite (bind_Ok _ _ _ _ _ Hrun). }
  split; [done|].
  destruct (createStorageClasses_calls (pre ++ scc :: post) s) as (evs & Hevs & Hall).
  rewrite (issued_app _ _ _ Hevs).
  eapply Forall_impl; [exact Hall|].
  intros ev [_ Hv] Hu. rewrite Hu in Hv.
  repeat (apply elem_of_cons in Hv as [Hv|Hv]; [discriminate|]).
  by apply elem_of_nil in Hv.
Qed.

End RecreateOnDrift.

Lemma createStorageClasses_recreates_on_drift_witness :
  exists s2,
    createStorageClasses_iter Fixture.env (Fixture.rbdWanted "manage")
      (Fixture.stateOf (Fixture.withClasses [Fixture.rbdStale] emptyStore) Fixture.managed)
    = (Ok tt, s2) /\
    storageClasses (store s2) !! Fixture.rbdKey
    = Some (storageClass (Fixture.rbdWanted "manage")).
Proof.
  destruct (createStorageClasses_recreates_on_drift Fixture.env [] []
              (Fixture.rbdWanted "manage") Fixture.rbdStale
              (Fixture.stateOf (Fixture.withClasses [Fixture.rbdStale] emptyStore) Fixture.managed)
              (Fixture.stateOf (Fixture.withClasses [Fixture.rbdStale] emptyStore) Fixture.managed))
    as (s2 & Hrun & _ & Hst & _).
  - reflexivity.
  - intros m c _. reflexivity.
  - discriminate.
  - discriminate.
  - reflexivity.
  - vm_compute. reflexivity.
  - reflexivity.
  - reflexivity.
  - apply (parameters_differ_at _ _ "pool"). vm_compute. discriminate.
  - exists s2. split; [exact Hrun | exact Hst].
Defined.

(** C3 fails as stated: a Manage class that exists with drifted parameters
    but is marked for deletion is neither deleted nor created; the only call
    is the Get and the pass returns an error. *)
Lemma createStorageClasses_marked_class_not_recreated :
  let scc := Fixture.rbdWanted "manage" in
  let s := Fixture.stateOf (Fixture.withClasses [Fixture.rbdMarked] emptyStore)
             Fixture.managed in
  let r := createStorageClasses Fixture.env [scc] s in
  reconcileStrategy scc = ReconcileStrategyManage /\
  storageClasses (store s) !! Fixture.rbdKey = Some Fixture.rbdMarked /\
  scl_Parameters (storageClass scc) <> scl_Parameters Fixture.rbdMarked /\
  r.1 = Err (Errorf "failed to restore StorageClass  ocsinit-ceph-rbd because it is marked for deletion") /\
  issued s r.2 = [ mkEvent (mkCall Get KStorageClass Fixture.rbdKey) None ] /\
  store r.2 = store s.
Proof.
  repeat split; try (vm_compute; reflexivity).
  apply (parameters_differ_at _ _ "pool"). vm_compute. discriminate.
Qed.

(** ** Objects marked for deletion (C10) *)

Section MarkedForDeletion.
Context (E : Env).

(** C10, as amended: under the Manage strategy (neither Ignore nor Init,
    class not disabled), an existing storage class that is marked for
    deletion, drifted or not, makes createStorageClasses fail when its loop
    reaches the class: the only call is the Get, nothing is updated, deleted
    or recreated, and the store is left as it was.  An existing object store
    marked for deletion makes createCephObjectStores fail in the same way
    unless the strategy is Init. *)
Theorem marked_for_deletion_fails_the_pass
  (pre post : list StorageClassConfiguration) (scc : StorageClassConfiguration)
  (existing : StorageClass) (cephObjectStore : CephObjectStore)
  (rest : list CephObjectStore) (found : CephObjectStore)
  (t : Z) (s s1 : State) :
  let k := keyOf (scl_Meta (storageClass scc)) in
  let ko := keyOf (cos_Meta cephObjectStore) in
  (createStorageClasses E pre s = (Ok tt, s1) ->
   clientFault E (length (trace s1)) (mkCall Get KStorageClass k) = None ->
   reconcileStrategy scc <> ReconcileStrategyIgnore ->
   reconcileStrategy scc <> ReconcileStrategyInit ->
   disable scc = false ->
   storageClasses (store s1) !! k = Some existing ->
   om_DeletionTimestamp (scl_Meta existing) = Some t ->
   exists e s2,
     createStorageClasses E (pre ++ scc :: post) s = (Err e, s2) /\
     issued s1 s2 = [ ok (mkCall Get KStorageClass k) ] /\
     store s2 = store s1)
  /\
  (clientFault E (length (trace s)) (mkCall Get KCephObjectStore ko) = None ->
   mr_ReconcileStrategy (CephObjectStores (spec_ManagedResources (sc_Spec (instance s))))
     <> ReconcileStrategyInit ->
   cephObjectStores (store s) !! ko = Some found ->
   om_DeletionTimestamp (cos_Meta found) = Some t ->
   exists e s2,
     createCephObjectStores E (cephObjectStore :: rest) s = (Err e, s2) /\
     issued s s2 = [ ok (mkCall Get KCephObjectStore ko) ] /\
     store s2 = store s).
Proof.
  intros k ko. split.
  - intros Hpre Hff Hign Hinit Hdis Hex Hdel.
    rewrite (createStorageClasses_app_Ok _ _ _ _ _ Hpre). simpl.
    unfold createStorageClasses_iter.
    rewrite bool_decide_eq_false_2 by done. rewrite Hdis. simpl.
    unfold bind, attempt, clientGet. simpl. fold k.
    rewrite Hff, Hex. simpl.
    rewrite bool_decide_eq_false_2 by done. rewrite Hdel. simpl.
    eexists _, _. split; [reflexivity|]. split; [|reflexivity].
    by apply issued_app.
  - intros Hff Hinit Hex Hdel. simpl.
    unfold createCephObjectStores_iter, bind, attempt, getInstance, clientGet. simpl.
    fold ko. rewrite Hff, Hex. simpl.
    rewrite bool_decide_eq_false_2 by done. rewrite Hdel. simpl.
    eexists _, _. split; [reflexivity|]. split; [|reflexivity].
    by apply issued_app.
Qed.

End MarkedForDeletion.

Lemma marked_for_deletion_fails_the_pass_witness :
  (exists e s2,
     createStorageClasses Fixture.env [Fixture.rbdWanted "manage"]
       (Fixture.stateOf (Fixture.withClasses [Fixture.rbdMarked] emptyStore) Fixture.managed)
     = (Err e, s2)) /\
  (exists e s2,
     createCephObjectStores Fixture.env [Fixture.objectStoreMarked]
       (Fixture.stateOf
          (setObjects (A:=CephObjectStore)
             {[ Fixture.objectStoreKey := Fixture.objectStoreMarked ]} emptyStore)
          Fixture.managed)
     = (Err e, s2)).
Proof.
  pose proof (marked_for_deletion_fails_the_pass Fixture.env [] []
                (Fixture.rbdWanted "manage") Fixture.rbdMarked
                Fixture.objectStoreMarked [] Fixture.objectStoreMarked 7
                (Fixture.stateOf (Fixture.withClasses [Fixture.rbdMarked] emptyStore)
                   Fixture.managed)
                (Fixture.stateOf (Fixture.withClasses [Fixture.rbdMarked] emptyStore)
                   Fixture.managed)) as [Hsc _].
  pose proof (marked_for_deletion_fails_the_pass Fixture.env [] []
                (Fixture.rbdWanted "manage") Fixture.rbdMarked
                Fixture.objectStoreMarked [] Fixture.objectStoreMarked 7
                (Fixture.stateOf
                   (setObjects (A:=CephObjectStore)
                      {[ Fixture.objectStoreKey := Fixture.objectStoreMarked ]} emptyStore)
                   Fixture.managed)
                (Fixture.stateOf (Fixture.withClasses [Fixture.rbdMarked] emptyStore)
                   Fixture.managed)) as [_ Hos].
  split.
  - destruct Hsc as (e & s2 & Hrun & _).
    + reflexivity.
    + reflexivity.
    + discriminate.
    + discriminate.
    + reflexivity.
    + vm_compute. reflexivity.
    + reflexivity.
    + exists e, s2. exact Hrun.
  - destruct Hos as (e & s2 & Hrun & _).
    + reflexivity.
    + discriminate.
    + vm_compute. reflexivity.
    + reflexivity.
    + exists e, s2. exact Hrun.
Defined.

(** C10 fails as stated: under the Init strategy an existing class that is
    marked for deletion and has drifted parameters does not fail the pass;
    createStorageClasses leaves it alone and returns nil. *)
Lemma createStorageClasses_init_ignores_marked_class :
  let scc := Fixture.rbdWanted "init" in
  let s := Fixture.stateOf (Fixture.withClasses [Fixture.rbdMarked] emptyStore)
             Fixture.managed in
  let r := createStorageClasses Fixture.env [scc] s in
  storageClasses (store s) !! Fixture.rbdKey = Some Fixture.rbdMarked /\
  om_DeletionTimestamp (scl_Meta Fixture.rbdMarked) = Some 7 /\
  scl_Parameters (storageClass scc) <> scl_Parameters Fixture.rbdMarked /\
  r.1 = Ok tt /\
  issued s r.2 = [ mkEvent (mkCall Get KStorageClass Fixture.rbdKey) None ].
Proof.
  repeat split; try (vm_compute; reflexivity).
  apply (parameters_differ_at _ _ "pool"). vm_compute. discriminate.
Qed.

(** ** The dependency gate of the storage classes (C5) *)

Section DependencyGate.
Context (E : Env) (R : Repo).

(** What a Get issued as the [n]-th call of the trace hands back: nothing
    when the client fails or the object is absent. *)
Definition fetched `{Resource A} (s : State) (n : nat) (k : Key) : option A :=
  match clientFault E n (mkCall Get (kindOf (A:=A)) k) with
  | Some _ => None
  | None => objects (store s) !! k
  end.

(** The gates, as ensureCreated guards them. *)
Definition blockPoolGate (i : StorageCluster) : bool :=
  negb (mr_DisableStorageClass (CephBlockPools (spec_ManagedResources (sc_Spec i)))).

Definition filesystemGate (i : StorageCluster) : bool :=
  negb (mr_DisableStorageClass (CephFilesystems (spec_ManagedResources (sc_Spec i)))).

Definition blockPoolReady (o : option CephBlockPool) : Prop :=
  exists p, o = Some p /\ cbp_Status p = Some PhaseReady.

Definition filesystemReady (o : option CephFilesystem) : Prop :=
  exists f, o = Some f /\ cfs_Status f = Some PhaseReady.

Lemma newStorageClassConfigurations_inr i :
  exists sccs, newStorageClassConfigurations E R i = inr sccs.
Proof.
  unfold newStorageClassConfigurations.
  destruct PlatformsShouldAvoidObjectStore; simpl;
    destruct (spec_ExternalStorageEnable (sc_Spec i) || _); eauto.
Qed.

(** Closes one case of a gate: the store and the single Get are read off,
    readiness is decided from the equations of the case. *)
Ltac gate_case :=
  split; [reflexivity|];
  split; [eexists; reflexivity|];
  first [ left; split; [eexists; split; [reflexivity|assumption] | reflexivity]
        | right; split;
          [ intros (? & ? & ?); simplify_eq
          | unfold fail; eexists; reflexivity ] ].

(** A gate either lets the pass through or ends it with an error; its only
    call is the Get of its dependency, and the store is left alone. *)
Lemma waitForCephBlockPool_spec i s :
  let k := (om_Namespace (sc_Meta i), generateNameForCephBlockPool R i) in
  let r := waitForCephBlockPool E R i s in
  store r.2 = store s /\
  (exists o, trace r.2 = trace s ++ [mkEvent (mkCall Get KCephBlockPool k) o]) /\
  ((blockPoolReady (fetched s (length (trace s)) k) /\ r.1 = Ok tt) \/
   (~ blockPoolReady (fetched s (length (trace s)) k) /\ exists e, r.1 = Err e)).
Proof.
  intros k r. subst r. unfold waitForCephBlockPool, fetched, blockPoolReady.
  fold k. unfold bind, clientGet. simpl.
  destruct (clientFault E (length (trace s)) (mkCall Get KCephBlockPool k)) as [e|] eqn:Hf;
    simpl; [gate_case|].
  destruct (cephBlockPools (store s) !! k) as [p|] eqn:Hp; simpl; [|gate_case].
  destruct (cbp_Status p) as [ph|] eqn:Hs; simpl; [|gate_case].
  case_bool_decide as Hph; simpl; [subst ph|]; gate_case.
Qed.

Lemma waitForCephFilesystem_spec i s :
  let k := (om_Namespace (sc_Meta i), generateNameForCephFilesystem R i) in
  let r := waitForCephFilesystem E R i s in
  store r.2 = store s /\
  (exists o, trace r.2 = trace s ++ [mkEvent (mkCall Get KCephFilesystem k) o]) /\
  ((filesystemReady (fetched s (length (trace s)) k) /\ r.1 = Ok tt) \/
   (~ filesystemReady (fetched s (length (trace s)) k) /\ exists e, r.1 = Err e)).
Proof.
  intros k r. subst r. unfold waitForCephFilesystem, fetched, filesystemReady.
  fold k. unfold bind, clientGet. simpl.
  destruct (clientFault E (length (trace s)) (mkCall Get KCephFilesystem k)) as [e|] eqn:Hf;
    simpl; [gate_case|].
  destruct (cephFilesystems (store s) !! k) as [p|] eqn:Hp; simpl; [|gate_case].
  destruct (cfs_Status p) as [ph|] eqn:Hs; simpl; [|gate_case].
  case_bool_decide as Hph; simpl; [subst ph|]; gate_case.
Qed.

Lemma fetched_store `{Resource A} (s s' : State) n k :
  store s' = store s -> fetched (A:=A) s' n k = fetched s n k.
Proof. intros Hs. unfold fetched. by rewrite Hs. Qed.

(** C5, as amended: when the gate of the block pool is on (the block-pool
    storage class is not disabled) and the pool cannot be fetched, has a nil
    status or reports a phase other than Ready, or when the same holds of
    the filesystem and its gate, ensureCreated returns an error; it has then
    issued no call other than the Gets of the two dependencies, and the
    store, all storage classes included, is unchanged. *)
Theorem ensureCreated_dependency_gate (s : State) :
  let i := instance s in
  let n := length (trace s) in
  let kp := (om_Namespace (sc_Meta i), generateNameForCephBlockPool R i) in
  let kf := (om_Namespace (sc_Meta i), generateNameForCephFilesystem R i) in
  (blockPoolGate i = true /\ ~ blockPoolReady (fetched s n kp)) \/
  (filesystemGate i = true /\
   ~ filesystemReady (fetched s (if blockPoolGate i then S n else n) kf)) ->
  let r := ensureCreated E R s in
  (exists e, r.1 = Err e) /\
  store r.2 = store s /\
  Forall (fun ev => verb (ev_call ev) = Get
                    /\ kind (ev_call ev) ∈ [KCephBlockPool; KCephFilesystem])
    (issued s r.2).
Proof.
  intros i n kp kf Hnot r. subst r.
  unfold ensureCreated, bind, getInstance. simpl. fold i.
  destruct (newStorageClassConfigurations_inr i) as (sccs & ->). simpl.
  fold (blockPoolGate i) (filesystemGate i).
  pose proof (waitForCephBlockPool_spec i s) as Hp.
  simpl in Hp. fold kp n in Hp.
  destruct (blockPoolGate i) eqn:Hbg.
  - destruct Hp as (Hst1 & (o1 & Htr1) & Hp).
    destruct (waitForCephBlockPool E R i s) as [r1 s1]. simpl in *.
    destruct Hp as [[Hready ->] | [Hnr (e & ->)]].
    + (* the pool is ready: the filesystem gate decides *)
      destruct Hnot as [[_ Hn] | [Hfg Hn]]; [contradiction|].
      rewrite Hfg.
      pose proof (waitForCephFilesystem_spec i s1) as Hf.
      simpl in Hf. fold kf in Hf.
      destruct Hf as (Hst2 & (o2 & Htr2) & Hf).
      rewrite Htr1 in Hf. rewrite length_app in Hf. simpl in Hf.
      replace (length (trace s) + 1)%nat with (S n) in Hf by (unfold n; lia).
      rewrite (fetched_store s s1) in Hf by done.
      destruct (waitForCephFilesystem E R i s1) as [r2 s2]. simpl in *.
      destruct Hf as [[Hready2 _] | [_ (e & ->)]]; [contradiction|]. simpl.
      split; [eauto|]. split; [congruence|].
      rewrite (issued_app s s2 [mkEvent (mkCall Get KCephBlockPool kp) o1;
                                mkEvent (mkCall Get KCephFilesystem kf) o2]).
      * repeat constructor; simpl; set_solver.
      * rewrite Htr2, Htr1, <- app_assoc. reflexivity.
    + simpl. split; [eauto|]. split; [done|].
      rewrite (issued_app _ _ _ Htr1). repeat constructor; simpl; set_solver.
  - destruct Hnot as [[Hc _] | [Hfg Hn]]; [discriminate|].
    simpl. rewrite Hfg.
    pose proof (waitForCephFilesystem_spec i s) as Hf.
    simpl in Hf. fold kf n in Hf.
    destruct Hf as (Hst2 & (o2 & Htr2) & Hf).
    destruct (waitForCephFilesystem E R i s) as [r2 s2]. simpl in *.
    destruct Hf as [[Hready2 _] | [_ (e & ->)]]; [contradiction|]. simpl.
    split; [eauto|]. split; [done|].
    rewrite (issued_app _ _ _ Htr2). repeat constructor; simpl; set_solver.
Qed.

End DependencyGate.

Lemma ensureCreated_dependency_gate_witness :
  let s := Fixture.stateOf
             (Fixture.withDependencies (Some (Fixture.pool (Some "Progressing")))
                (Some (Fixture.filesystem (Some "Ready"))) Fixture.freshStore)
             Fixture.managed in
  (exists e, (ensureCreated Fixture.env Fixture.repo s).1 = Err e) /\
  store (ensureCreated Fixture.env Fixture.repo s).2 = store s.
Proof.
  intros s.
  destruct (ensureCreated_dependency_gate Fixture.env Fixture.repo s) as (He & Hst & _).
  - left. split; [reflexivity|].
    intros (p & Hp & Hph). vm_compute in Hp.
    injection Hp as <-. vm_compute in Hph. discriminate.
  - split; [exact He | exact Hst].
Defined.

(** C5 fails as stated: with the block-pool storage class disabled the gate
    of the pool is skipped, so a pool that cannot be fetched does not stop
    ensureCreated: it returns nil and creates the remaining classes. *)
Lemma ensureCreated_skips_gate_of_disabled_class :
  let s := Fixture.stateOf
             (Fixture.withDependencies None (Some (Fixture.filesystem (Some "Ready")))
                Fixture.freshStore)
             Fixture.blockClassDisabled in
  let r := ensureCreated Fixture.env Fixture.repo s in
  cephBlockPools (store s) !! Fixture.poolKey = None /\
  r.1 = Ok tt /\
  map (fun ev => (verb (ev_call ev), kind (ev_call ev), key (ev_call ev))) (issued s r.2)
  = [ (Get, KCephFilesystem, Fixture.filesystemKey);
      (Get, KStorageClass, ("", "ocsinit-cephfs"));
      (Create, KStorageClass, ("", "ocsinit-cephfs"));
      (Get, KStorageClass, ("", "ocsinit-ceph-rgw"));
      (Create, KStorageClass, ("", "ocsinit-ceph-rgw")) ] /\
  storageClasses (store s) !! ("", "ocsinit-cephfs") = None /\
  is_Some (storageClasses (store r.2) !! ("", "ocsinit-cephfs")).
Proof.
  repeat split; try (vm_compute; reflexivity).
  vm_compute. eexists. reflexivity.
Qed.

(** ** Ignore and Init (C6) *)

(** A sequence of passes of the storage-class manager, each with the
    configurations computed for it (the desired classes may change from pass
    to pass); an error ends a pass, not the sequence. *)
Fixpoint storageClassPasses (E : Env) (passes : list (list StorageClassConfiguration))
  : M unit :=
  match passes with
  | [] => ret tt
  | sccs :: rest =>
      _ <- attempt (createStorageClasses E sccs) ;;
      storageClassPasses E rest
  end.

(** A sequence of passes of the object-store ensurer, each on the top-level
    object as it is fetched for that pass. *)
Fixpoint objectStorePasses (E : Env) (R : Repo) (instances : list StorageCluster)
  : M unit :=
  match instances with
  | [] => ret tt
  | i :: rest =>
      putInstance i ;;;
      _ <- attempt (ensureCephObjectStores E R) ;;
      objectStorePasses E R rest
  end.

(** The event of a call, of kind [kd] on key [k]. *)
Definition onObject (kd : Kind) (k : Key) (ev : Event) : Prop :=
  kind (ev_call ev) = kd /\ key (ev_call ev) = k.

(** How many creations of the object succeeded among the events. *)
Definition creations (kd : Kind) (k : Key) (evs : list Event) : nat :=
  length (filter (fun ev => ev = ok (mkCall Create kd k)) evs).

Lemma creations_app kd k evs1 evs2 :
  creations kd k (evs1 ++ evs2) = (creations kd k evs1 + creations kd k evs2)%nat.
Proof. unfold creations. by rewrite filter_app, length_app. Qed.

Lemma creations_other kd k evs :
  Forall (fun ev => ~ onObject kd k ev) evs -> creations kd k evs = 0%nat.
Proof.
  unfold creations. induction 1 as [|ev evs Hev _ IH]; [done|].
  rewrite filter_cons. case_decide as Heq; [|done].
  subst ev. exfalso. apply Hev. by split.
Qed.

Section Framing.
Context (Inv : State -> Prop) (Rel : State -> State -> list Event -> Prop).

(** A computation keeps the invariant and relates the state it starts in
    to the one it ends in, through the events it issues. *)
Definition respects {A} (m : M A) : Prop :=
  forall s, Inv s ->
    Inv (m s).2 /\ exists evs, trace (m s).2 = trace s ++ evs /\ Rel s (m s).2 evs.

Hypothesis Rel_refl : forall s, Rel s s [].
Hypothesis Rel_trans : forall s1 s2 s3 e1 e2,
  Rel s1 s2 e1 -> Rel s2 s3 e2 -> Rel s1 s3 (e1 ++ e2).

Lemma respects_ret {A} (a : A) : respects (ret a).
Proof. intros s Hs. split; [done|]. exists []. split; [by rewrite app_nil_r|done]. Qed.

Lemma respects_bind {A B} (m : M A) (f : A -> M B) :
  respects m -> (forall a, respects (f a)) -> respects (bind m f).
Proof.
  intros Hm Hf s Hs. destruct (Hm s Hs) as (Hi & evs1 & Ht1 & Hr1).
  unfold bind. destruct (m s) as [[a|e|p] s1]; simpl in *;
    try (split; [done|]; exists evs1; by split).
  destruct (Hf a s1 Hi) as (Hi2 & evs2 & Ht2 & Hr2).
  split; [done|]. exists (evs1 ++ evs2). split.
  - rewrite Ht2, Ht1. by rewrite app_assoc.
  - by eapply Rel_trans.
Qed.

Lemma respects_attempt {A} (m : M A) : respects m -> respects (attempt m).
Proof.
  intros Hm s Hs. destruct (Hm s Hs) as (Hi & evs1 & Ht1 & Hr1).
  unfold attempt. destruct (m s) as [[a|e|p] s1]; simpl in *;
    (split; [done|]; exists evs1; by split).
Qed.

End Framing.

Section StrategiesOfClasses.
Context (E : Env).

Abbreviation classKey scc := (keyOf (scl_Meta (storageClass scc))).

(** What an iteration of createStorageClasses may touch: the class of its
    configuration and nothing else. *)
Lemma createStorageClasses_iter_footprint scc s :
  wellKeyed (A:=StorageClass) (store s) ->
  let s' := (createStorageClasses_iter E scc s).2 in
  wellKeyed (A:=StorageClass) (store s') /\
  (forall k, k <> classKey scc ->
     storageClasses (store s') !! k = storageClasses (store s) !! k) /\
  exists evs, trace s' = trace s ++ evs /\
              Forall (onObject KStorageClass (classKey scc)) evs.
Proof.
  intros Hwk. unfold createStorageClasses_iter.
  destruct (bool_decide _ || disable scc).
  { simpl. split; [done|]. split; [done|]. exists []. by rewrite app_nil_r. }
  unfold bind, attempt, clientGet, clientCreate, clientDelete, ret, fail. simpl.
  set (k0 := classKey scc).
  repeat (case_match; simplify_eq/=);
    try match goal with
    | H : storageClasses (store s) !! k0 = Some ?o |- _ =>
        let Hk := fresh "Hk" in
        pose proof (Hwk _ _ H) as Hk; simpl in Hk; rewrite ?Hk in *
    end;
    (split;
     [ first [ assumption
             | let k := fresh "k" in let o := fresh "o" in let Ho := fresh "Ho" in
               intros k o Ho; simpl in Ho;
               repeat first
                 [ apply lookup_insert_Some in Ho as [[<- <-]|[_ Ho]]; [reflexivity|]
                 | apply lookup_delete_Some in Ho as [_ Ho] ];
               by apply Hwk ] |]);
    (split; [intros k Hk'; simpl;
             rewrite ?lookup_insert_ne, ?lookup_delete_ne by congruence; congruence|]);
    rewrite <- ?app_assoc; simpl;
    eexists; (split; [reflexivity|]);
    repeat constructor; simpl; congruence.
Qed.

(** The store keeps every storage class under its own key. *)
Definition classesWellKeyed (s : State) : Prop :=
  wellKeyed (A:=StorageClass) (store s).

(** Nothing was asked about the class under [k], and it is as it was. *)
Definition classUntouched (k : Key) (s s' : State) (evs : list Event) : Prop :=
  Forall (fun ev => ~ onObject KStorageClass k ev) evs /\
  storageClasses (store s') !! k = storageClasses (store s) !! k.

(** The class under [k] was only read or created, and created at most once:
    either no creation succeeded and the class is as it was, or one did, the
    class was absent before and is present now. *)
Definition classOnlyCreated (k : Key) (s s' : State) (evs : list Event) : Prop :=
  Forall (fun ev => onObject KStorageClass k ev -> verb (ev_call ev) ∈ [Get; Create]) evs /\
  ((creations KStorageClass k evs = 0%nat /\
    storageClasses (store s') !! k = storageClasses (store s) !! k) \/
   (creations KStorageClass k evs = 1%nat /\
    storageClasses (store s) !! k = None /\
    is_Some (storageClasses (store s') !! k))).

Lemma classUntouched_refl k s : classUntouched k s s [].
Proof. by split. Qed.

Lemma classUntouched_trans k s1 s2 s3 e1 e2 :
  classUntouched k s1 s2 e1 -> classUntouched k s2 s3 e2 ->
  classUntouched k s1 s3 (e1 ++ e2).
Proof.
  intros [Hf1 Hl1] [Hf2 Hl2]. split; [by apply Forall_app|congruence].
Qed.

Lemma classOnlyCreated_refl k s : classOnlyCreated k s s [].
Proof. split; [constructor|]. left. by split. Qed.

Lemma classOnlyCreated_trans k s1 s2 s3 e1 e2 :
  classOnlyCreated k s1 s2 e1 -> classOnlyCreated k s2 s3 e2 ->
  classOnlyCreated k s1 s3 (e1 ++ e2).
Proof.
  intros [Hf1 Hc1] [Hf2 Hc2]. split; [by apply Forall_app|].
  rewrite creations_app.
  destruct Hc1 as [[Hn1 Hl1]|(Hn1 & Hl1 & Hs1)], Hc2 as [[Hn2 Hl2]|(Hn2 & Hl2 & Hs2)].
  - left. split; [lia|congruence].
  - right. split; [lia|]. split; [congruence|done].
  - right. split; [lia|]. split; [done|congruence].
  - rewrite Hl2 in Hs1. by destruct Hs1.
Qed.

(** The class of another configuration is out of an iteration's reach. *)
Lemma createStorageClasses_iter_other k scc s :
  classKey scc <> k ->
  classesWellKeyed s ->
  let s' := (createStorageClasses_iter E scc s).2 in
  classesWellKeyed s' /\
  exists evs, trace s' = trace s ++ evs /\
              Forall (fun ev => ~ onObject KStorageClass k ev) evs /\
              storageClasses (store s') !! k = storageClasses (store s) !! k.
Proof.
  intros Hne Hwk.
  destruct (createStorageClasses_iter_footprint scc s Hwk) as (Hwk' & Hfr & evs & Htr & Hev).
  split; [done|]. exists evs. split; [done|]. split.
  - eapply Forall_impl; [exact Hev|]. intros ev [_ Hk] [_ Hk']. congruence.
  - apply Hfr. congruence.
Qed.

Lemma createStorageClasses_iter_ignore k scc :
  (classKey scc = k -> reconcileStrategy scc = ReconcileStrategyIgnore) ->
  respects classesWellKeyed (classUntouched k) (createStorageClasses_iter E scc).
Proof.
  intros Hign s Hwk.
  destruct (decide (classKey scc = k)) as [Heq|Hne].
  - unfold createStorageClasses_iter. rewrite (Hign Heq). simpl.
    split; [done|]. exists []. split; [by rewrite app_nil_r|]. by split.
  - destruct (createStorageClasses_iter_other k scc s Hne Hwk) as (Hwk' & evs & ? & ? & ?).
    split; [done|]. exists evs. by repeat split.
Qed.

Lemma createStorageClasses_iter_init k scc :
  (classKey scc = k -> reconcileStrategy scc = ReconcileStrategyInit) ->
  respects classesWellKeyed (classOnlyCreated k) (createStorageClasses_iter E scc).
Proof.
  intros Hinit s Hwk.
  destruct (decide (classKey scc = k)) as [Heq|Hne].
  - split; [by apply createStorageClasses_iter_footprint|].
    unfold createStorageClasses_iter. rewrite (Hinit Heq). rewrite Heq.
    unfold bind, attempt, clientGet, clientCreate, ret, fail. simpl.
    repeat (case_match; simplify_eq/=);
      rewrite <- ?app_assoc; simpl;
      eexists; (split; [first [reflexivity | symmetry; apply app_nil_r]|]);
      (split; [repeat constructor; simpl; intros _; set_solver|]);
      unfold creations; rewrite ?filter_cons, ?filter_nil;
      repeat (case_decide; simplify_eq/=);
      first [ left; split; [reflexivity|congruence]
            | right; split; [reflexivity|]; split; [assumption|];
              rewrite lookup_insert_eq; eauto ].
  - destruct (createStorageClasses_iter_other k scc s Hne Hwk) as (Hwk' & evs & ? & Hev & ?).
    split; [done|]. exists evs. split; [done|]. split.
    + eapply Forall_impl; [exact Hev|]. intros ev Hn Hon. contradiction.
    + left. split; [by apply creations_other|done].
Qed.

Lemma createStorageClasses_respects Rel sccs :
  (forall s, Rel s s []) ->
  (forall s1 s2 s3 e1 e2, Rel s1 s2 e1 -> Rel s2 s3 e2 -> Rel s1 s3 (e1 ++ e2)) ->
  (forall scc, scc ∈ sccs -> respects classesWellKeyed Rel (createStorageClasses_iter E scc)) ->
  respects classesWellKeyed Rel (createStorageClasses E sccs).
Proof.
  intros Hrefl Htrans. induction sccs as [|scc sccs IH]; intros Hall; simpl.
  - by apply respects_ret.
  - apply respects_bind; [done| |].
    + apply Hall. by left.
    + intros _. apply IH. intros scc' Hin. apply Hall. by right.
Qed.

Lemma storageClassPasses_respects Rel passes :
  (forall s, Rel s s []) ->
  (forall s1 s2 s3 e1 e2, Rel s1 s2 e1 -> Rel s2 s3 e2 -> Rel s1 s3 (e1 ++ e2)) ->
  (forall sccs scc, sccs ∈ passes -> scc ∈ sccs ->
     respects classesWellKeyed Rel (createStorageClasses_iter E scc)) ->
  respects classesWellKeyed Rel (storageClassPasses E passes).
Proof.
  intros Hrefl Htrans. induction passes as [|sccs passes IH]; intros Hall; simpl.
  - by apply respects_ret.
  - apply respects_bind; [done| |].
    + apply respects_attempt, createStorageClasses_respects; [done..|].
      intros scc Hin. apply (Hall sccs); [by left|done].
    + intros _. apply IH. intros sccs' scc Hin Hin'. apply (Hall sccs'); [by right|done].
Qed.

End StrategiesOfClasses.

Section StrategiesOfObjectStores.
Context (E : Env) (R : Repo).

Definition objectStoreStrategy (i : StorageCluster) : string :=
  mr_ReconcileStrategy (CephObjectStores (spec_ManagedResources (sc_Spec i))).

(** Only Gets and Creates of object stores were issued, and for every key at
    most one creation succeeded. *)
Definition storesOnlyCreated (s s' : State) (evs : list Event) : Prop :=
  Forall (fun ev => kind (ev_call ev) = KCephObjectStore
                    /\ verb (ev_call ev) ∈ [Get; Create]) evs /\
  forall k,
    (creations KCephObjectStore k evs = 0%nat /\
     (is_Some (cephObjectStores (store s) !! k) ->
      is_Some (cephObjectStores (store s') !! k))) \/
    (creations KCephObjectStore k evs = 1%nat /\
     cephObjectStores (store s) !! k = None /\
     is_Some (cephObjectStores (store s') !! k)).

Lemma storesOnlyCreated_refl s : storesOnlyCreated s s [].
Proof. split; [constructor|]. intros k. left. by split. Qed.

Lemma storesOnlyCreated_trans s1 s2 s3 e1 e2 :
  storesOnlyCreated s1 s2 e1 -> storesOnlyCreated s2 s3 e2 ->
  storesOnlyCreated s1 s3 (e1 ++ e2).
Proof.
  intros [Hf1 Hc1] [Hf2 Hc2]. split; [by apply Forall_app|].
  intros k. rewrite creations_app.
  destruct (Hc1 k) as [[Hn1 Hl1]|(Hn1 & Hl1 & Hs1)],
           (Hc2 k) as [[Hn2 Hl2]|(Hn2 & Hl2 & Hs2)].
  - left. split; [lia|auto].
  - destruct (cephObjectStores (store s1) !! k) eqn:Hk.
    + exfalso. destruct Hl1 as [? Hl1]; [eauto|]. congruence.
    + right. split; [lia|]. split; done.
  - right. split; [lia|]. split; [done|auto].
  - rewrite Hl2 in Hs1. by destruct Hs1.
Qed.

(** The strategy is read from the [*StorageCluster] of the pass; it is the
    same before and after the ensurer. *)
Definition hasStrategy (strategy : string) (s : State) : Prop :=
  objectStoreStrategy (instance s) = strategy.

Lemma createCephObjectStores_iter_init cephObjectStore s :
  hasStrategy ReconcileStrategyInit s ->
  let r := createCephObjectStores_iter E cephObjectStore s in
  instance r.2 = instance s /\
  exists evs, trace r.2 = trace s ++ evs /\ storesOnlyCreated s r.2 evs.
Proof.
  unfold hasStrategy, objectStoreStrategy. intros Hinit.
  unfold createCephObjectStores_iter, bind, attempt, getInstance, clientGet, clientCreate,
    ret, fail. simpl. rewrite Hinit. simpl.
  repeat (case_match; simplify_eq/=);
    (split; [reflexivity|]);
    rewrite <- ?app_assoc; simpl;
    eexists; (split; [reflexivity|]);
    (split;
     [repeat (apply Forall_cons_2; [split; [reflexivity|simpl; set_solver]|]);
      apply Forall_nil_2|]);
    intros k; unfold creations, ok; rewrite ?filter_cons, ?filter_nil;
    repeat (case_decide; simplify_eq/=);
    first [ left; split; [reflexivity|]; simpl; intros [x Hx];
            destruct (decide (k = keyOf (cos_Meta cephObjectStore))) as [->|Hne];
            [ rewrite ?lookup_insert_eq; eauto
            | rewrite ?lookup_insert_ne by congruence; eauto ]
          | right; split; [reflexivity|]; split; [assumption|];
            rewrite lookup_insert_eq; eauto ].
Qed.

Lemma createCephObjectStores_init cephObjectStores s :
  hasStrategy ReconcileStrategyInit s ->
  let r := createCephObjectStores E cephObjectStores s in
  exists evs, trace r.2 = trace s ++ evs /\ storesOnlyCreated s r.2 evs.
Proof.
  revert s. induction cephObjectStores as [|o rest IH]; intros s Hinit; simpl.
  - exists []. split; [by rewrite app_nil_r|apply storesOnlyCreated_refl].
  - destruct (createCephObjectStores_iter_init o s Hinit) as (Hi & evs1 & Ht1 & Hr1).
    unfold bind.
    destruct (createCephObjectStores_iter E o s) as [[[]|e|p] s1]; simpl in *;
      try (exists evs1; by split).
    assert (Hinit1 : hasStrategy ReconcileStrategyInit s1)
      by (unfold hasStrategy in *; congruence).
    destruct (IH s1 Hinit1) as (evs2 & Ht2 & Hr2).
    exists (evs1 ++ evs2). split.
    + rewrite Ht2, Ht1. by rewrite app_assoc.
    + by eapply storesOnlyCreated_trans.
Qed.

Lemma ensureCephObjectStores_init s :
  hasStrategy ReconcileStrategyInit s ->
  let r := ensureCephObjectStores E R s in
  exists evs, trace r.2 = trace s ++ evs /\ storesOnlyCreated s r.2 evs.
Proof.
  intros Hinit. unfold ensureCephObjectStores, bind, getInstance, liftE, ret. simpl.
  assert (Hnone : exists evs, trace s = trace s ++ evs /\ storesOnlyCreated s s evs).
  { exists []. split; [by rewrite app_nil_r|apply storesOnlyCreated_refl]. }
  repeat (case_match; simplify_eq/=); try exact Hnone.
  by apply createCephObjectStores_init.
Qed.

(** Under Ignore the ensurer returns at once. *)
Lemma ensureCephObjectStores_ignore s :
  hasStrategy ReconcileStrategyIgnore s ->
  ensureCephObjectStores E R s = (Ok tt, s).
Proof.
  unfold hasStrategy, objectStoreStrategy. intros Hign.
  unfold ensureCephObjectStores, bind, getInstance. simpl. by rewrite Hign.
Qed.

Lemma objectStorePasses_ignore instances s :
  Forall (fun i => objectStoreStrategy i = ReconcileStrategyIgnore) instances ->
  let s' := (objectStorePasses E R instances s).2 in
  trace s' = trace s /\ store s' = store s.
Proof.
  revert s. induction instances as [|i rest IH]; intros s Hall; simpl; [done|].
  apply Forall_cons in Hall as [Hi Hrest].
  unfold bind, putInstance, attempt. simpl.
  rewrite ensureCephObjectStores_ignore by exact Hi.
  destruct (IH (setInstance s i) Hrest) as [Ht Hs]. by split.
Qed.

Lemma objectStorePasses_init instances s :
  Forall (fun i => objectStoreStrategy i = ReconcileStrategyInit) instances ->
  let s' := (objectStorePasses E R instances s).2 in
  exists evs, trace s' = trace s ++ evs /\ storesOnlyCreated s s' evs.
Proof.
  revert s. induction instances as [|i rest IH]; intros s Hall; simpl.
  - exists []. split; [by rewrite app_nil_r|apply storesOnlyCreated_refl].
  - apply Forall_cons in Hall as [Hi Hrest].
    unfold bind at 1. unfold putInstance. unfold bind, attempt.
    destruct (ensureCephObjectStores_init (setInstance s i) Hi) as (evs1 & Ht1 & Hr1).
    destruct (ensureCephObjectStores E R (setInstance s i)) as [[[]|e|p] s1]; simpl in *;
      try (exists evs1; by split).
    + destruct (IH s1 Hrest) as (evs2 & Ht2 & Hr2).
      exists (evs1 ++ evs2). split; [rewrite Ht2, Ht1; by rewrite app_assoc|].
      eapply storesOnlyCreated_trans; [|exact Hr2]. exact Hr1.
    + destruct (IH s1 Hrest) as (evs2 & Ht2 & Hr2).
      exists (evs1 ++ evs2). split; [rewrite Ht2, Ht1; by rewrite app_assoc|].
      eapply storesOnlyCreated_trans; [|exact Hr2]. exact Hr1.
Qed.

End StrategiesOfObjectStores.

(** C6, as amended.  Over every sequence of passes of createStorageClasses
    (on a store that keeps each class under its own name) and of
    ensureCephObjectStores, with desired specs that may change from pass to
    pass:
    - a storage class whose configurations all have the Ignore strategy is
      neither read nor written;
    - a storage class whose configurations all have the Init strategy is
      only read or created, never deleted or updated, and at most one
      creation of it succeeds;
    - under Ignore the object-store ensurer issues no call at all;
    - under Init the object-store ensurer only reads and creates object
      stores, and at most one creation succeeds for any of them. *)
Theorem strategies_respected (E : Env) (R : Repo) :
  (forall (passes : list (list StorageClassConfiguration)) (k : Key) (s : State),
     classesWellKeyed s ->
     (forall sccs scc, sccs ∈ passes -> scc ∈ sccs ->
        keyOf (scl_Meta (storageClass scc)) = k ->
        reconcileStrategy scc = ReconcileStrategyIgnore) ->
     let s' := (storageClassPasses E passes s).2 in
     Forall (fun ev => ~ onObject KStorageClass k ev) (issued s s') /\
     storageClasses (store s') !! k = storageClasses (store s) !! k)
  /\
  (forall (passes : list (list StorageClassConfiguration)) (k : Key) (s : State),
     classesWellKeyed s ->
     (forall sccs scc, sccs ∈ passes -> scc ∈ sccs ->
        keyOf (scl_Meta (storageClass scc)) = k ->
        reconcileStrategy scc = ReconcileStrategyInit) ->
     let s' := (storageClassPasses E passes s).2 in
     Forall (fun ev => onObject KStorageClass k ev -> verb (ev_call ev) ∈ [Get; Create])
       (issued s s') /\
     (creations KStorageClass k (issued s s') <= 1)%nat)
  /\
  (forall (instances : list StorageCluster) (s : State),
     Forall (fun i => objectStoreStrategy i = ReconcileStrategyIgnore) instances ->
     let s' := (objectStorePasses E R instances s).2 in
     issued s s' = [] /\ store s' = store s)
  /\
  (forall (instances : list StorageCluster) (s : State),
     Forall (fun i => objectStoreStrategy i = ReconcileStrategyInit) instances ->
     let s' := (objectStorePasses E R instances s).2 in
     Forall (fun ev => kind (ev_call ev) = KCephObjectStore
                       /\ verb (ev_call ev) ∈ [Get; Create]) (issued s s') /\
     forall k, (creations KCephObjectStore k (issued s s') <= 1)%nat).
Proof.
  split; [|split; [|split]].
  - intros passes k s Hwk Hall s'.
    destruct (storageClassPasses_respects E (classUntouched k) passes
                (classUntouched_refl k) (classUntouched_trans k)) with (s := s)
      as (_ & evs & Htr & Hev & Hst); [|done|].
    + intros sccs scc Hin Hin'. apply createStorageClasses_iter_ignore. eauto.
    + subst s'. rewrite (issued_app _ _ _ Htr). by split.
  - intros passes k s Hwk Hall s'.
    destruct (storageClassPasses_respects E (classOnlyCreated k) passes
                (classOnlyCreated_refl k) (classOnlyCreated_trans k)) with (s := s)
      as (_ & evs & Htr & Hev & Hc); [|done|].
    + intros sccs scc Hin Hin'. apply createStorageClasses_iter_init. eauto.
    + subst s'. rewrite (issued_app _ _ _ Htr). split; [done|].
      destruct Hc as [[-> _]|(-> & _)]; lia.
  - intros instances s Hall s'.
    destruct (objectStorePasses_ignore E R instances s Hall) as [Htr Hst].
    subst s'. split; [|done].
    unfold issued. rewrite Htr. apply drop_all.
  - intros instances s Hall s'.
    destruct (objectStorePasses_init E R instances s Hall) as (evs & Htr & Hev & Hc).
    subst s'. rewrite (issued_app _ _ _ Htr). split; [done|].
    intros k. destruct (Hc k) as [[-> _]|(-> & _)]; lia.
Qed.

Lemma strategies_respected_witness :
  let s := Fixture.stateOf Fixture.freshStore Fixture.allInit in
  (creations KStorageClass Fixture.rbdKey
     (issued s (storageClassPasses Fixture.env Fixture.rbdInitPasses s).2) <= 1)%nat /\
  issued s (objectStorePasses Fixture.env Fixture.repo
              [Fixture.objectStoresIgnored; Fixture.objectStoresIgnored] s).2 = [].
Proof.
  intros s.
  pose proof (strategies_respected Fixture.env Fixture.repo) as (_ & Hinit & Hign & _).
  split.
  - apply (Hinit Fixture.rbdInitPasses Fixture.rbdKey s).
    + intros k o Ho. vm_compute in Ho. discriminate.
    + intros sccs scc Hin Hin' _.
      repeat (apply elem_of_cons in Hin as [->|Hin]).
      * apply list_elem_of_singleton in Hin' as ->. reflexivity.
      * apply list_elem_of_singleton in Hin' as ->. reflexivity.
      * by apply elem_of_nil in Hin.
  - apply (Hign [Fixture.objectStoresIgnored; Fixture.objectStoresIgnored] s).
    repeat constructor.
Defined.

(** C6 fails as stated.  With the Ignore strategy on block pools the
    dependency gate of ensureCreated still reads the CephBlockPool; and the
    teardown path, ensureDeleted, deletes a storage class whatever its
    strategy, Init included. *)
Lemma ignore_and_init_not_respected_everywhere :
  let s := Fixture.stateOf
             (Fixture.withDependencies (Some (Fixture.pool (Some "Ready")))
                (Some (Fixture.filesystem (Some "Ready"))) Fixture.freshStore)
             Fixture.blockPoolsIgnored in
  let r := ensureCreated Fixture.env Fixture.repo s in
  let s2 := Fixture.stateOf (Fixture.withClasses [Fixture.rbdStale] Fixture.freshStore)
              Fixture.allInit in
  let r2 := ensureDeleted Fixture.env Fixture.repo s2 in
  (mr_ReconcileStrategy
     (CephBlockPools (spec_ManagedResources (sc_Spec Fixture.blockPoolsIgnored)))
   = ReconcileStrategyIgnore /\
   r.1 = Ok tt /\
   head (issued s r.2) = Some (ok (mkCall Get KCephBlockPool Fixture.poolKey)))
  /\
  (mr_ReconcileStrategy
     (CephBlockPools (spec_ManagedResources (sc_Spec Fixture.allInit)))
   = ReconcileStrategyInit /\
   storageClasses (store s2) !! Fixture.rbdKey = Some Fixture.rbdStale /\
   ok (mkCall Delete KStorageClass Fixture.rbdKey) ∈ issued s2 r2.2 /\
   storageClasses (store r2.2) !! Fixture.rbdKey = None).
Proof.
  repeat split; try (vm_compute; reflexivity).
  vm_compute. set_solver.
Qed.

(** ** The engine-cluster ensurer (C7) *)

Section EngineCluster.
Context (E : Env) (R : Repo).


(** SetControllerReference leaves the name and the namespace alone. *)
Lemma SetControllerReference_key owner m m' :
  SetControllerReference E owner m = inr m' -> keyOf m' = keyOf m.
Proof.
  unfold SetControllerReference. destruct (setControllerReferenceErr _ _ _); [done|].
  by intros [= <-].
Qed.


End EngineCluster.


(** ** Fail-fast orchestration (C1) *)

(** Every ensurer of the list succeeds in turn, taking [s] to [s1]. *)
Fixpoint succeedAll (fs : list (M unit)) (s s1 : State) : Prop :=
  match fs with
  | [] => s1 = s
  | f :: rest => exists s', f s = (Ok tt, s') /\ succeedAll rest s' s1
  end.

Section FailFast.
Context (E : Env).

Lemma runEnsurers_fails pre f post s s1 s2 e :
  succeedAll pre s s1 ->
  f s1 = (Err e, s2) ->
  runEnsurers E (pre ++ f :: post) s = reconcileFailed E e s2.
Proof.
  revert s. induction pre as [|g pre IH]; intros s Hpre Hf; simpl in *.
  - subst s1. unfold bind, attempt. by rewrite Hf.
  - destruct Hpre as (s' & Hg & Hrest). unfold bind, attempt. rewrite Hg.
    by apply IH.
Qed.

(** The condition just set is in the list, with the time of the call as
    its heartbeat. *)
Lemma SetStatusCondition_elem cs c :
  exists t, mkCondition (cond_Type c) (cond_Status c) (cond_Reason c) (cond_Message c)
              (now E) t ∈ SetStatusCondition E cs c.
Proof.
  induction cs as [|x cs IH]; simpl.
  - eexists. apply list_elem_of_here.
  - case_decide as Heq.
    + rewrite Heq. eexists. apply list_elem_of_here.
    + destruct IH as (t & Ht). exists t. by apply list_elem_of_further.
Qed.

(** Once an ensurer has failed, Reconcile is its failure branch: neither the
    ensurers after it nor the completion step are run. *)
Lemma Reconcile_with_fails pre f post request s s0 s1 s2 e :
  reconcilePrologue E request s = (Ok true, s0) ->
  succeedAll pre (setConditions s0 []) s1 ->
  f s1 = (Err e, s2) ->
  Reconcile_with E (pre ++ f :: post) request s = reconcileFailed E e s2.
Proof.
  intros Hpro Hpre Hf. unfold Reconcile_with.
  rewrite (bind_Ok _ _ _ _ _ Hpro).
  pose proof (runEnsurers_fails pre f post _ s1 s2 e Hpre Hf) as Hrun.
  unfold bind at 1. unfold resetConditions. unfold bind at 1.
  match goal with
  | |- context [runEnsurers E ?l ?s] =>
      replace (runEnsurers E l s) with (reconcileFailed E e s2)
        by (symmetry; exact Hrun)
  end.
  destruct (reconcileFailed E e s2) as [[[]|e'|p] s3] eqn:Hrf; try reflexivity.
  exfalso. revert Hrf.
  unfold reconcileFailed, bind, modifyStatus, getInstance, attempt, clientStatusUpdate, fail.
  simpl. repeat (case_match; simplify_eq/=); discriminate.
Qed.

(** The failure branch: what it leaves in the [*StorageCluster] of the pass,
    the one call it issues, and what the store holds when the client accepts
    that call. *)
Lemma reconcileFailed_spec e s2 :
  let r := reconcileFailed E e s2 in
  let k := keyOf (sc_Meta (instance s2)) in
  let st := sc_Status (instance s2) in
  r.1 = Err e /\
  instance r.2
  = withStatus (instance s2)
      (withPhase
         (withConditions st
            (SetErrorCondition E (st_Conditions st) ReconcileFailed
               ("Error while reconciling: " +:+ err_text e)))
         PhaseError) /\
  (exists o,
     issued s2 r.2 = [ mkEvent (mkCall StatusUpdate KStorageCluster k) o ] /\
     (o = None ->
      exists stored,
        storageClusters (store r.2) !! k = Some stored /\
        sc_Status stored = sc_Status (instance r.2))).
Proof.
  intros r k st. subst r.
  unfold reconcileFailed, bind, modifyStatus, getInstance, attempt, clientStatusUpdate, fail.
  simpl. fold k.
  repeat (case_match; simplify_eq/=);
    (split; [reflexivity|]);
    (split; [reflexivity|]);
    eexists; (split; [by apply issued_app|]);
    first [ discriminate
          | intros _; eexists; split; [apply lookup_insert_eq|reflexivity] ].
Qed.

(** C1: when an ensurer of the ordered list returns an error after the
    ensurers before it succeeded, Reconcile runs none of the ensurers after
    it (the outcome is that of the failure branch alone, whatever follows in
    the list): the phase of the StorageCluster becomes Error, its conditions
    hold a failed ReconcileComplete condition whose message is the text
    "Error while reconciling: " followed by the ensurer's error text, the
    status update is issued (and, when the client accepts it, the stored
    status is the one just set), and the ensurer's error is returned. *)
Theorem Reconcile_fails_fast
  (pre post : list (M unit)) (f : M unit) (request : Key)
  (s s0 s1 s2 : State) (e : error) :
  reconcilePrologue E request s = (Ok true, s0) ->
  succeedAll pre (setConditions s0 []) s1 ->
  f s1 = (Err e, s2) ->
  let r := Reconcile_with E (pre ++ f :: post) request s in
  let k := keyOf (sc_Meta (instance s2)) in
  r = reconcileFailed E e s2 /\
  r.1 = Err e /\
  st_Phase (sc_Status (instance r.2)) = PhaseError /\
  (exists t,
     mkCondition ConditionReconcileComplete ConditionFalse ReconcileFailed
       ("Error while reconciling: " +:+ err_text e) (now E) t
     ∈ st_Conditions (sc_Status (instance r.2))) /\
  (exists o,
     issued s2 r.2 = [ mkEvent (mkCall StatusUpdate KStorageCluster k) o ] /\
     (o = None ->
      exists stored,
        storageClusters (store r.2) !! k = Some stored /\
        sc_Status stored = sc_Status (instance r.2))).
Proof.
  intros Hpro Hpre Hf r k.
  assert (Hr : r = reconcileFailed E e s2)
    by (by eapply Reconcile_with_fails).
  split; [exact Hr|]. rewrite Hr. clear Hr r.
  destruct (reconcileFailed_spec e s2) as (Herr & Hinst & Hupd).
  split; [exact Herr|].
  split; [by rewrite Hinst|]. split; [|exact Hupd].
  rewrite Hinst. simpl.
  destruct (SetStatusCondition_elem (st_Conditions (sc_Status (instance s2)))
              (mkCondition ConditionReconcileComplete ConditionFalse ReconcileFailed
                 ("Error while reconciling: " +:+ err_text e) 0 0)) as (t & Ht).
  exists t. exact Ht.
Qed.

End FailFast.

Lemma Reconcile_fails_fast_witness :
  let s := Fixture.stateOf Fixture.initializedStore Fixture.managed in
  let r := Reconcile Fixture.envNoScheme Fixture.repo Fixture.request s in
  r.1 = Err (Errorf "no kind is registered for the type StorageCluster") /\
  st_Phase (sc_Status (instance r.2)) = PhaseError.
Proof.
  intros s r.
  edestruct (Reconcile_fails_fast Fixture.envNoScheme [] []
               (ensureCephCluster Fixture.envNoScheme Fixture.repo)
               Fixture.request s) as (_ & Herr & Hphase & _).
  - vm_compute. reflexivity.
  - reflexivity.
  - vm_compute. reflexivity.
  - split; [exact Herr | exact Hphase].
Defined.

(** ** A fresh cluster (C8) *)

Section FreshCluster.
Context (E : Env) (R : Repo).

(** The two calls that create an absent class. *)
Definition creationOf (scc : StorageClassConfiguration) : list Event :=
  let k := keyOf (scl_Meta (storageClass scc)) in
  [ mkEvent (mkCall Get KStorageClass k) (Some notFound);
    ok (mkCall Create KStorageClass k) ].

Lemma faultFreeFrom_le n m : faultFreeFrom E n -> (n <= m)%nat -> faultFreeFrom E m.
Proof. intros H Hle k c Hk. apply H. lia. Qed.

(** On a store that has none of the classes, createStorageClasses creates
    each class that is neither ignored nor disabled, in order. *)
Lemma createStorageClasses_fresh sccs s :
  faultFreeFrom E (length (trace s)) ->
  Forall (fun scc => reconcileStrategy scc <> ReconcileStrategyIgnore
                     /\ disable scc = false) sccs ->
  NoDup (map (fun scc => keyOf (scl_Meta (storageClass scc))) sccs) ->
  (forall scc, scc ∈ sccs ->
     storageClasses (store s) !! keyOf (scl_Meta (storageClass scc)) = None) ->
  let r := createStorageClasses E sccs s in
  r.1 = Ok tt /\
  issued s r.2 = flat_map creationOf sccs /\
  (forall scc, scc ∈ sccs ->
     storageClasses (store r.2) !! keyOf (scl_Meta (storageClass scc))
     = Some (storageClass scc)) /\
  (forall k, k ∉ map (fun scc => keyOf (scl_Meta (storageClass scc))) sccs ->
     storageClasses (store r.2) !! k = storageClasses (store s) !! k).
Proof.
  revert s. induction sccs as [|scc sccs IH]; intros s Hff Hall Hnd Habs; simpl.
  - split; [done|]. split; [by rewrite (issued_app s s [])by (by rewrite app_nil_r)|].
    split; [intros ? Hin; by apply elem_of_nil in Hin|done].
  - apply Forall_cons in Hall as [[Hign Hdis] Hall].
    apply NoDup_cons in Hnd as [Hnotin Hnd].
    set (k := keyOf (scl_Meta (storageClass scc))) in *.
    assert (Hiter : createStorageClasses_iter E scc s
                    = (Ok tt,
                       logEvent
                         (setStore
                            (logEvent s (mkCall Get KStorageClass k) (Some notFound))
                            (setObjects (<[k := storageClass scc]> (storageClasses (store s)))
                               (store s)))
                         (mkCall Create KStorageClass k) None)).
    { unfold createStorageClasses_iter.
      rewrite bool_decide_eq_false_2 by done. rewrite Hdis. simpl.
      unfold bind, attempt, clientGet, clientCreate. simpl. fold k.
      pose proof (Habs scc (list_elem_of_here _ _)) as Hk. fold k in Hk.
      rewrite Hff by lia. rewrite Hk. simpl.
      rewrite Hff by (rewrite length_app; simpl; lia).
      rewrite Hk. reflexivity. }
    unfold bind. rewrite Hiter.
    match goal with |- context [createStorageClasses E sccs ?s1] => set (s1' := s1) end.
    destruct (IH s1') as (Hok & Hiss & Hin & Hout).
    + eapply faultFreeFrom_le; [exact Hff|]. subst s1'. simpl.
      rewrite !length_app. simpl. lia.
    + done.
    + done.
    + intros scc' Hin'. subst s1'. simpl.
      rewrite lookup_insert_ne.
      * apply Habs. by apply list_elem_of_further.
      * intros Heq. apply Hnotin. rewrite Heq.
        apply list_elem_of_fmap. exists scc'. split; [done|done].
    + split; [done|]. split; [|split].
      * assert (Htr : trace (createStorageClasses E sccs s1').2
                      = trace s ++ creationOf scc ++ flat_map creationOf sccs).
        { pose proof (createStorageClasses_calls E sccs s1') as (evs & Hevs & _).
          rewrite (issued_app _ _ _ Hevs) in Hiss. subst evs.
          rewrite Hevs. subst s1'. simpl. fold k.
          rewrite <- !app_assoc. reflexivity. }
        by apply issued_app.
      * intros scc' [->|Hin']%elem_of_cons.
        -- rewrite Hout by exact Hnotin. subst s1'. simpl. fold k.
           apply lookup_insert_eq.
        -- by apply Hin.
      * intros k' Hk'. rewrite not_elem_of_cons in Hk'. destruct Hk' as [Hne Hk'].
        rewrite Hout by exact Hk'. subst s1'. simpl.
        by rewrite lookup_insert_ne.
Qed.

(** The storage classes whose creation succeeded, in order. *)
Definition createdClasses (evs : list Event) : list Key :=
  omap (fun ev =>
          if decide (verb (ev_call ev) = Create /\ kind (ev_call ev) = KStorageClass
                     /\ ev_err ev = None)
          then Some (key (ev_call ev)) else None) evs.

Lemma createdClasses_creationOf sccs :
  createdClasses (flat_map creationOf sccs)
  = map (fun scc => keyOf (scl_Meta (storageClass scc))) sccs.
Proof.
  induction sccs as [|scc sccs IH]; [done|].
  simpl. unfold createdClasses in *. simpl. by rewrite IH.
Qed.

(** The object-bucket class is wanted, outside external mode, when the
    platform is known and is not one where object storage is avoided. *)
Definition objectClassWanted : bool :=
  match GetPlatform E with
  | inr p => negb (avoidObjectStore R p)
  | inl _ => false
  end.

(** A managed kind: under the Manage strategy, its class not disabled. *)
Definition managedKind (m : ManagedResource) : Prop :=
  mr_ReconcileStrategy m <> ReconcileStrategyIgnore /\
  mr_ReconcileStrategy m <> ReconcileStrategyInit /\
  mr_DisableStorageClass m = false.

Lemma newStorageClassConfigurations_internal i :
  spec_ExternalStorageEnable (sc_Spec i) = false ->
  newStorageClassConfigurations E R i
  = inr ([ newCephFilesystemStorageClassConfiguration R i;
           newCephBlockPoolStorageClassConfiguration R i false;
           newCephBlockPoolStorageClassConfiguration R i true ]
         ++ if objectClassWanted then [newCephOBCStorageClassConfiguration R i] else []).
Proof.
  intros Hext. unfold newStorageClassConfigurations, objectClassWanted,
    PlatformsShouldAvoidObjectStore.
  rewrite Hext. destruct (GetPlatform E) as [e|p]; simpl; [done|].
  by destruct (avoidObjectStore R p).
Qed.

(** The storage-class pass on a fresh cluster whose pool and filesystem are
    Ready: three classes are created (filesystem, block, thick block), and a
    fourth, the object-bucket class, exactly when it is wanted. *)
Lemma ensureCreated_fresh (s : State) :
  let i := instance s in
  let m := spec_ManagedResources (sc_Spec i) in
  let ns := om_Namespace (sc_Meta i) in
  faultFreeFrom E (length (trace s)) ->
  spec_ExternalStorageEnable (sc_Spec i) = false ->
  managedKind (CephBlockPools m) ->
  managedKind (CephFilesystems m) ->
  managedKind (CephObjectStores m) ->
  (exists p, cephBlockPools (store s) !! (ns, generateNameForCephBlockPool R i) = Some p
             /\ cbp_Status p = Some PhaseReady) ->
  (exists f, cephFilesystems (store s) !! (ns, generateNameForCephFilesystem R i) = Some f
             /\ cfs_Status f = Some PhaseReady) ->
  storageClasses (store s) = ∅ ->
  NoDup [ generateNameForCephFilesystemSC R i;
          generateNameForCephBlockPoolSC R i "";
          generateNameForCephBlockPoolSC R i "-thick";
          generateNameForCephRgwSC R i ] ->
  let r := ensureCreated E R s in
  r.1 = Ok tt /\
  createdClasses (issued s r.2)
  = [ ("", generateNameForCephFilesystemSC R i);
      ("", generateNameForCephBlockPoolSC R i "");
      ("", generateNameForCephBlockPoolSC R i "-thick") ]
    ++ (if objectClassWanted then [("", generateNameForCephRgwSC R i)] else []) /\
  (forall k, is_Some (storageClasses (store r.2) !! k) <->
             k ∈ createdClasses (issued s r.2)).
Proof.
  intros i m ns Hff Hext (Hb1 & Hb2 & Hb3) (Hf1 & Hf2 & Hf3) (Ho1 & Ho2 & Ho3)
    (p & Hp & Hpr) (f & Hf & Hfr) Hfresh Hnd r.
  pose proof (newStorageClassConfigurations_internal i Hext) as Hcfg.
  remember ([ newCephFilesystemStorageClassConfiguration R i;
              newCephBlockPoolStorageClassConfiguration R i false;
              newCephBlockPoolStorageClassConfiguration R i true ]
            ++ if objectClassWanted then [newCephOBCStorageClassConfiguration R i] else [])
    as sccs eqn:Hsccs.
  set (s2' := logEvent
                (logEvent s (mkCall Get KCephBlockPool (ns, generateNameForCephBlockPool R i))
                   None)
                (mkCall Get KCephFilesystem (ns, generateNameForCephFilesystem R i)) None).
  assert (Hrun : r = createStorageClasses E sccs s2').
  { subst r. unfold ensureCreated, bind, getInstance. simpl. fold i.
    rewrite Hcfg. simpl. fold m. rewrite Hb3, Hf3. simpl.
    unfold waitForCephBlockPool, waitForCephFilesystem, bind, clientGet. simpl.
    fold ns. rewrite Hff by lia. rewrite Hp. simpl. rewrite Hpr. simpl.
    rewrite Hff by (rewrite length_app; simpl; lia). rewrite Hf. simpl. rewrite Hfr.
    reflexivity. }
  rewrite Hrun. clear Hrun r.
  assert (Hkeys : map (fun scc => keyOf (scl_Meta (storageClass scc))) sccs
                  = [ ("", generateNameForCephFilesystemSC R i);
                      ("", generateNameForCephBlockPoolSC R i "");
                      ("", generateNameForCephBlockPoolSC R i "-thick") ]
                    ++ (if objectClassWanted
                        then [("", generateNameForCephRgwSC R i)] else [])).
  { rewrite Hsccs. by destruct objectClassWanted. }
  destruct (createStorageClasses_fresh sccs s2') as (Hok & Hiss & Hin & Hout).
  - intros n c Hn. apply Hff. subst s2'. simpl in Hn. rewrite !length_app in Hn.
    simpl in Hn. lia.
  - rewrite Hsccs. fold m.
    destruct objectClassWanted; repeat constructor; simpl; done.
  - rewrite Hkeys.
    assert (Hinj : forall (l : list string), NoDup l -> NoDup (map (fun n => ("", n)) l)).
    { intros l Hl. apply NoDup_fmap; [|done]. by intros ?? [= ->]. }
    apply Hinj in Hnd. simpl in Hnd.
    destruct objectClassWanted; simpl; [done|].
    apply (NoDup_app [_; _; _] [_]) in Hnd. by destruct Hnd.
  - intros scc _. subst s2'. simpl. rewrite Hfresh. apply lookup_empty.
  - assert (Htr : issued s (createStorageClasses E sccs s2').2
                  = [ ok (mkCall Get KCephBlockPool (ns, generateNameForCephBlockPool R i));
                      ok (mkCall Get KCephFilesystem (ns, generateNameForCephFilesystem R i)) ]
                    ++ flat_map creationOf sccs).
    { pose proof (createStorageClasses_calls E sccs s2') as (evs & Hevs & _).
      rewrite (issued_app _ _ _ Hevs) in Hiss. subst evs.
      apply issued_app. rewrite Hevs. subst s2'. simpl.
      rewrite <- !app_assoc. reflexivity. }
    split; [done|]. rewrite Htr.
    assert (Hcr : createdClasses
                    ([ ok (mkCall Get KCephBlockPool (ns, generateNameForCephBlockPool R i));
                       ok (mkCall Get KCephFilesystem (ns, generateNameForCephFilesystem R i)) ]
                     ++ flat_map creationOf sccs)
                  = map (fun scc => keyOf (scl_Meta (storageClass scc))) sccs).
    { rewrite <- createdClasses_creationOf. reflexivity. }
    rewrite Hcr. split; [exact Hkeys|].
    intros k. split.
    + intros Hsome.
      destruct (decide (k ∈ map (fun scc => keyOf (scl_Meta (storageClass scc))) sccs))
        as [Hk|Hk]; [done|].
      rewrite (Hout k Hk) in Hsome. subst s2'. simpl in Hsome.
      rewrite Hfresh, lookup_empty in Hsome. by destruct Hsome.
    + intros (scc & -> & Hscc)%list_elem_of_fmap. rewrite (Hin scc Hscc). eauto.
Qed.

(** SetControllerReference never fails: the scheme knows the owner. *)
Definition schemeComplete : Prop :=
  forall owner m, setControllerReferenceErr E owner m = None.

(** The first pass over a fresh cluster: the conditions are initialized,
    the StorageClusterInitialization is created, and the pass returns nil
    there, before any ensurer. *)
Lemma Reconcile_first_pass (request : Key) (i : StorageCluster) (s : State) :
  faultFree E -> schemeComplete ->
  storageClusters (store s) !! request = Some i ->
  keyOf (sc_Meta i) = request ->
  st_Conditions (sc_Status i) = [] ->
  storageClusterInitializations (store s) !! request = None ->
  exists s1 i',
    Reconcile E R request s = (Ok tt, s1) /\
    cephClusters (store s1) = cephClusters (store s) /\
    is_Some (storageClusterInitializations (store s1) !! request) /\
    storageClusters (store s1) !! request = Some i' /\
    sc_Meta i' = sc_Meta i /\ sc_Spec i' = sc_Spec i /\
    st_Conditions (sc_Status i') <> [].
Proof.
  intros Hff Hsch Hi Hkey Hc Hinit. destruct request as [rns rname].
  unfold Reconcile, Reconcile_with, reconcilePrologue.
  unfold bind, attempt, clientGet, putInstance. simpl.
  rewrite Hff, Hi. simpl. rewrite Hc. simpl.
  unfold modifyStatus, getInstance, clientStatusUpdate. simpl.
  rewrite Hkey, Hff, Hi. simpl.
  unfold checkStorageClusterInitialization, bind, attempt, clientGet, getInstance,
    liftE, clientCreate, SetControllerReference. simpl.
  rewrite Hff, Hinit. simpl. rewrite Hsch. simpl.
  unfold withOwnerReferences, keyOf. simpl. rewrite Hff, Hinit. simpl.
  eexists _, _. split; [reflexivity|]. simpl.
  split; [reflexivity|]. split; [rewrite lookup_insert_eq; eauto|].
  split; [apply lookup_insert_eq|]. split; [reflexivity|]. split; [reflexivity|].
  simpl. rewrite Hc. simpl. discriminate.
Qed.

(** reconcileCompleted writes the status of the StorageCluster and nothing
    else. *)
Lemma reconcileCompleted_cephClusters s :
  cephClusters (store (reconcileCompleted E s).2) = cephClusters (store s).
Proof.
  unfold reconcileCompleted, bind, getState, modifyStatus, attempt, readySet, readyUnset,
    getInstance, clientStatusUpdate, fail, ret. simpl.
  repeat (case_match; simplify_eq/=); reflexivity.
Qed.

(** A pass over an initialized cluster that has no CephCluster yet creates
    it, as newCephCluster builds it: three monitors. *)
Lemma Reconcile_creates_CephCluster (request : Key) (i : StorageCluster) (s : State) :
  faultFree E -> schemeComplete ->
  storageClusters (store s) !! request = Some i ->
  keyOf (sc_Meta i) = request ->
  st_Conditions (sc_Status i) <> [] ->
  is_Some (storageClusterInitializations (store s) !! request) ->
  cephClusters (store s) !! request = None ->
  exists c,
    cephClusters (store (Reconcile E R request s).2) !! request = Some c /\
    cc_Spec c = cc_Spec (newCephCluster R i (cephImage E)) /\
    cs_MonCount (cc_Spec c) = 3.
Proof.
  intros Hff Hsch Hi Hkey Hc [sci Hinit] Habs.
  unfold Reconcile, Reconcile_with, reconcilePrologue.
  unfold bind at 1. unfold bind at 1. unfold attempt at 1. unfold clientGet at 1. simpl.
  rewrite Hff, Hi.
  unfold bind at 1. unfold putInstance at 1. unfold bind at 1.
  destruct (st_Conditions (sc_Status i)) as [|c0 cs] eqn:Hcs; [done|].
  unfold ret at 1.
  unfold checkStorageClusterInitialization, bind at 1. unfold attempt at 1.
  unfold clientGet at 1. simpl.
  rewrite Hff, Hinit. unfold ret at 1.
  unfold bind at 1. unfold resetConditions at 1.
  unfold bind at 1. unfold runEnsurers. unfold bind at 1. unfold attempt at 1.
  match goal with |- context [ensureCephCluster E R ?s0] => set (s0' := s0) end.
  assert (Hens : exists s1,
            ensureCephCluster E R s0' = (Ok tt, s1) /\
            cephClusters (store s1) !! request
            = Some (mkCephCluster
                      (withOwnerReferences (cc_Meta (newCephCluster R i (cephImage E)))
                         [mkOwnerReference (sc_APIVersion i) (sc_Kind i)
                            (om_Name (sc_Meta i)) (om_UID (sc_Meta i)) true])
                      (cc_Spec (newCephCluster R i (cephImage E))) "")).
  { unfold ensureCephCluster, bind, getInstance, liftE, attempt, clientGet, clientCreate,
      SetControllerReference. subst s0'. simpl.
    rewrite Hsch. simpl. unfold withOwnerReferences, keyOf in *. simpl. rewrite Hkey.
    rewrite Hff, Habs. simpl. rewrite Hff, Habs.
    eexists. split; [reflexivity|]. simpl. apply lookup_insert_eq. }
  destruct Hens as (s1 & Hens & Hc1). rewrite Hens. unfold ret at 1.
  rewrite reconcileCompleted_cephClusters.
  eexists. split; [exact Hc1|]. split; reflexivity.
Qed.

(** C8, as amended.  On a fresh cluster (the StorageCluster has no
    conditions yet, there is no StorageClusterInitialization and no
    CephCluster), with a client and a scheme that do not fail: the first
    pass of Reconcile creates the StorageClusterInitialization and returns
    there, and the pass after it creates the CephCluster with the default
    monitor count of 3.  With the Manage strategy everywhere, no class
    disabled and external mode off, once the pool and the filesystem report
    Ready a pass of ensureCreated over a store without storage classes
    creates three classes (filesystem, block, thick block) and a fourth,
    the object-bucket class, exactly when the platform is known and is not
    one where object storage is avoided. *)
Theorem fresh_cluster_scenario :
  (forall (request : Key) (i : StorageCluster) (s : State),
     faultFree E -> schemeComplete ->
     storageClusters (store s) !! request = Some i ->
     keyOf (sc_Meta i) = request ->
     st_Conditions (sc_Status i) = [] ->
     storageClusterInitializations (store s) !! request = None ->
     cephClusters (store s) !! request = None ->
     let r1 := Reconcile E R request s in
     let r2 := Reconcile E R request r1.2 in
     r1.1 = Ok tt /\
     cephClusters (store r1.2) !! request = None /\
     exists c, cephClusters (store r2.2) !! request = Some c /\
               cs_MonCount (cc_Spec c) = 3)
  /\
  (forall (s : State),
     let i := instance s in
     let m := spec_ManagedResources (sc_Spec i) in
     let ns := om_Namespace (sc_Meta i) in
     faultFreeFrom E (length (trace s)) ->
     spec_ExternalStorageEnable (sc_Spec i) = false ->
     managedKind (CephBlockPools m) ->
     managedKind (CephFilesystems m) ->
     managedKind (CephObjectStores m) ->
     (exists p, cephBlockPools (store s) !! (ns, generateNameForCephBlockPool R i) = Some p
                /\ cbp_Status p = Some PhaseReady) ->
     (exists f, cephFilesystems (store s) !! (ns, generateNameForCephFilesystem R i) = Some f
                /\ cfs_Status f = Some PhaseReady) ->
     storageClasses (store s) = ∅ ->
     NoDup [ generateNameForCephFilesystemSC R i;
             generateNameForCephBlockPoolSC R i "";
             generateNameForCephBlockPoolSC R i "-thick";
             generateNameForCephRgwSC R i ] ->
     let r := ensureCreated E R s in
     r.1 = Ok tt /\
     createdClasses (issued s r.2)
     = [ ("", generateNameForCephFilesystemSC R i);
         ("", generateNameForCephBlockPoolSC R i "");
         ("", generateNameForCephBlockPoolSC R i "-thick") ]
       ++ (if objectClassWanted then [("", generateNameForCephRgwSC R i)] else []) /\
     (forall k, is_Some (storageClasses (store r.2) !! k) <->
                k ∈ createdClasses (issued s r.2))).
Proof.
  split.
  - intros request i s Hff Hsch Hi Hkey Hc Hinit Habs r1 r2.
    destruct (Reconcile_first_pass request i s Hff Hsch Hi Hkey Hc Hinit)
      as (s1 & i' & Hr1 & Hcc & Hsci & Hi' & Hmeta & Hspec & Hc').
    subst r2 r1. rewrite Hr1. simpl.
    split; [done|]. split; [by rewrite Hcc|].
    destruct (Reconcile_creates_CephCluster request i' s1) as (c & Hcl & _ & Hmon);
      try done.
    + by rewrite Hmeta.
    + by rewrite Hcc.
    + by exists c.
  - intros s. apply ensureCreated_fresh.
Qed.

End FreshCluster.

Lemma fresh_cluster_scenario_witness :
  let s0 := Fixture.stateOf Fixture.freshStore Fixture.managed in
  let r1 := Reconcile Fixture.env Fixture.repo Fixture.request s0 in
  let r2 := Reconcile Fixture.env Fixture.repo Fixture.request r1.2 in
  let s := Fixture.stateOf
             (Fixture.withDependencies (Some (Fixture.pool (Some "Ready")))
                (Some (Fixture.filesystem (Some "Ready"))) Fixture.freshStore)
             Fixture.managed in
  (exists c, cephClusters (store r2.2) !! Fixture.request = Some c /\
             cs_MonCount (cc_Spec c) = 3) /\
  (ensureCreated Fixture.envCloud Fixture.repo s).1 = Ok tt.
Proof.
  intros s0 r1 r2 s.
  pose proof (fresh_cluster_scenario Fixture.env Fixture.repo) as [Hengine _].
  pose proof (fresh_cluster_scenario Fixture.envCloud Fixture.repo) as [_ Hclasses].
  split.
  - destruct (Hengine Fixture.request Fixture.managed s0) as (_ & _ & Hc).
    + intros n c. reflexivity.
    + intros a b. reflexivity.
    + vm_compute. reflexivity.
    + reflexivity.
    + reflexivity.
    + vm_compute. reflexivity.
    + vm_compute. reflexivity.
    + exact Hc.
  - destruct (Hclasses s) as (Hok & _).
    + intros n c _. reflexivity.
    + reflexivity.
    + repeat split; discriminate.
    + repeat split; discriminate.
    + repeat split; discriminate.
    + eexists. split; [vm_compute; reflexivity|reflexivity].
    + eexists. split; [vm_compute; reflexivity|reflexivity].
    + vm_compute. reflexivity.
    + apply (bool_decide_unpack (NoDup _)). vm_compute. exact I.
    + exact Hok.
Defined.

(** C8 fails as stated: after the pool and the filesystem report Ready the
    storage-class pass creates four classes where object storage is not
    avoided and three where it is (the thick block class is always among
    them), not two or three; and the first pass over a fresh cluster ends
    once the StorageClusterInitialization is created, without a
    CephCluster. *)
Lemma fresh_cluster_creates_three_or_four_classes :
  let s := Fixture.stateOf
             (Fixture.withDependencies (Some (Fixture.pool (Some "Ready")))
                (Some (Fixture.filesystem (Some "Ready"))) Fixture.freshStore)
             Fixture.managed in
  let s0 := Fixture.stateOf Fixture.freshStore Fixture.managed in
  let r1 := Reconcile Fixture.env Fixture.repo Fixture.request s0 in
  createdClasses (issued s (ensureCreated Fixture.env Fixture.repo s).2)
  = [ ("", "ocsinit-cephfs"); ("", "ocsinit-ceph-rbd");
      ("", "ocsinit-ceph-rbd-thick"); ("", "ocsinit-ceph-rgw") ] /\
  createdClasses (issued s (ensureCreated Fixture.envCloud Fixture.repo s).2)
  = [ ("", "ocsinit-cephfs"); ("", "ocsinit-ceph-rbd");
      ("", "ocsinit-ceph-rbd-thick") ] /\
  r1.1 = Ok tt /\
  cephClusters (store r1.2) !! Fixture.request = None /\
  map (fun ev => (verb (ev_call ev), kind (ev_call ev))) (issued s0 r1.2)
  = [ (Get, KStorageCluster); (StatusUpdate, KStorageCluster);
      (Get, KStorageClusterInitialization); (Create, KStorageClusterInitialization) ].
Proof.
  repeat split; vm_compute; reflexivity.
Qed.

(** ** The checksum of the external secret (C4, C9) *)

Section ExternalSecret.
Context (E : Env) (R : Repo).

(** The Get of the external-cluster secret, and the bytes it holds under
    the details key. *)
Definition secretCall (s : State) : Call :=
  mkCall Get KSecret (om_Namespace (sc_Meta (instance s)), externalClusterDetailsSecret).

Definition payload (sec : Secret) : string :=
  mapIndex (sec_Data sec) externalClusterDetailsKey.

(** The secret can be fetched next, and hashing its payload does not fail. *)
Definition secretFetched (s : State) (sec : Secret) : Prop :=
  clientFault E (length (trace s)) (secretCall s) = None /\
  secrets (store s) !! key (secretCall s) = Some sec /\
  sha512WriteErr E (payload sec) = None.

(** The [*StorageCluster] of the pass with a new checksum in its status. *)
Definition withChecksum (s : State) (digest : string) : State :=
  setInstance s (withStatus (instance s)
                   (withExternalSecretHash (sc_Status (instance s)) digest)).

Lemma externalSecretDataChecksum_fetched s sec :
  secretFetched s sec ->
  externalSecretDataChecksum E s
  = (Ok (sha512Hex E (payload sec)), logEvent s (secretCall s) None).
Proof.
  intros (Hff & Hsec & Hw).
  unfold externalSecretDataChecksum, retrieveSecret, bind, getInstance, clientGet, liftE,
    sha512sum.
  simpl in *. unfold secretCall in Hff. rewrite Hff, Hsec. simpl.
  fold (payload sec). by rewrite Hw.
Qed.

(** The checksum step issues the Get of the secret and nothing else,
    whatever comes of it. *)
Lemma sameExternalSecretData_fetches s :
  exists o, issued s (sameExternalSecretData E s).2 = [ mkEvent (secretCall s) o ].
Proof.
  unfold sameExternalSecretData, externalSecretDataChecksum, retrieveSecret, bind, attempt,
    getInstance, clientGet, liftE, sha512sum, modifyStatus, ret. simpl.
  repeat (case_match; simplify_eq/=); eexists; by apply issued_app.
Qed.

Lemma sameExternalSecretData_same s sec :
  secretFetched s sec ->
  st_ExternalSecretHash (sc_Status (instance s)) = sha512Hex E (payload sec) ->
  sameExternalSecretData E s = (Ok true, logEvent s (secretCall s) None).
Proof.
  intros Hf Heq. unfold sameExternalSecretData, bind, attempt.
  rewrite (externalSecretDataChecksum_fetched s sec Hf).
  unfold getInstance. simpl. by rewrite bool_decide_eq_true_2.
Qed.

Lemma sameExternalSecretData_changed s sec :
  secretFetched s sec ->
  st_ExternalSecretHash (sc_Status (instance s)) <> sha512Hex E (payload sec) ->
  sameExternalSecretData E s
  = (Ok false, withChecksum (logEvent s (secretCall s) None) (sha512Hex E (payload sec))).
Proof.
  intros Hf Hne. unfold sameExternalSecretData, bind, attempt.
  rewrite (externalSecretDataChecksum_fetched s sec Hf).
  unfold getInstance. simpl. by rewrite bool_decide_eq_false_2.
Qed.

Lemma sameExternalSecretData_error s e s' :
  externalSecretDataChecksum E s = (Err e, s') ->
  sameExternalSecretData E s = (Ok false, s').
Proof. intros He. unfold sameExternalSecretData, bind, attempt. by rewrite He. Qed.

(** C4: ensureExternalStorageClusterResources first fetches the secret and
    hashes the bytes it holds now; when that digest equals the checksum in
    the status it returns nil and has done nothing but the Get of the
    secret (no record is dispatched, no object is written, the state is
    otherwise untouched); when it differs the synthesis,
    createExternalStorageClusterResources, runs, on the instance that
    already carries the new digest. *)
Theorem ensureExternalStorageClusterResources_digest_gate (s : State) (sec : Secret) :
  secretFetched s sec ->
  let digest := sha512Hex E (payload sec) in
  let fetched := logEvent s (secretCall s) None in
  (exists o, issued s (sameExternalSecretData E s).2 = [ mkEvent (secretCall s) o ]) /\
  (st_ExternalSecretHash (sc_Status (instance s)) = digest ->
   ensureExternalStorageClusterResources E R s = (Ok tt, fetched)) /\
  (st_ExternalSecretHash (sc_Status (instance s)) <> digest ->
   ensureExternalStorageClusterResources E R s
   = createExternalStorageClusterResources E R (withChecksum fetched digest)).
Proof.
  intros Hf digest fetched.
  split; [apply sameExternalSecretData_fetches|]. split.
  - intros Heq. unfold ensureExternalStorageClusterResources.
    by rewrite (bind_Ok _ _ _ _ _ (sameExternalSecretData_same s sec Hf Heq)).
  - intros Hne. unfold ensureExternalStorageClusterResources.
    by rewrite (bind_Ok _ _ _ _ _ (sameExternalSecretData_changed s sec Hf Hne)).
Qed.

End ExternalSecret.

Lemma ensureExternalStorageClusterResources_digest_gate_witness :
  let s := Fixture.stateOf (Fixture.externalStore "truncated")
             (Fixture.withHash "sha512:truncated") in
  ensureExternalStorageClusterResources Fixture.envExternal Fixture.repo s
  = (Ok tt, logEvent s (secretCall s) None).
Proof.
  intros s.
  edestruct (ensureExternalStorageClusterResources_digest_gate Fixture.envExternal
               Fixture.repo s (Fixture.detailsSecret "truncated")) as (_ & Hsame & _).
  - repeat split; vm_compute; reflexivity.
  - apply Hsame. reflexivity.
Defined.

(** ** What the record loop of the synthesizer writes (C2) *)

Section RecordLoop.
Context (E : Env) (R : Repo).

(** From [s] to [s'] nothing was written but config maps and secrets the
    records [ds] name, each created where none was: every other kind of
    object, and the [*StorageCluster] of the pass, are as they were. *)
Definition synthesized (ds : list ExternalResource) (s s' : State) : Prop :=
  instance s' = instance s /\
  storageClusters (store s') = storageClusters (store s) /\
  storageClusterInitializations (store s') = storageClusterInitializations (store s) /\
  cephClusters (store s') = cephClusters (store s) /\
  cephBlockPools (store s') = cephBlockPools (store s) /\
  cephFilesystems (store s') = cephFilesystems (store s) /\
  cephObjectStores (store s') = cephObjectStores (store s) /\
  storageClasses (store s') = storageClasses (store s) /\
  (forall k,
     configMaps (store s') !! k = configMaps (store s) !! k \/
     (configMaps (store s) !! k = None /\
      exists d, d ∈ ds /\ er_Kind d = "ConfigMap" /\
                k = (om_Namespace (sc_Meta (instance s)), er_Name d))) /\
  (forall k,
     secrets (store s') !! k = secrets (store s) !! k \/
     (secrets (store s) !! k = None /\
      exists d, d ∈ ds /\ er_Kind d = "Secret" /\
                k = (om_Namespace (sc_Meta (instance s)), er_Name d))).

Lemma synthesized_refl s : synthesized [] s s.
Proof. repeat split; auto. Qed.

Lemma synthesized_mono ds ds' s s' :
  ds ⊆ ds' -> synthesized ds s s' -> synthesized ds' s s'.
Proof.
  intros Hsub (Hi & H1 & H2 & H3 & H4 & H5 & H6 & H7 & Hcm & Hsec).
  repeat (split; [assumption|]). split.
  - intros k. destruct (Hcm k) as [?|(? & d & ? & ? & ?)]; [by left|].
    right. split; [done|]. exists d. repeat split; auto.
  - intros k. destruct (Hsec k) as [?|(? & d & ? & ? & ?)]; [by left|].
    right. split; [done|]. exists d. repeat split; auto.
Qed.

Lemma synthesized_trans ds1 ds2 s1 s2 s3 :
  synthesized ds1 s1 s2 -> synthesized ds2 s2 s3 -> synthesized (ds1 ++ ds2) s1 s3.
Proof.
  intros (Hi & H1 & H2 & H3 & H4 & H5 & H6 & H7 & Hcm & Hsec)
         (Hi' & H1' & H2' & H3' & H4' & H5' & H6' & H7' & Hcm' & Hsec').
  split; [congruence|]. do 7 (split; [congruence|]). split.
  - intros k. destruct (Hcm' k) as [Heq|(Hn & d & Hd & Hk & Hkey)].
    + rewrite Heq. destruct (Hcm k) as [?|(? & d & ? & ? & ?)]; [by left|].
      right. split; [done|]. exists d. split; [set_solver|done].
    + destruct (Hcm k) as [Heq|(? & d' & ? & ? & ?)].
      * right. split; [congruence|]. exists d. split; [set_solver|].
        split; [done|]. by rewrite <- Hi.
      * right. split; [done|]. exists d'. split; [set_solver|done].
  - intros k. destruct (Hsec' k) as [Heq|(Hn & d & Hd & Hk & Hkey)].
    + rewrite Heq. destruct (Hsec k) as [?|(? & d & ? & ? & ?)]; [by left|].
      right. split; [done|]. exists d. split; [set_solver|done].
    + destruct (Hsec k) as [Heq|(? & d' & ? & ? & ?)].
      * right. split; [congruence|]. exists d. split; [set_solver|].
        split; [done|]. by rewrite <- Hi.
      * right. split; [done|]. exists d'. split; [set_solver|done].
Qed.

(** An iteration that does not return a value has written nothing; one that
    does has at most created the config map or the secret of its record. *)
Lemma createExternalStorageClusterResources_iter_writes st d s :
  let r := createExternalStorageClusterResources_iter E R st d s in
  synthesized [d] s r.2 /\
  ((forall st', r.1 <> Ok st') -> store r.2 = store s).
Proof.
  unfold createExternalStorageClusterResources_iter, createExternalStorageClusterConfigMap,
    createExternalStorageClusterSecret, bind, attempt, getInstance, clientGet, clientCreate,
    liftE, lift, ret, fail. simpl.
  repeat (case_match; simplify_eq/=);
    unfold keyOf in *; simpl in *;
    repeat match goal with
           | H : bool_decide _ = true |- _ => apply bool_decide_eq_true_1 in H
           end;
    (split;
     [ repeat (split; [reflexivity|]); split; intros k; simpl;
       first [ by left
             | rewrite lookup_insert;
               match goal with
               | |- context [decide (?a = ?b)] => destruct (decide (a = b)) as [<-|?]
               end;
               [ right; split; [assumption|]; eexists; split; [apply list_elem_of_here|];
                 split; [assumption|reflexivity]
               | by left ] ]
     | first [ reflexivity | intros Hn; exfalso; by eapply Hn ] ]).
Qed.

Lemma createExternalStorageClusterResources_loop_Ok st data s st' s' :
  createExternalStorageClusterResources_loop E R st data s = (Ok st', s') ->
  synthesized data s s'.
Proof.
  revert st s. induction data as [|d data IH]; intros st s Hrun; simpl in Hrun.
  - injection Hrun as _ <-. apply synthesized_refl.
  - unfold bind in Hrun.
    pose proof (createExternalStorageClusterResources_iter_writes st d s) as [Hd _].
    destruct (createExternalStorageClusterResources_iter E R st d s) as [[st1|e|p] s1];
      simpl in *; try discriminate.
    apply (synthesized_trans [d] data s s1 s'); [done|]. by eapply IH.
Qed.

Lemma createExternalStorageClusterResources_loop_app st pre post s :
  createExternalStorageClusterResources_loop E R st (pre ++ post) s
  = bind (createExternalStorageClusterResources_loop E R st pre)
      (fun st' => createExternalStorageClusterResources_loop E R st' post) s.
Proof.
  revert st s. induction pre as [|d pre IH]; intros st s; simpl; [done|].
  unfold bind in *.
  destruct (createExternalStorageClusterResources_iter E R st d s) as [[st1|e|p] s1];
    try reflexivity.
  apply IH.
Qed.

(** C2, as amended.  When json.Unmarshal fails,
    createExternalStorageClusterResources returns its error having only
    read the secret.  When a record fails after the records before it were
    processed, the function returns that record's error at once: no record
    after it is looked at, no storage class or object store is created (the
    calls that create them come after the loop), and the store differs from
    the one before the pass only by config maps and secrets named by the
    records before the failing one, each created where none existed. *)
Theorem createExternalStorageClusterResources_failed_record
  (s : State) (sec : Secret) (scs0 : list StorageClass) :
  let fetched := logEvent s (secretCall s) None in
  let st0 := mkExtLoop scs0 [None; None; None] false [] in
  newStorageClasses R (instance s) = Ok scs0 ->
  clientFault E (length (trace s)) (secretCall s) = None ->
  secrets (store s) !! key (secretCall s) = Some sec ->
  (forall e,
     jsonUnmarshal E (payload sec) = inl e ->
     createExternalStorageClusterResources E R s = (Err e, fetched))
  /\
  (forall pre d post st1 s2 e s3,
     jsonUnmarshal E (payload sec) = inr (pre ++ d :: post) ->
     createExternalStorageClusterResources_loop E R st0 pre fetched = (Ok st1, s2) ->
     createExternalStorageClusterResources_iter E R st1 d s2 = (Err e, s3) ->
     createExternalStorageClusterResources E R s = (Err e, s3) /\
     store s3 = store s2 /\
     synthesized pre s s3).
Proof.
  intros fetched st0 Hscs Hff Hsec.
  assert (Hdata : forall data, jsonUnmarshal E (payload sec) = data ->
            createExternalStorageClusterResources E R s
            = match data with
              | inl e => (Err e, fetched)
              | inr data =>
                  bind (createExternalStorageClusterResources_loop E R st0 data)
                    (fun st =>
                       createStorageClasses_reqLogger R
                         (map (fun p => i ← p; scs st !! i) (availableSCs st)) ;;;
                       setRookCSICephFS E (enableRookCSICephFS st) ;;;
                       match extCephObjectStores st with
                       | [] => ret tt
                       | stores => createCephObjectStores_reqLogger R stores
                       end) fetched
              end).
  { intros data Hd.
    unfold createExternalStorageClusterResources, retrieveExternalSecretData,
      retrieveSecret.
    unfold bind at 1. unfold getInstance at 1.
    unfold bind at 1. unfold lift at 1. rewrite Hscs.
    unfold bind at 1. unfold bind at 1. unfold bind at 1. unfold getInstance at 1.
    unfold clientGet. simpl. unfold secretCall in Hff, Hsec. simpl in Hff, Hsec.
    rewrite Hff, Hsec. unfold liftE. fold (payload sec). rewrite Hd.
    destruct data; reflexivity. }
  split.
  - intros e He. by rewrite (Hdata _ He).
  - intros pre d post st1 s2 e s3 Hd Hpre Hit.
    pose proof (createExternalStorageClusterResources_iter_writes st1 d s2) as [_ Hst].
    rewrite Hit in Hst. simpl in Hst.
    assert (Hs3 : store s3 = store s2) by (apply Hst; discriminate).
    split; [|split; [exact Hs3|]].
    + rewrite (Hdata _ Hd). unfold bind at 1.
      rewrite createExternalStorageClusterResources_loop_app.
      rewrite (bind_Ok _ _ _ _ _ Hpre). simpl. unfold bind at 1. by rewrite Hit.
    + pose proof (createExternalStorageClusterResources_loop_Ok _ _ _ _ _ Hpre) as Hsyn.
      pose proof (createExternalStorageClusterResources_iter_writes st1 d s2) as [Hd' _].
      rewrite Hit in Hd'. simpl in Hd'.
      destruct Hsyn as (Hi & H1 & H2 & H3 & H4 & H5 & H6 & H7 & Hcm & Hse).
      destruct Hd' as (Hi' & _).
      split; [by rewrite Hi'|]. rewrite Hs3.
      by repeat split.
Qed.

End RecordLoop.

Lemma createExternalStorageClusterResources_failed_record_witness :
  let s := Fixture.stateOf (Fixture.externalStore Fixture.brokenDetails)
             (Fixture.withHash "") in
  let r := createExternalStorageClusterResources Fixture.envExternal Fixture.repo s in
  r.1 = Err (Errorf "Monitoring Endpoint not present in the external cluster secret rook-ceph-external-cluster-details") /\
  storageClasses (store r.2) = storageClasses (store s) /\
  cephObjectStores (store r.2) = cephObjectStores (store s).
Proof.
  intros s r.
  pose (pre := [ mkExternalResource "ConfigMap" {[ "data" := "a=10.0.0.7:6789" ]}
                   "rook-ceph-mon-endpoints" ]).
  pose (d := mkExternalResource "CephCluster" {[ "MonitoringPort" := "9283" ]}
               "monitoring-endpoint").
  pose (st0 := mkExtLoop [] [None; None; None] false []).
  pose (run := createExternalStorageClusterResources_loop Fixture.envExternal Fixture.repo
                 (mkExtLoop (match newStorageClasses Fixture.repo (instance s) with
                             | Ok l => l | _ => [] end) [None; None; None] false [])
                 pre (logEvent s (secretCall s) None)).
  pose (st1 := match run.1 with Ok st => st | _ => st0 end).
  edestruct (createExternalStorageClusterResources_failed_record Fixture.envExternal
               Fixture.repo s (Fixture.detailsSecret Fixture.brokenDetails))
    as [_ Hrecord].
  - reflexivity.
  - reflexivity.
  - vm_compute. reflexivity.
  - edestruct (Hrecord pre d [] st1 run.2
                 (Errorf "Monitoring Endpoint not present in the external cluster secret rook-ceph-external-cluster-details")
                 (createExternalStorageClusterResources_iter Fixture.envExternal
                    Fixture.repo st1 d run.2).2)
      as (Hrun & _ & Hsyn).
    + reflexivity.
    + vm_compute. reflexivity.
    + vm_compute. reflexivity.
    + destruct Hsyn as (_ & _ & _ & _ & _ & _ & Hstores & Hclasses & _).
      subst r. rewrite Hrun. split; [reflexivity|]. split; assumption.
Defined.

(** C2 fails as stated: a config map record is created as soon as the loop
    meets it, so when a later record fails (here the connection-info record
    lacks its monitoring endpoint) the pass fails and yet the config map of
    the earlier record exists afterward, where none existed before. *)
Lemma createExternalStorageClusterResources_keeps_earlier_config_map :
  let s := Fixture.stateOf (Fixture.externalStore Fixture.brokenDetails)
             (Fixture.withHash "") in
  let r := createExternalStorageClusterResources Fixture.envExternal Fixture.repo s in
  let k := (Fixture.ns, "rook-ceph-mon-endpoints") in
  jsonUnmarshal Fixture.envExternal Fixture.brokenDetails = inr Fixture.brokenRecords /\
  r.1 = Err (Errorf "Monitoring Endpoint not present in the external cluster secret rook-ceph-external-cluster-details") /\
  configMaps (store s) !! k = None /\
  (cm_Data <$> configMaps (store r.2) !! k) = Some {[ "data" := "a=10.0.0.7:6789" ]} /\
  map (fun ev => (verb (ev_call ev), kind (ev_call ev), key (ev_call ev))) (issued s r.2)
  = [ (Get, KSecret, (Fixture.ns, "rook-ceph-external-cluster-details"));
      (Get, KConfigMap, k); (Create, KConfigMap, k) ].
Proof.
  repeat split; vm_compute; reflexivity.
Qed.

(** ** The checksum is overwritten before the synthesis (C9) *)

Section ChecksumBeforeSynthesis.
Context (E : Env) (R : Repo).

(** A computation that leaves the [*StorageCluster] of the pass as it was. *)
Definition keepsInstance {A} (m : M A) : Prop :=
  forall s, instance (m s).2 = instance s.

(** The two helpers of the synthesizer that are not among these files write
    objects through the client and leave the [*StorageCluster] of the pass
    alone. *)
Definition repoKeepsInstance : Prop :=
  (forall classes, keepsInstance (createStorageClasses_reqLogger R classes)) /\
  (forall stores, keepsInstance (createCephObjectStores_reqLogger R stores)).

Lemma keepsInstance_bind {A B} (m : M A) (k : A -> M B) :
  keepsInstance m -> (forall a, keepsInstance (k a)) -> keepsInstance (bind m k).
Proof.
  intros Hm Hk s. unfold bind. specialize (Hm s).
  destruct (m s) as [[a|e|p] s']; simpl in *; try done.
  by rewrite Hk.
Qed.

Lemma keepsInstance_clientGet `{Resource A} (k : Key) :
  keepsInstance (clientGet E (A:=A) k).
Proof. intros s. unfold clientGet. by repeat case_match. Qed.

Lemma keepsInstance_clientUpdate `{Resource A} (o : A) :
  keepsInstance (clientUpdate E o).
Proof. intros s. unfold clientUpdate. by repeat case_match. Qed.

Lemma keepsInstance_setRookCSICephFS (flag : bool) :
  keepsInstance (setRookCSICephFS E flag).
Proof.
  unfold setRookCSICephFS.
  apply keepsInstance_bind; [by intros ?|]. intros i.
  apply keepsInstance_bind; [apply keepsInstance_clientGet|]. intros c.
  repeat case_match; try (by intros ?); apply keepsInstance_clientUpdate.
Qed.

Lemma keepsInstance_loop st data :
  keepsInstance (createExternalStorageClusterResources_loop E R st data).
Proof.
  revert st. induction data as [|d data IH]; intros st; simpl; [by intros ?|].
  apply keepsInstance_bind; [|done].
  intros s.
  by destruct (createExternalStorageClusterResources_iter_writes E R st d s) as [(Hi & _) _].
Qed.

Lemma createExternalStorageClusterResources_keepsInstance :
  repoKeepsInstance -> keepsInstance (createExternalStorageClusterResources E R).
Proof.
  intros [Hsc Hos].
  unfold createExternalStorageClusterResources, retrieveExternalSecretData, retrieveSecret.
  apply keepsInstance_bind; [by intros ?|]. intros i.
  apply keepsInstance_bind; [by intros ?|]. intros scs0.
  apply keepsInstance_bind.
  { apply keepsInstance_bind.
    - apply keepsInstance_bind; [by intros ?|]. intros ?. apply keepsInstance_clientGet.
    - intros f s. unfold liftE. by case_match. }
  intros data. apply keepsInstance_bind; [apply keepsInstance_loop|]. intros st.
  apply keepsInstance_bind; [apply Hsc|]. intros _.
  apply keepsInstance_bind; [apply keepsInstance_setRookCSICephFS|]. intros _.
  destruct (extCephObjectStores st); [by intros ?|apply Hos].
Qed.

(** A pass that goes on to its ensurers has fetched the requested object,
    and carries the checksum of that object's status. *)
Lemma reconcilePrologue_checksum request s s0 :
  reconcilePrologue E request s = (Ok true, s0) ->
  exists fetched,
    storageClusters (store s) !! request = Some fetched /\
    st_ExternalSecretHash (sc_Status (instance s0))
    = st_ExternalSecretHash (sc_Status fetched).
Proof.
  unfold reconcilePrologue, checkStorageClusterInitialization, bind, attempt, clientGet,
    clientCreate, clientStatusUpdate, putInstance, modifyStatus, getInstance, liftE, ret,
    fail.
  simpl. intros Hrun.
  repeat (case_match; simplify_eq/=); eexists; (split; [reflexivity|reflexivity]).
Qed.

(** C9: when the digest of the secret's bytes differs from the checksum in
    the status, sameExternalSecretData writes the new digest into the
    in-memory status and returns false, and the synthesis runs on that
    state.  When the synthesis then fails, Reconcile returns its error
    through the failure branch, which still updates the status: the update
    carries the new digest, and once the client has accepted it the stored
    object holds it, so that a following pass which fetches that object and
    finds the same bytes in the secret returns nil from
    ensureExternalStorageClusterResources after the Get of the secret
    alone, without any synthesis.  And whenever fetching or hashing the
    secret fails, sameExternalSecretData returns false without an error. *)
Theorem sameExternalSecretData_overwrites_checksum
  (pre post : list (M unit)) (request : Key) (s s0 s1 s2 : State)
  (sec : Secret) (e : error) :
  let digest := sha512Hex E (payload sec) in
  let fetched := logEvent s1 (secretCall s1) None in
  let r := Reconcile_with E (pre ++ ensureExternalStorageClusterResources E R :: post)
             request s in
  repoKeepsInstance ->
  reconcilePrologue E request s = (Ok true, s0) ->
  succeedAll pre (setConditions s0 []) s1 ->
  keyOf (sc_Meta (instance s1)) = request ->
  secretFetched E s1 sec ->
  st_ExternalSecretHash (sc_Status (instance s1)) <> digest ->
  createExternalStorageClusterResources E R (withChecksum fetched digest) = (Err e, s2) ->
  sameExternalSecretData E s1 = (Ok false, withChecksum fetched digest) /\
  st_ExternalSecretHash (sc_Status (instance (withChecksum fetched digest))) = digest /\
  ensureExternalStorageClusterResources E R s1 = (Err e, s2) /\
  r.1 = Err e /\
  st_ExternalSecretHash (sc_Status (instance r.2)) = digest /\
  (exists o,
     issued s2 r.2 = [ mkEvent (mkCall StatusUpdate KStorageCluster request) o ] /\
     (o = None ->
      exists stored,
        storageClusters (store r.2) !! request = Some stored /\
        st_ExternalSecretHash (sc_Status stored) = digest /\
        forall s' s0' sec',
          storageClusters (store s') !! request = Some stored ->
          reconcilePrologue E request s' = (Ok true, s0') ->
          secretFetched E (setConditions s0' []) sec' ->
          payload sec' = payload sec ->
          ensureExternalStorageClusterResources E R (setConditions s0' [])
          = (Ok tt, logEvent (setConditions s0' []) (secretCall (setConditions s0' [])) None)))
  /\
  (forall t e' t',
     externalSecretDataChecksum E t = (Err e', t') ->
     sameExternalSecretData E t = (Ok false, t')).
Proof.
  intros digest fetched r Hrepo Hpro Hpre Hkey Hf Hne Hsyn.
  pose proof (sameExternalSecretData_changed E s1 sec Hf Hne) as Hsame.
  fold digest in Hsame. fold fetched in Hsame.
  assert (Hens : ensureExternalStorageClusterResources E R s1 = (Err e, s2)).
  { unfold ensureExternalStorageClusterResources.
    by rewrite (bind_Ok _ _ _ _ _ Hsame). }
  assert (Hinst : instance s2 = instance (withChecksum fetched digest)).
  { pose proof (createExternalStorageClusterResources_keepsInstance Hrepo
                  (withChecksum fetched digest)) as Hk.
    by rewrite Hsyn in Hk. }
  assert (Hr : r = reconcileFailed E e s2)
    by (by eapply Reconcile_with_fails).
  destruct (reconcileFailed_spec E e s2) as (Herr & Hri & o & Hupd & Hstored).
  rewrite <- Hr in Herr, Hri, Hupd, Hstored.
  assert (Hk2 : keyOf (sc_Meta (instance s2)) = request) by (by rewrite Hinst).
  rewrite Hk2 in Hupd, Hstored.
  assert (Hdig : st_ExternalSecretHash (sc_Status (instance r.2)) = digest)
    by (by rewrite Hri, Hinst).
  split; [exact Hsame|]. split; [reflexivity|]. split; [exact Hens|].
  split; [exact Herr|]. split; [exact Hdig|]. split.
  - exists o. split; [exact Hupd|]. intros Ho.
    destruct (Hstored Ho) as (stored & Hlook & Hst).
    exists stored. split; [exact Hlook|].
    assert (Hsd : st_ExternalSecretHash (sc_Status stored) = digest)
      by (by rewrite Hst).
    split; [exact Hsd|].
    intros s' s0' sec' Hlook' Hpro' Hf' Hpay.
    destruct (reconcilePrologue_checksum _ _ _ Hpro') as (got & Hgot & Hhash).
    rewrite Hlook' in Hgot. injection Hgot as <-.
    unfold ensureExternalStorageClusterResources.
    rewrite (bind_Ok _ _ _ _ _
               (sameExternalSecretData_same E (setConditions s0' []) sec' Hf'
                  ltac:(simpl; rewrite Hhash, Hsd, Hpay; reflexivity))).
    reflexivity.
  - intros t e' t'. apply sameExternalSecretData_error.
Qed.

End ChecksumBeforeSynthesis.

Lemma sameExternalSecretData_overwrites_checksum_witness :
  let s := Fixture.stateOf (Fixture.externalStore "truncated") Fixture.managed in
  let r := Reconcile_with Fixture.envExternal
             [ensureExternalStorageClusterResources Fixture.envExternal Fixture.repo]
             Fixture.request s in
  r.1 = Err (Errorf "unexpected end of JSON input") /\
  st_ExternalSecretHash (sc_Status (instance r.2)) = "sha512:truncated" /\
  (st_ExternalSecretHash ∘ sc_Status <$> storageClusters (store r.2) !! Fixture.request)
  = Some "sha512:truncated".
Proof.
  intros s r.
  edestruct (sameExternalSecretData_overwrites_checksum Fixture.envExternal Fixture.repo
               [] [] Fixture.request s (reconcilePrologue Fixture.envExternal Fixture.request s).2
               (setConditions (reconcilePrologue Fixture.envExternal Fixture.request s).2 [])
               (ensureExternalStorageClusterResources Fixture.envExternal Fixture.repo
                  (setConditions
                     (reconcilePrologue Fixture.envExternal Fixture.request s).2 [])).2
               (Fixture.detailsSecret "truncated")
               (Errorf "unexpected end of JSON input"))
    as (_ & _ & _ & Herr & Hdig & _).
  - split; intros ? ?; reflexivity.
  - vm_compute. reflexivity.
  - reflexivity.
  - reflexivity.
  - repeat split; vm_compute; reflexivity.
  - vm_compute. discriminate.
  - vm_compute. reflexivity.
  - split; [exact Herr|]. split; [exact Hdig|]. vm_compute. reflexivity.
Defined.

(** * Further properties of the engine *)

(** ** The storage-class manager at rest (createStorageClasses) *)

Section SteadyClasses.
Context (E : Env).

(** The class of a configuration asks for no work: the configuration is
    skipped, or its class is in the store and is either under Init or
    unmarked with the desired parameters. *)
Definition settled (scc : StorageClassConfiguration) (st : Store) : Prop :=
  reconcileStrategy scc = ReconcileStrategyIgnore \/ disable scc = true \/
  exists existing,
    storageClasses st !! keyOf (scl_Meta (storageClass scc)) = Some existing /\
    (reconcileStrategy scc = ReconcileStrategyInit \/
     (om_DeletionTimestamp (scl_Meta existing) = None /\
      scl_Parameters (storageClass scc) = scl_Parameters existing)).

(** The events of reads that succeeded. *)
Definition onlyReads (evs : list Event) : Prop :=
  Forall (fun ev => verb (ev_call ev) = Get /\ ev_err ev = None) evs.

Lemma createStorageClasses_iter_settled scc s :
  settled scc (store s) ->
  clientFault E (length (trace s))
    (mkCall Get KStorageClass (keyOf (scl_Meta (storageClass scc)))) = None ->
  let r := createStorageClasses_iter E scc s in
  r.1 = Ok tt /\ store r.2 = store s /\
  exists evs, trace r.2 = trace s ++ evs /\ onlyReads evs /\ (length evs <= 1)%nat.
Proof.
  intros Hset Hff. unfold createStorageClasses_iter.
  destruct Hset as [Hign|[Hdis|(existing & Hex & Hwhy)]].
  - rewrite Hign. simpl. repeat split.
    exists []. rewrite app_nil_r. repeat split; [constructor|simpl; lia].
  - rewrite Hdis, orb_true_r. simpl. repeat split.
    exists []. rewrite app_nil_r. repeat split; [constructor|simpl; lia].
  - destruct (bool_decide _ || disable scc).
    { simpl. repeat split.
      exists []. rewrite app_nil_r. repeat split; [constructor|simpl; lia]. }
    unfold bind, attempt, clientGet. simpl. rewrite Hff, Hex. simpl.
    destruct Hwhy as [Hinit|[Hdel Hpar]].
    + rewrite Hinit. simpl. repeat split.
      eexists. split; [reflexivity|]. split; [by repeat constructor|simpl; lia].
    + destruct (bool_decide (reconcileStrategy scc = ReconcileStrategyInit)).
      * simpl. repeat split.
        eexists. split; [reflexivity|]. split; [by repeat constructor|simpl; lia].
      * rewrite Hdel, Hpar. rewrite bool_decide_eq_true_2 by done. simpl.
        repeat split.
        eexists. split; [reflexivity|]. split; [by repeat constructor|simpl; lia].
Qed.

Lemma createStorageClasses_settled sccs s :
  Forall (fun scc => settled scc (store s)) sccs ->
  faultFreeFrom E (length (trace s)) ->
  let r := createStorageClasses E sccs s in
  r.1 = Ok tt /\ store r.2 = store s /\
  exists evs, trace r.2 = trace s ++ evs /\ onlyReads evs.
Proof.
  revert s. induction sccs as [|scc sccs IH]; intros s Hall Hff; simpl.
  - repeat split. exists []. rewrite app_nil_r. split; [done|constructor].
  - apply Forall_cons in Hall as [Hscc Hall].
    destruct (createStorageClasses_iter_settled scc s Hscc) as (Hok & Hst & evs & Htr & Hev & _).
    { apply Hff. lia. }
    unfold bind.
    destruct (createStorageClasses_iter E scc s) as [[[]|e|p] s1]; simpl in *; try done.
    destruct (IH s1) as (Hok' & Hst' & evs' & Htr' & Hev').
    + by rewrite Hst.
    + intros m c Hm. apply Hff. rewrite Htr, length_app in Hm. lia.
    + split; [done|]. split; [congruence|].
      exists (evs ++ evs'). split; [by rewrite Htr', Htr, app_assoc|by apply Forall_app].
Qed.

(** An iteration that returned nil has left the class of its configuration
    settled. *)
Lemma createStorageClasses_iter_settles scc s s' :
  wellKeyed (A:=StorageClass) (store s) ->
  om_DeletionTimestamp (scl_Meta (storageClass scc)) = None ->
  createStorageClasses_iter E scc s = (Ok tt, s') ->
  settled scc (store s').
Proof.
  intros Hwk Hdel. unfold createStorageClasses_iter, settled.
  destruct (decide (reconcileStrategy scc = ReconcileStrategyIgnore)) as [Hign|Hign];
    [intros _; by left|].
  rewrite (bool_decide_eq_false_2 _ Hign).
  destruct (disable scc) eqn:Hdis; [intros _; right; by left|].
  simpl. unfold bind, attempt, clientGet, clientCreate, clientDelete, ret, fail. simpl.
  intros Hrun. right. right.
  repeat (case_match; simplify_eq/=);
    repeat match goal with
           | H : bool_decide _ = true |- _ => apply bool_decide_eq_true_1 in H
           end;
    try match goal with
    | H : storageClasses (store s) !! _ = Some ?o |- _ =>
        let Hk := fresh "Hk" in
        pose proof (Hwk _ _ H) as Hk; simpl in Hk; rewrite ?Hk in *
    end;
    try (eexists; split; [apply lookup_insert_eq|]; right; by split);
    try (eexists; split; [eassumption|]);
    first [ by left | right; by split ].
Qed.

(** A pass leaves alone every class none of its configurations names. *)
Lemma createStorageClasses_others sccs k s :
  k ∉ map (fun scc => keyOf (scl_Meta (storageClass scc))) sccs ->
  classesWellKeyed s ->
  let s' := (createStorageClasses E sccs s).2 in
  classesWellKeyed s' /\
  storageClasses (store s') !! k = storageClasses (store s) !! k.
Proof.
  intros Hk Hwk.
  destruct (createStorageClasses_respects E (classUntouched k) sccs
              (classUntouched_refl k) (classUntouched_trans k)) with (s := s)
    as (Hwk' & evs & _ & _ & Hsame); [|done|by split].
  intros scc Hin. apply createStorageClasses_iter_ignore.
  intros Heq. exfalso. apply Hk. rewrite <- Heq.
  apply list_elem_of_fmap. by exists scc.
Qed.

Lemma createStorageClasses_settles sccs s s' :
  classesWellKeyed s ->
  NoDup (map (fun scc => keyOf (scl_Meta (storageClass scc))) sccs) ->
  Forall (fun scc => om_DeletionTimestamp (scl_Meta (storageClass scc)) = None) sccs ->
  createStorageClasses E sccs s = (Ok tt, s') ->
  Forall (fun scc => settled scc (store s')) sccs.
Proof.
  revert s. induction sccs as [|scc sccs IH]; intros s Hwk Hnd Hdel Hrun; [constructor|].
  apply NoDup_cons in Hnd as [Hnotin Hnd]. apply Forall_cons in Hdel as [Hd Hdel].
  simpl in Hrun. unfold bind in Hrun.
  destruct (createStorageClasses_iter E scc s) as [[[]|e|p] s1] eqn:Hiter; try done.
  pose proof (createStorageClasses_iter_settles scc s s1 Hwk Hd Hiter) as Hset.
  pose proof (createStorageClasses_iter_footprint E scc s Hwk) as (Hwk1 & _).
  rewrite Hiter in Hwk1. simpl in Hwk1.
  apply Forall_cons. split.
  - destruct (createStorageClasses_others sccs _ s1 Hnotin Hwk1) as (_ & Hsame).
    rewrite Hrun in Hsame. simpl in Hsame.
    unfold settled in *. by rewrite Hsame.
  - by apply (IH s1).
Qed.

(** X1.  createStorageClasses is idempotent.  After a pass that returned nil
    over configurations of distinct classes (none of them built with a
    deletion timestamp), a second pass over the same configurations, on the
    store the first one left and with a client that answers, returns nil,
    issues only Gets that succeed, and leaves the store as it is. *)
Theorem createStorageClasses_idempotent
  (sccs : list StorageClassConfiguration) (s s1 s2 : State) :
  classesWellKeyed s ->
  NoDup (map (fun scc => keyOf (scl_Meta (storageClass scc))) sccs) ->
  Forall (fun scc => om_DeletionTimestamp (scl_Meta (storageClass scc)) = None) sccs ->
  createStorageClasses E sccs s = (Ok tt, s1) ->
  store s2 = store s1 ->
  faultFreeFrom E (length (trace s2)) ->
  let r := createStorageClasses E sccs s2 in
  r.1 = Ok tt /\ store r.2 = store s2 /\ onlyReads (issued s2 r.2).
Proof.
  intros Hwk Hnd Hdel Hrun Hst Hff r.
  pose proof (createStorageClasses_settles sccs s s1 Hwk Hnd Hdel Hrun) as Hset.
  rewrite <- Hst in Hset.
  destruct (createStorageClasses_settled sccs s2 Hset Hff) as (Hok & Hsame & evs & Htr & Hev).
  split; [done|]. split; [done|]. subst r. by rewrite (issued_app _ _ _ Htr).
Qed.

End SteadyClasses.

Lemma createStorageClasses_idempotent_witness :
  let sccs := [Fixture.rbdWanted "manage"] in
  let s := Fixture.stateOf (Fixture.withClasses [Fixture.rbdStale] Fixture.freshStore)
             Fixture.managed in
  let s1 := (createStorageClasses Fixture.env sccs s).2 in
  let r := createStorageClasses Fixture.env sccs s1 in
  r.1 = Ok tt /\ store r.2 = store s1 /\ onlyReads (issued s1 r.2).
Proof.
  intros sccs s s1 r.
  apply (createStorageClasses_idempotent Fixture.env sccs s s1 s1).
  - intros k o Ho. unfold s, Fixture.stateOf, Fixture.withClasses in Ho. simpl in Ho.
    apply lookup_insert_Some in Ho as [[<- <-]|[_ Ho]]; [reflexivity|].
    by rewrite lookup_empty in Ho.
  - apply NoDup_singleton.
  - repeat constructor.
  - vm_compute. reflexivity.
  - reflexivity.
  - intros m c _. reflexivity.
Defined.

(** ** The window between Delete and Create (createStorageClasses) *)

(** [E] with a client that fails its [n]-th call with [e], whatever the
    call, and answers every other call as the client of [E] does. *)
Definition failingAt (E : Env) (n : nat) (e : error) : Env :=
  mkEnv (fun m c => if decide (m = n) then Some e else clientFault E m c)
    (now E) (cephImage E) (setControllerReferenceErr E) (getReferenceErr E)
    (GetPlatform E) (sha512WriteErr E) (sha512Hex E) (jsonUnmarshal E)
    (DialTimeout E) (LookupIP E) (SplitHostPort E) (JoinHostPort E) (ParseInt32 E)
    (TrimSpace E) (readySetErr E) (readyUnsetErr E).

Section CrashWindow.
Context (E : Env).

(** X2.  Delete-then-create is not transactional.  When a drifted class
    under Manage is deleted and the Create that follows fails, the iteration
    returns the error of the Create and the class is absent from the store;
    an iteration on that store with a client that answers then creates the
    desired class from nothing, with a Get and a Create. *)
Theorem createStorageClasses_iter_crash_window
  (scc : StorageClassConfiguration) (existing : StorageClass) (s : State) (e : error) :
  let k := keyOf (scl_Meta (storageClass scc)) in
  let n := length (trace s) in
  reconcileStrategy scc <> ReconcileStrategyIgnore ->
  reconcileStrategy scc <> ReconcileStrategyInit ->
  disable scc = false ->
  storageClasses (store s) !! k = Some existing ->
  keyOf (scl_Meta existing) = k ->
  om_DeletionTimestamp (scl_Meta existing) = None ->
  scl_Parameters (storageClass scc) <> scl_Parameters existing ->
  clientFault E n (mkCall Get KStorageClass k) = None ->
  clientFault E (S n) (mkCall Delete KStorageClass k) = None ->
  clientFault E (S (S n)) (mkCall Create KStorageClass k) = Some e ->
  let r := createStorageClasses_iter E scc s in
  r.1 = Err e /\
  storageClasses (store r.2) !! k = None /\
  (forall s',
     storageClasses (store s') !! k = None ->
     faultFreeFrom E (length (trace s')) ->
     let r' := createStorageClasses_iter E scc s' in
     r'.1 = Ok tt /\
     storageClasses (store r'.2) !! k = Some (storageClass scc) /\
     issued s' r'.2 = creationOf scc).
Proof.
  intros k n Hign Hinit Hdis Hex Hkey Hdel Hpar Hget Hdelete Hcreate r.
  assert (Hhead : bool_decide (reconcileStrategy scc = ReconcileStrategyIgnore)
                  || disable scc = false).
  { by rewrite Hdis, bool_decide_eq_false_2. }
  assert (Hdelete' : forall ev, clientFault E (length (trace s ++ [ev]))
                                  (mkCall Delete KStorageClass k) = None).
  { intros ev. rewrite length_app. simpl.
    by replace (length (trace s) + 1)%nat with (S n) by (subst n; lia). }
  assert (Hcreate' : forall ev ev', clientFault E (length ((trace s ++ [ev]) ++ [ev']))
                                      (mkCall Create KStorageClass k) = Some e).
  { intros ev ev'. rewrite !length_app. simpl.
    by replace (length (trace s) + 1 + 1)%nat with (S (S n)) by (subst n; lia). }
  assert (Hrun : r = (Err e,
                      logEvent
                        (setStore
                           (logEvent (logEvent s (mkCall Get KStorageClass k) None)
                              (mkCall Delete KStorageClass k) None)
                           (setObjects (delete k (storageClasses (store s))) (store s)))
                        (mkCall Create KStorageClass k) (Some e))).
  { subst r. unfold createStorageClasses_iter. rewrite Hhead.
    unfold bind, attempt, clientGet, clientDelete, clientCreate. simpl.
    fold k. fold n. rewrite Hget, Hex. simpl.
    rewrite bool_decide_eq_false_2 by done. rewrite Hdel.
    rewrite bool_decide_eq_false_2 by done. rewrite Hkey.
    simpl. rewrite Hdelete', Hex. simpl. by rewrite Hcreate'. }
  split; [|split].
  - by rewrite Hrun.
  - rewrite Hrun. simpl. apply lookup_delete_eq.
  - intros s' Habs Hff r'. subst r'.
    unfold createStorageClasses_iter. rewrite Hhead.
    unfold bind, attempt, clientGet, clientCreate. simpl. fold k.
    rewrite Hff by lia. rewrite Habs. simpl.
    rewrite Hff by (rewrite length_app; simpl; lia). rewrite Habs. simpl.
    split; [done|]. split; [apply lookup_insert_eq|].
    apply issued_app. simpl. by rewrite <- app_assoc.
Qed.

End CrashWindow.

Lemma createStorageClasses_iter_crash_window_witness :
  let E := failingAt Fixture.env 2 (Errorf "etcdserver: request timed out") in
  let s := Fixture.stateOf (Fixture.withClasses [Fixture.rbdStale] Fixture.freshStore)
             Fixture.managed in
  let r := createStorageClasses_iter E (Fixture.rbdWanted "manage") s in
  r.1 = Err (Errorf "etcdserver: request timed out") /\
  storageClasses (store r.2) !! Fixture.rbdKey = None.
Proof.
  intros E s r.
  edestruct (createStorageClasses_iter_crash_window E (Fixture.rbdWanted "manage")
               Fixture.rbdStale s (Errorf "etcdserver: request timed out"))
    as (Herr & Habs & _).
  - discriminate.
  - discriminate.
  - reflexivity.
  - vm_compute. reflexivity.
  - reflexivity.
  - reflexivity.
  - apply (parameters_differ_at _ _ "pool"). vm_compute. discriminate.
  - reflexivity.
  - reflexivity.
  - reflexivity.
  - split; [exact Herr|exact Habs].
Defined.

(** ** Teardown of the storage classes (ensureDeleted) *)

Section Teardown.
Context (E : Env) (R : Repo).

(** An iteration of ensureDeleted returns nil whatever the client answers;
    it only reads and deletes the class of its configuration, and in the
    store every class is as it was or is gone. *)
Lemma ensureDeleted_iter_spec scc s :
  classesWellKeyed s ->
  let k := keyOf (scl_Meta (storageClass scc)) in
  let r := ensureDeleted_iter E scc s in
  r.1 = Ok tt /\ instance r.2 = instance s /\ classesWellKeyed r.2 /\
  (forall k', storageClasses (store r.2) !! k' = storageClasses (store s) !! k'
              \/ (k' = k /\ storageClasses (store r.2) !! k' = None)) /\
  (exists evs, trace r.2 = trace s ++ evs /\ (length evs <= 2)%nat /\
     Forall (fun ev => onObject KStorageClass k ev /\ verb (ev_call ev) ∈ [Get; Delete]) evs) /\
  (faultFreeFrom E (length (trace s)) ->
   forall o, storageClasses (store r.2) !! k = Some o ->
             is_Some (om_DeletionTimestamp (scl_Meta o))).
Proof.
  intros Hwk k r. subst r.
  unfold ensureDeleted_iter, bind, attempt, clientGet, clientDelete, ret. simpl. fold k.
  destruct (clientFault E (length (trace s)) (mkCall Get KStorageClass k)) as [e|] eqn:Hg.
  { simpl. do 3 (split; [done|]). split; [intros k'; by left|]. split.
    - eexists. split; [reflexivity|]. split; [simpl; lia|].
      repeat constructor.
    - intros Hff. rewrite Hff in Hg by lia. done. }
  destruct (storageClasses (store s) !! k) as [existing|] eqn:Hex; simpl.
  2:{ do 3 (split; [done|]). split; [intros k'; by left|]. split.
      - eexists. split; [reflexivity|]. split; [simpl; lia|].
        repeat constructor.
      - intros _ o Ho. congruence. }
  pose proof (Hwk _ _ Hex) as Hk. simpl in Hk.
  destruct (om_DeletionTimestamp (scl_Meta existing)) as [t|] eqn:Hdel; simpl.
  { do 3 (split; [done|]). split; [intros k'; by left|]. split.
    - eexists. split; [reflexivity|]. split; [simpl; lia|].
      repeat constructor.
    - intros _ o Ho. rewrite Hex in Ho. injection Ho as <-. rewrite Hdel. eauto. }
  unfold withOwnerReferences, keyOf. simpl.
  unfold keyOf in Hk. rewrite Hk. fold k.
  destruct (clientFault E (length (trace s ++ _)) (mkCall Delete KStorageClass k))
    as [e|] eqn:Hd; simpl.
  { do 3 (split; [done|]). split; [intros k'; by left|]. split.
    - eexists. rewrite <- app_assoc. split; [reflexivity|]. split; [simpl; lia|].
      repeat constructor.
    - intros Hff. rewrite Hff in Hd by (rewrite length_app; simpl; lia). done. }
  rewrite Hex. simpl. do 2 (split; [done|]). split; [|split; [|split]].
  - intros k' o Ho. simpl in Ho. apply lookup_delete_Some in Ho as [_ Ho]. by apply Hwk.
  - intros k'. destruct (decide (k' = k)) as [->|Hne].
    + right. split; [done|]. apply lookup_delete_eq.
    + left. by rewrite lookup_delete_ne.
  - eexists. rewrite <- app_assoc. split; [reflexivity|]. split; [simpl; lia|].
    repeat constructor.
  - intros _ o Ho. by rewrite lookup_delete_eq in Ho.
Qed.

(** What a teardown has done to the store [st0] it started from: every
    class is as it was or gone, and those of [done] that remain are marked
    for deletion. *)
Definition tornDown (done : list Key) (st0 : Store) (s : State) : Prop :=
  (forall k, storageClasses (store s) !! k = storageClasses st0 !! k
             \/ storageClasses (store s) !! k = None) /\
  (forall k, k ∉ done -> storageClasses (store s) !! k = storageClasses st0 !! k) /\
  (forall k o, k ∈ done -> storageClasses (store s) !! k = Some o ->
               is_Some (om_DeletionTimestamp (scl_Meta o))).

Lemma ensureDeleted_loop_spec sccs done st0 s :
  classesWellKeyed s ->
  faultFreeFrom E (length (trace s)) ->
  tornDown done st0 s ->
  let r := ensureDeleted_loop E sccs s in
  r.1 = Ok tt /\
  tornDown (done ++ map (fun scc => keyOf (scl_Meta (storageClass scc))) sccs) st0 r.2.
Proof.
  revert done s. induction sccs as [|scc sccs IH]; intros done s Hwk Hff Htd; simpl.
  - split; [done|]. by rewrite app_nil_r.
  - destruct (ensureDeleted_iter_spec scc s Hwk)
      as (Hok & _ & Hwk1 & Hst & (evs & Htr & Hlen & _) & Hgone).
    unfold bind.
    destruct (ensureDeleted_iter E scc s) as [[[]|e|p] s1]; simpl in *; try done.
    set (k := keyOf (scl_Meta (storageClass scc))) in *.
    destruct (IH (done ++ [k]) s1) as (Hok' & Htd'); [done| | |].
    + intros m c Hm. apply Hff. rewrite Htr, length_app in Hm. lia.
    + destruct Htd as (Hall & Hout & Hin). split; [|split].
      * intros k'. destruct (Hst k') as [->|[_ ->]]; [apply Hall|by right].
      * intros k' Hk'. rewrite not_elem_of_app, list_elem_of_singleton in Hk'.
        destruct Hk' as [Hk1 Hk2].
        destruct (Hst k') as [->|[? _]]; [by apply Hout|done].
      * intros k' o [Hk'|Hk']%elem_of_app Ho.
        -- destruct (Hst k') as [Heq|[_ Heq]]; rewrite Heq in Ho; [by eapply Hin|done].
        -- apply list_elem_of_singleton in Hk'. subst k'. by apply Hgone.
    + split; [done|]. by rewrite <- app_assoc in Htd'.
Qed.

(** X3.  ensureDeleted never fails: it returns nil whatever the client
    answers, leaves the StorageCluster of the pass alone, and issues only
    Gets and Deletes of storage classes; it never creates or updates. *)
Theorem ensureDeleted_never_fails (s : State) :
  let r := ensureDeleted E R s in
  r.1 = Ok tt /\ instance r.2 = instance s /\
  exists evs, trace r.2 = trace s ++ evs /\
    Forall (fun ev => kind (ev_call ev) = KStorageClass
                      /\ verb (ev_call ev) ∈ [Get; Delete]) evs.
Proof.
  intros r. subst r. unfold ensureDeleted, bind, getInstance. simpl.
  destruct (newStorageClassConfigurations E R (instance s)) as [e|sccs].
  { simpl. repeat split. exists []. by rewrite app_nil_r. }
  revert s. induction sccs as [|scc sccs IH]; intros s; simpl.
  - repeat split. exists []. by rewrite app_nil_r.
  - unfold bind.
    assert (Hiter : let r := ensureDeleted_iter E scc s in
              r.1 = Ok tt /\ instance r.2 = instance s /\
              exists evs, trace r.2 = trace s ++ evs /\
                Forall (fun ev => kind (ev_call ev) = KStorageClass
                                  /\ verb (ev_call ev) ∈ [Get; Delete]) evs).
    { unfold ensureDeleted_iter, bind, attempt, clientGet, clientDelete, ret. simpl.
      repeat (case_match; simplify_eq/=);
        rewrite <- ?app_assoc; simpl;
        (split; [reflexivity|]); (split; [reflexivity|]);
        eexists; (split; [reflexivity|]); repeat constructor; set_solver. }
    destruct Hiter as (Hok & Hi & evs & Htr & Hev).
    destruct (ensureDeleted_iter E scc s) as [[[]|e|p] s1]; simpl in *; try done.
    destruct (IH s1) as (Hok' & Hi' & evs' & Htr' & Hev').
    split; [done|]. split; [congruence|].
    exists (evs ++ evs'). split; [by rewrite Htr', Htr, app_assoc|by apply Forall_app].
Qed.

(** X4.  With a client that answers, ensureDeleted removes every storage
    class its configurations name, whatever their strategy or disable flag,
    except those already marked for deletion, and touches no other class:
    afterward a named class is absent or is marked for deletion, every
    class is as it was or gone, and the classes it does not name are as they
    were. *)
Theorem ensureDeleted_removes_classes
  (s : State) (sccs : list StorageClassConfiguration) :
  classesWellKeyed s ->
  faultFreeFrom E (length (trace s)) ->
  newStorageClassConfigurations E R (instance s) = inr sccs ->
  let r := ensureDeleted E R s in
  let names := map (fun scc => keyOf (scl_Meta (storageClass scc))) sccs in
  r.1 = Ok tt /\
  (forall k o, k ∈ names -> storageClasses (store r.2) !! k = Some o ->
               storageClasses (store s) !! k = Some o /\
               is_Some (om_DeletionTimestamp (scl_Meta o))) /\
  (forall k, k ∈ names -> storageClasses (store s) !! k = None ->
             storageClasses (store r.2) !! k = None) /\
  (forall k, k ∉ names -> storageClasses (store r.2) !! k = storageClasses (store s) !! k).
Proof.
  intros Hwk Hff Hcfg r names. subst r.
  unfold ensureDeleted, bind, getInstance. simpl. rewrite Hcfg.
  destruct (ensureDeleted_loop_spec sccs [] (store s) s Hwk Hff) as (Hok & Hall & Hout & Hin).
  { split; [by left|]. split; [done|]. intros k o Hk. by apply elem_of_nil in Hk. }
  simpl in *. fold names in Hout, Hin.
  split; [done|]. split; [|split].
  - intros k o Hk Ho. split; [|by eapply Hin].
    destruct (Hall k) as [Heq|Heq]; rewrite Heq in Ho; [done|done].
  - intros k Hk Habs. destruct (Hall k) as [Heq|Heq]; congruence.
  - exact Hout.
Qed.

End Teardown.

Lemma ensureDeleted_removes_classes_witness :
  let s := Fixture.stateOf
             (Fixture.withClasses [Fixture.rbdStale] Fixture.freshStore) Fixture.allInit in
  let r := ensureDeleted Fixture.env Fixture.repo s in
  r.1 = Ok tt /\ storageClasses (store r.2) !! Fixture.rbdKey = None.
Proof.
  intros s r.
  edestruct (ensureDeleted_removes_classes Fixture.env Fixture.repo s) as (Hok & Hin & _ & _).
  - intros k o Ho. unfold s, Fixture.stateOf, Fixture.withClasses in Ho. simpl in Ho.
    apply lookup_insert_Some in Ho as [[<- <-]|[_ Ho]]; [reflexivity|].
    by rewrite lookup_empty in Ho.
  - intros m c _. reflexivity.
  - reflexivity.
  - split; [exact Hok|].
    destruct (storageClasses (store r.2) !! Fixture.rbdKey) as [o|] eqn:Ho; [|done].
    destruct (Hin Fixture.rbdKey o) as [Hsame [t Ht]]; [set_solver|exact Ho|].
    vm_compute in Hsame. injection Hsame as <-. discriminate.
Defined.

(** ** The object-store ensurer (ensureCephObjectStores) *)

Section ObjectStoreConvergence.
Context (E : Env) (R : Repo).

(** The platform is known and is not one where object storage is avoided. *)
Definition objectStorePlatform : Prop :=
  exists p, GetPlatform E = inr p /\ avoidObjectStore R p = false.

(** X5.  The object store converges in one pass.  Under the Manage strategy,
    on a platform where object storage is not avoided and with a client
    that answers, ensureCephObjectStores returns nil after a Get and one
    write: a Create when the object store is absent, an Update when it is
    present and not marked for deletion.  Afterward the stored object has
    the desired spec and the desired owner references; an object that
    existed keeps the rest of its metadata; no other object store is
    touched. *)
Theorem ensureCephObjectStores_converges (s : State) (d : CephObjectStore) :
  let i := instance s in
  let k := keyOf (cos_Meta d) in
  objectStoreStrategy i <> ReconcileStrategyIgnore ->
  objectStoreStrategy i <> ReconcileStrategyInit ->
  objectStorePlatform ->
  newCephObjectStoreInstances E R i = inr [d] ->
  faultFreeFrom E (length (trace s)) ->
  (forall existing, cephObjectStores (store s) !! k = Some existing ->
     keyOf (cos_Meta existing) = k /\ om_DeletionTimestamp (cos_Meta existing) = None) ->
  let r := ensureCephObjectStores E R s in
  r.1 = Ok tt /\
  cephObjectStores (store r.2) !! k
  = Some (match cephObjectStores (store s) !! k with
          | Some existing =>
              mkCephObjectStore
                (withOwnerReferences (cos_Meta existing) (om_OwnerReferences (cos_Meta d)))
                (cos_Spec d)
          | None => d
          end) /\
  (forall k', k' <> k ->
     cephObjectStores (store r.2) !! k' = cephObjectStores (store s) !! k') /\
  map (fun ev => (verb (ev_call ev), ev_err ev)) (issued s r.2)
  = match cephObjectStores (store s) !! k with
    | Some _ => [(Get, None); (Update, None)]
    | None => [(Get, Some notFound); (Create, None)]
    end.
Proof.
  intros i k Hign Hinit (p & Hp & Hav) Hnew Hff Hex r.
  assert (Hhead : ensureCephObjectStores E R s
                  = bind (createCephObjectStores_iter E d)
                      (fun ctl => match ctl with
                                  | Continue => ret tt
                                  | Return => ret tt
                                  end) s).
  { unfold ensureCephObjectStores. unfold bind at 1. unfold getInstance at 1.
    fold i. fold (objectStoreStrategy i).
    rewrite bool_decide_eq_false_2 by done.
    unfold bind at 1. unfold liftE at 1. rewrite Hp, Hav.
    unfold bind at 1. unfold liftE at 1. rewrite Hnew. reflexivity. }
  destruct (cephObjectStores (store s) !! k) as [existing|] eqn:Hlook.
  - destruct (Hex existing eq_refl) as [Hkey Hdel].
    assert (Hrun : r = (Ok tt,
              logEvent
                (setStore (logEvent s (mkCall Get KCephObjectStore k) None)
                   (setObjects
                      (<[k := mkCephObjectStore
                                (withOwnerReferences (cos_Meta existing)
                                   (om_OwnerReferences (cos_Meta d)))
                                (cos_Spec d)]> (cephObjectStores (store s)))
                      (store s)))
                (mkCall Update KCephObjectStore k) None)).
    { subst r. rewrite Hhead.
      unfold createCephObjectStores_iter, bind, getInstance, attempt, clientGet,
        clientUpdate, ret. simpl. fold k. fold i. fold (objectStoreStrategy i).
      rewrite Hff by lia. rewrite Hlook. simpl.
      rewrite bool_decide_eq_false_2 by done. rewrite Hdel. simpl.
      assert (Hkey' : keyOf (withOwnerReferences (cos_Meta existing)
                               (om_OwnerReferences (cos_Meta d))) = k) by exact Hkey.
      rewrite Hkey'.
      rewrite Hff by (rewrite length_app; simpl; lia). rewrite Hlook. reflexivity. }
    rewrite Hrun. simpl. split; [done|]. split; [apply lookup_insert_eq|]. split.
    + intros k' Hk'. by rewrite lookup_insert_ne.
    + erewrite issued_app; [|simpl; by rewrite <- app_assoc]. reflexivity.
  - assert (Hrun : r = (Ok tt,
              logEvent
                (setStore (logEvent s (mkCall Get KCephObjectStore k) (Some notFound))
                   (setObjects (<[k := d]> (cephObjectStores (store s))) (store s)))
                (mkCall Create KCephObjectStore k) None)).
    { subst r. rewrite Hhead.
      unfold createCephObjectStores_iter, bind, getInstance, attempt, clientGet,
        clientCreate, ret. simpl. fold k.
      rewrite Hff by lia. rewrite Hlook. simpl.
      rewrite Hff by (rewrite length_app; simpl; lia). rewrite Hlook. reflexivity. }
    rewrite Hrun. simpl. split; [done|]. split; [apply lookup_insert_eq|]. split.
    + intros k' Hk'. by rewrite lookup_insert_ne.
    + erewrite issued_app; [|simpl; by rewrite <- app_assoc]. reflexivity.
Qed.

(** X6.  A Get error other than not-found is dropped.  When the Get of the
    object store fails with an error that is not a not-found error, no case
    of the switch of createCephObjectStores matches: the ensurer returns
    nil, having issued that Get alone, and nothing is written. *)
Theorem ensureCephObjectStores_drops_get_error
  (s : State) (d : CephObjectStore) (e : error) :
  let i := instance s in
  let c := mkCall Get KCephObjectStore (keyOf (cos_Meta d)) in
  objectStoreStrategy i <> ReconcileStrategyIgnore ->
  objectStorePlatform ->
  newCephObjectStoreInstances E R i = inr [d] ->
  clientFault E (length (trace s)) c = Some e ->
  IsNotFound e = false ->
  ensureCephObjectStores E R s = (Ok tt, logEvent s c (Some e)).
Proof.
  intros i c Hign (p & Hp & Hav) Hnew Hfault Hnf.
  unfold ensureCephObjectStores, bind, getInstance, liftE. simpl.
  fold i. fold (objectStoreStrategy i).
  rewrite bool_decide_eq_false_2 by done. rewrite Hp, Hav, Hnew. simpl.
  unfold createCephObjectStores_iter, bind, getInstance, attempt, clientGet, ret. simpl.
  fold c. rewrite Hfault. simpl. by rewrite Hnf.
Qed.

End ObjectStoreConvergence.

Lemma ensureCephObjectStores_converges_witness :
  let s := Fixture.stateOf Fixture.freshStore Fixture.managed in
  let r := ensureCephObjectStores Fixture.env Fixture.repo s in
  r.1 = Ok tt /\
  is_Some (cephObjectStores (store r.2) !! Fixture.objectStoreKey) /\
  map (fun ev => verb (ev_call ev)) (issued s r.2) = [Get; Create].
Proof.
  intros s r.
  edestruct (ensureCephObjectStores_converges Fixture.env Fixture.repo s)
    as (Hok & Hst & _ & Hev).
  - discriminate.
  - discriminate.
  - exists "BareMetal". split; reflexivity.
  - reflexivity.
  - intros m c _. reflexivity.
  - intros existing Hex. vm_compute in Hex. discriminate.
  - split; [exact Hok|]. split; [eexists; exact Hst|].
    vm_compute. reflexivity.
Defined.

Lemma ensureCephObjectStores_drops_get_error_witness :
  let E := failingAt Fixture.env 0 (Errorf "connection refused") in
  let s := Fixture.stateOf Fixture.freshStore Fixture.managed in
  ensureCephObjectStores E Fixture.repo s
  = (Ok tt, logEvent s (mkCall Get KCephObjectStore Fixture.objectStoreKey)
              (Some (Errorf "connection refused"))).
Proof.
  intros E s.
  erewrite (ensureCephObjectStores_drops_get_error E Fixture.repo s); cycle 1.
  - discriminate.
  - exists "BareMetal". split; reflexivity.
  - reflexivity.
  - reflexivity.
  - reflexivity.
  - reflexivity.
Defined.

(** ** The engine-cluster ensurer at rest (ensureCephCluster) *)

Section EngineClusterAtRest.
Context (E : Env) (R : Repo).

(** The CephCluster the ensurer computes sits under the key of the
    StorageCluster. *)
Lemma newCephCluster_key sc image :
  keyOf (cc_Meta (newCephCluster R sc image)) = keyOf (sc_Meta sc).
Proof. reflexivity. Qed.

(** X7.  The footprint of ensureCephCluster.  Whatever the client answers,
    the ensurer issues at most two calls, all on the CephCluster named after
    the StorageCluster: a Get, then at most one Create or Update.  It never
    deletes, and every other CephCluster of the store is left as it is. *)
Theorem ensureCephCluster_footprint (s : State) :
  wellKeyed (A:=CephCluster) (store s) ->
  let r := ensureCephCluster E R s in
  let k := keyOf (sc_Meta (instance s)) in
  (forall k', k' <> k -> cephClusters (store r.2) !! k' = cephClusters (store s) !! k') /\
  exists evs, trace r.2 = trace s ++ evs /\
    (evs = [] \/
     exists o, evs = [mkEvent (mkCall Get KCephCluster k) o] \/
     exists o', evs = [mkEvent (mkCall Get KCephCluster k) o;
                       mkEvent (mkCall Create KCephCluster k) o'] \/
               evs = [mkEvent (mkCall Get KCephCluster k) o;
                      mkEvent (mkCall Update KCephCluster k) o']).
Proof.
  intros Hwk r k.
  assert (Hr : r = ensureCephCluster E R s) by reflexivity. clearbody r.
  unfold ensureCephCluster in Hr.
  unfold bind at 1 in Hr. unfold getInstance at 1 in Hr.
  unfold bind at 1 in Hr. unfold liftE at 1 in Hr.
  destruct (SetControllerReference E (instance s)
              (cc_Meta (newCephCluster R (instance s) (cephImage E)))) as [e|m] eqn:Hm.
  { subst r. simpl. split; [done|]. exists []. split; [by rewrite app_nil_r|by left]. }
  pose proof (SetControllerReference_key E _ _ _ Hm) as Hkm.
  rewrite newCephCluster_key in Hkm. fold k in Hkm.
  unfold bind at 1 in Hr. unfold attempt at 1 in Hr. unfold clientGet at 1 in Hr.
  cbn [cc_Meta] in Hr. rewrite Hkm in Hr. cbn [kindOf objects CephCluster_resource] in Hr.
  destruct (clientFault E (length (trace s)) (mkCall Get KCephCluster k)) as [e|] eqn:Hg.
  { destruct (IsNotFound e).
    - unfold clientCreate in Hr. cbn [cc_Meta metaOf kindOf objects CephCluster_resource] in Hr.
      rewrite Hkm in Hr.
      repeat (case_match; simplify_eq/=);
        (split; [intros k' Hk'; rewrite ?lookup_insert_ne by done; done|]);
        rewrite <- ?app_assoc; eexists; (split; [reflexivity|]);
        right; eexists; right; eexists; left; reflexivity.
    - subst r. simpl. split; [done|]. eexists. split; [reflexivity|].
      right. eexists. left. reflexivity. }
  destruct (cephClusters (store s) !! k) as [found|] eqn:Hf.
  2:{ cbn [IsNotFound notFound err_kind] in Hr.
      unfold clientCreate in Hr. cbn [cc_Meta metaOf kindOf objects CephCluster_resource] in Hr.
      rewrite Hkm in Hr.
      repeat (case_match; simplify_eq/=);
        (split; [intros k' Hk'; rewrite ?lookup_insert_ne by done; done|]);
        rewrite <- ?app_assoc; eexists; (split; [reflexivity|]);
        right; eexists; right; eexists; left; reflexivity. }
  pose proof (Hwk _ _ Hf) as Hkf. cbn [metaOf CephCluster_resource] in Hkf.
  cbn [cc_Spec] in Hr.
  destruct (negb (bool_decide (cc_Spec (newCephCluster R (instance s) (cephImage E))
                               = cc_Spec found))) eqn:Hspec.
  - unfold clientUpdate, withSpec in Hr.
    cbn [cc_Meta metaOf kindOf objects CephCluster_resource] in Hr. rewrite Hkf in Hr.
    unfold bind, setPhase, ret in Hr.
    repeat (case_match; simplify_eq/=);
      (split; [intros k' Hk'; rewrite ?lookup_insert_ne by done; done|]);
      rewrite <- ?app_assoc; eexists; (split; [reflexivity|]);
      right; eexists; right; eexists; right; reflexivity.
  - unfold bind, liftE in Hr.
    repeat (case_match; simplify_eq/=);
      (split; [done|]); eexists; (split; [reflexivity|]);
      right; eexists; left; reflexivity.
Qed.

(** X8.  ensureCephCluster is idempotent.  On a store without the
    CephCluster, with a client and a scheme that answer, a first pass issues
    a Get and a Create and stores the desired CephCluster, owned by the
    StorageCluster; a second pass right after it issues one Get and no
    write, leaves the store as it is, records the CephCluster among the
    related objects and, the stored object reporting no state, hands the
    accumulator to MapCephClusterNoConditions. *)
Theorem ensureCephCluster_idempotent (s : State) :
  let i := instance s in
  let k := keyOf (sc_Meta i) in
  let desired := newCephCluster R i (cephImage E) in
  faultFreeFrom E (length (trace s)) ->
  setControllerReferenceErr E (sc_Meta i) (cc_Meta desired) = None ->
  (forall m, getReferenceErr E m = None) ->
  cephClusters (store s) !! k = None ->
  let r1 := ensureCephCluster E R s in
  let r2 := ensureCephCluster E R r1.2 in
  r1.1 = Ok tt /\
  issued s r1.2 = [ mkEvent (mkCall Get KCephCluster k) (Some notFound);
                    ok (mkCall Create KCephCluster k) ] /\
  (exists c, cephClusters (store r1.2) !! k = Some c /\
             cc_Spec c = cc_Spec desired /\
             om_OwnerReferences (cc_Meta c)
             = [ mkOwnerReference (sc_APIVersion i) (sc_Kind i) (om_Name (sc_Meta i))
                   (om_UID (sc_Meta i)) true ]) /\
  r2.1 = Ok tt /\
  store r2.2 = store r1.2 /\
  issued r1.2 r2.2 = [ ok (mkCall Get KCephCluster k) ] /\
  mkObjectReference "CephCluster" (om_Namespace (sc_Meta i)) (om_Name (sc_Meta i))
    ∈ st_RelatedObjects (sc_Status (instance r2.2)) /\
  conditions r2.2
  = MapCephClusterNoConditions R (conditions s) "CephClusterStatus"
      "CephCluster resource is not reporting status".
Proof.
  intros i k desired Hff Hscheme Href Habs r1 r2.
  set (m := withOwnerReferences (cc_Meta desired)
              [ mkOwnerReference (sc_APIVersion i) (sc_Kind i) (om_Name (sc_Meta i))
                  (om_UID (sc_Meta i)) true ]).
  set (c := mkCephCluster m (cc_Spec desired) (cc_State desired)).
  assert (Hm : SetControllerReference E i (cc_Meta desired) = inr m).
  { unfold SetControllerReference. by rewrite Hscheme. }
  set (s1 := logEvent
               (setStore (logEvent s (mkCall Get KCephCluster k) (Some notFound))
                  (setObjects (<[k := c]> (cephClusters (store s))) (store s)))
               (mkCall Create KCephCluster k) None).
  assert (Hr1 : r1 = (Ok tt, s1)).
  { subst r1. unfold ensureCephCluster.
    unfold bind at 1. unfold getInstance at 1. fold i. fold desired.
    unfold bind at 1. unfold liftE at 1. rewrite Hm.
    unfold bind at 1. unfold attempt at 1. unfold clientGet at 1.
    change (keyOf (cc_Meta (mkCephCluster m (cc_Spec desired) (cc_State desired)))) with k.
    cbn [kindOf objects CephCluster_resource].
    rewrite Hff by lia. rewrite Habs.
    cbn [IsNotFound notFound err_kind].
    unfold clientCreate. cbn [metaOf kindOf objects CephCluster_resource].
    change (keyOf (cc_Meta (mkCephCluster m (cc_Spec desired) (cc_State desired)))) with k.
    rewrite Hff by (simpl; rewrite length_app; simpl; lia).
    cbn [store logEvent]. rewrite Habs. reflexivity. }
  assert (Hr2 : r2 = (Ok tt,
            setConditions
              (setInstance (logEvent s1 (mkCall Get KCephCluster k) None)
                 (withStatus i (withRelatedObjects (sc_Status i)
                    (SetObjectReference (st_RelatedObjects (sc_Status i))
                       (mkObjectReference "CephCluster" (om_Namespace (sc_Meta i))
                          (om_Name (sc_Meta i)))))))
              (MapCephClusterNoConditions R (conditions s) "CephClusterStatus"
                 "CephCluster resource is not reporting status"))).
  { subst r2. rewrite Hr1. cbn [snd]. unfold ensureCephCluster.
    unfold bind at 1. unfold getInstance at 1.
    change (instance s1) with i. fold desired.
    unfold bind at 1. unfold liftE at 1. rewrite Hm.
    unfold bind at 1. unfold attempt at 1. unfold clientGet at 1.
    change (keyOf (cc_Meta (mkCephCluster m (cc_Spec desired) (cc_State desired)))) with k.
    cbn [kindOf objects CephCluster_resource].
    rewrite Hff by (simpl; rewrite !length_app; simpl; lia).
    change (cephClusters (store s1)) with (<[k := c]> (cephClusters (store s))).
    rewrite lookup_insert_eq.
    change (cc_Spec (mkCephCluster m (cc_Spec desired) (cc_State desired)))
      with (cc_Spec desired).
    change (cc_Spec c) with (cc_Spec desired).
    rewrite bool_decide_eq_true_2 by done. cbn [negb].
    unfold bind at 1. unfold liftE at 1. unfold GetReference. rewrite Href.
    unfold bind at 1. reflexivity. }
  rewrite Hr1, Hr2. cbn [fst snd].
  split; [done|]. split; [apply issued_app; simpl; by rewrite <- app_assoc|].
  split; [exists c; split; [apply lookup_insert_eq|by split]|].
  split; [done|]. split; [done|].
  split; [by apply issued_app|].
  split; [|done].
  simpl. unfold SetObjectReference. case_bool_decide as Hin; [done|].
  apply elem_of_app. right. by apply list_elem_of_singleton.
Qed.

End EngineClusterAtRest.

Lemma ensureCephCluster_footprint_witness :
  let s := Fixture.growing in
  let r := ensureCephCluster Fixture.env Fixture.repo s in
  cephClusters (store r.2) !! (Fixture.ns, "another-cluster")
  = cephClusters (store s) !! (Fixture.ns, "another-cluster").
Proof.
  intros s r.
  edestruct (ensureCephCluster_footprint Fixture.env Fixture.repo s) as (Hother & _).
  - intros k o Ho. unfold s, Fixture.growing, Fixture.stateOf in Ho. simpl in Ho.
    apply lookup_singleton_Some in Ho as [<- <-]. reflexivity.
  - apply Hother. discriminate.
Defined.

Lemma ensureCephCluster_idempotent_witness :
  let s := Fixture.stateOf Fixture.initializedStore Fixture.managed in
  let r1 := ensureCephCluster Fixture.env Fixture.repo s in
  let r2 := ensureCephCluster Fixture.env Fixture.repo r1.2 in
  r1.1 = Ok tt /\ r2.1 = Ok tt /\ store r2.2 = store r1.2 /\
  issued r1.2 r2.2 = [ ok (mkCall Get KCephCluster Fixture.request) ].
Proof.
  intros s r1 r2.
  edestruct (ensureCephCluster_idempotent Fixture.env Fixture.repo s)
    as (H1 & _ & _ & H2 & Hst & Hev & _).
  - intros m c _. reflexivity.
  - reflexivity.
  - intros m. reflexivity.
  - vm_compute. reflexivity.
  - split; [exact H1|]. split; [exact H2|]. split; [exact Hst|exact Hev].
Defined.

(** ** The orchestrator (Reconcile) *)

Module Scenario.

(** [ocsinit] asking for three devices, after its first passes: conditions
    are set, the initialization object exists, and the CephCluster made for
    one device is in place. *)
Definition grownCluster : StorageCluster :=
  withStatus (Fixture.withDeviceSet 3)
    (withConditions (sc_Status (Fixture.withDeviceSet 3))
       [ mkCondition ConditionReconcileComplete ConditionTrue ReconcileCompleted
           ReconcileCompletedMessage 0 0 ]).

Definition expandingStore : Store :=
  setObjects (A:=CephCluster) {[ Fixture.request := Fixture.smallCephCluster ]}
    (setObjects (A:=StorageCluster) {[ Fixture.request := grownCluster ]}
       Fixture.initializedStore).

Definition expanding : State := Fixture.stateOf expandingStore grownCluster.

End Scenario.

Section Orchestrator.
Context (E : Env) (R : Repo).

Lemma runEnsurers_succeed fs s s1 :
  succeedAll fs s s1 -> runEnsurers E fs s = (Ok tt, s1).
Proof.
  revert s. induction fs as [|f fs IH]; intros s Hall; simpl in *.
  - by subst.
  - destruct Hall as (s' & Hf & Hrest). unfold bind, attempt. rewrite Hf. by apply IH.
Qed.

(** The loop of ensurers returns nil only when every ensurer did. *)
Lemma runEnsurers_Ok fs s s1 :
  runEnsurers E fs s = (Ok tt, s1) -> succeedAll fs s s1.
Proof.
  revert s. induction fs as [|f fs IH]; intros s Hrun; simpl in *.
  - by injection Hrun as <-.
  - unfold bind, attempt in Hrun.
    destruct (f s) as [[[]|e|p] s'] eqn:Hf; try done.
    + exists s'. split; [done|]. by apply IH.
    + exfalso. revert Hrun.
      unfold reconcileFailed, bind, modifyStatus, getInstance, attempt,
        clientStatusUpdate, fail. simpl.
      repeat (case_match; simplify_eq/=); discriminate.
Qed.

(** What the completion of a pass leaves, when it returns nil. *)
Lemma reconcileCompleted_Ok s s' :
  reconcileCompleted E s = (Ok tt, s') ->
  let st := sc_Status (instance s') in
  (exists stored,
     storageClusters (store s') !! keyOf (sc_Meta (instance s')) = Some stored /\
     sc_Status stored = st) /\
  match conditions s with
  | [] => ready s' = true /\ st_Phase st = PhaseReady
  | _ =>
      if IsStatusConditionFalse (st_Conditions st) ConditionUpgradeable
      then ready s' = false /\ st_Phase st = PhaseNotReady
      else ready s' = ready s /\ st_Phase st = PhaseReady
  end.
Proof.
  unfold reconcileCompleted, bind, getState, modifyStatus, attempt, readySet, readyUnset,
    getInstance, clientStatusUpdate, fail, ret. simpl.
  intros Hrun.
  repeat (case_match; simplify_eq/=);
    (split; [eexists; split; [apply lookup_insert_eq|reflexivity]|]);
    simpl;
    repeat match goal with
           | H : IsStatusConditionFalse _ _ = _ |- _ => rewrite H
           end;
    by split.
Qed.

(** X9.  A request for a StorageCluster that no longer exists is a no-op:
    Reconcile returns nil after the one Get that did not find it, and
    nothing is written. *)
Theorem Reconcile_absent_object (request : Key) (s : State) :
  let c := mkCall Get KStorageCluster request in
  clientFault E (length (trace s)) c = None ->
  storageClusters (store s) !! request = None ->
  Reconcile E R request s = (Ok tt, logEvent s c (Some notFound)).
Proof.
  intros c Hff Habs.
  unfold Reconcile, Reconcile_with, reconcilePrologue.
  unfold bind, attempt, clientGet. simpl. fold c. by rewrite Hff, Habs.
Qed.

(** X10.  A pass that returns nil has persisted Ready or Not Ready.
    Whatever the ensurers did to the phase during the pass (ensureCephCluster
    sets Expanding when a device set grows), a pass of Reconcile that ran
    its ensurers and returned nil ends with the phase Ready or Not Ready,
    and the status the store holds for the StorageCluster is that one. *)
Theorem Reconcile_with_persists_ready
  (ensurers : list (M unit)) (request : Key) (s s0 s' : State) :
  reconcilePrologue E request s = (Ok true, s0) ->
  Reconcile_with E ensurers request s = (Ok tt, s') ->
  let st := sc_Status (instance s') in
  (st_Phase st = PhaseReady \/ st_Phase st = PhaseNotReady) /\
  exists stored,
    storageClusters (store s') !! keyOf (sc_Meta (instance s')) = Some stored /\
    sc_Status stored = st.
Proof.
  intros Hpro Hrun st.
  unfold Reconcile_with in Hrun. rewrite (bind_Ok _ _ _ _ _ Hpro) in Hrun.
  unfold bind at 1 in Hrun. unfold resetConditions at 1 in Hrun.
  unfold bind at 1 in Hrun.
  destruct (runEnsurers E ensurers (setConditions s0 [])) as [[[]|e|p] s1] eqn:Hens;
    try done.
  destruct (reconcileCompleted_Ok s1 s' Hrun) as (Hstored & Hphase).
  split; [|exact Hstored]. fold st in Hphase.
  destruct (conditions s1); [by left; apply Hphase|].
  destruct (IsStatusConditionFalse _ _); [right|left]; apply Hphase.
Qed.

(** X11.  The readiness signal follows the accumulator.  When every
    ensurer succeeded and Reconcile returned nil: with an empty accumulator
    of negative conditions the readiness file is set and the phase is
    Ready; with a non-empty one the conditions are merged into the status,
    and the readiness file is unset and the phase is Not Ready exactly when
    the merged conditions hold Upgradeable at false; otherwise readiness is
    left as it was and the phase is Ready. *)
Theorem Reconcile_with_readiness
  (ensurers : list (M unit)) (request : Key) (s s0 s1 s' : State) :
  reconcilePrologue E request s = (Ok true, s0) ->
  succeedAll ensurers (setConditions s0 []) s1 ->
  Reconcile_with E ensurers request s = (Ok tt, s') ->
  let st := sc_Status (instance s') in
  match conditions s1 with
  | [] => ready s' = true /\ st_Phase st = PhaseReady
  | _ =>
      if IsStatusConditionFalse (st_Conditions st) ConditionUpgradeable
      then ready s' = false /\ st_Phase st = PhaseNotReady
      else ready s' = ready s1 /\ st_Phase st = PhaseReady
  end.
Proof.
  intros Hpro Hall Hrun st.
  unfold Reconcile_with in Hrun. rewrite (bind_Ok _ _ _ _ _ Hpro) in Hrun.
  unfold bind at 1 in Hrun. unfold resetConditions at 1 in Hrun.
  unfold bind at 1 in Hrun. rewrite (runEnsurers_succeed _ _ _ Hall) in Hrun.
  by destruct (reconcileCompleted_Ok s1 s' Hrun) as (_ & Hphase).
Qed.

(** X12.  An error creating the StorageClusterInitialization ends the pass.
    When the initialization object is not found and its Create fails, with
    any error, an already-exists error included (which the code logs as
    harmless), Reconcile returns that error: no ensurer runs and nothing is
    written. *)
Theorem Reconcile_initialization_create_error
  (request : Key) (s : State) (i : StorageCluster) (e : error) :
  let n := length (trace s) in
  clientFault E n (mkCall Get KStorageCluster request) = None ->
  storageClusters (store s) !! request = Some i ->
  st_Conditions (sc_Status i) <> [] ->
  clientFault E (S n) (mkCall Get KStorageClusterInitialization request) = None ->
  storageClusterInitializations (store s) !! request = None ->
  setControllerReferenceErr E (sc_Meta i)
    (mkObjectMeta request.2 request.1 "" ∅ ∅ [] None) = None ->
  clientFault E (S (S n)) (mkCall Create KStorageClusterInitialization request) = Some e ->
  let r := Reconcile E R request s in
  r.1 = Err e /\ store r.2 = store s /\
  issued s r.2
  = [ ok (mkCall Get KStorageCluster request);
      mkEvent (mkCall Get KStorageClusterInitialization request) (Some notFound);
      mkEvent (mkCall Create KStorageClusterInitialization request) (Some e) ].
Proof.
  intros n Hget Hi Hconds Hget2 Habs Hscheme Hcreate r.
  assert (Hget2' : forall ev, clientFault E (length (trace s ++ [ev]))
                                (mkCall Get KStorageClusterInitialization request) = None).
  { intros ev. rewrite length_app. simpl.
    by replace (length (trace s) + 1)%nat with (S n) by (subst n; lia). }
  assert (Hcreate' : forall ev ev', clientFault E (length ((trace s ++ [ev]) ++ [ev']))
                       (mkCall Create KStorageClusterInitialization request) = Some e).
  { intros ev ev'. rewrite !length_app. simpl.
    by replace (length (trace s) + 1 + 1)%nat with (S (S n)) by (subst n; lia). }
  assert (Hr : r = Reconcile E R request s) by reflexivity. clearbody r.
  destruct request as [rns rname]. simpl in Hscheme.
  unfold Reconcile, Reconcile_with, reconcilePrologue in Hr.
  unfold bind, attempt, clientGet, putInstance in Hr. simpl in Hr.
  fold n in Hr. rewrite Hget, Hi in Hr. simpl in Hr.
  destruct (st_Conditions (sc_Status i)) as [|c0 cs] eqn:Hcs; [done|].
  unfold ret, checkStorageClusterInitialization, bind, attempt, clientGet, getInstance,
    liftE, clientCreate, SetControllerReference in Hr. simpl in Hr.
  rewrite Hget2', Habs in Hr. simpl in Hr. rewrite Hscheme in Hr. simpl in Hr.
  unfold keyOf in Hr. simpl in Hr. rewrite Hcreate' in Hr.
  subst r. simpl. split; [done|]. split; [done|].
  apply issued_app. simpl. by rewrite <- !app_assoc.
Qed.

End Orchestrator.

Lemma Reconcile_absent_object_witness :
  let s := Fixture.stateOf emptyStore Fixture.managed in
  Reconcile Fixture.env Fixture.repo Fixture.request s
  = (Ok tt, logEvent s (mkCall Get KStorageCluster Fixture.request) (Some notFound)).
Proof.
  intros s. apply Reconcile_absent_object; reflexivity.
Defined.

Lemma Reconcile_with_persists_ready_witness :
  let s := Scenario.expanding in
  let mid := ensureCephCluster Fixture.env Fixture.repo
               (setConditions (reconcilePrologue Fixture.env Fixture.request s).2 []) in
  let r := Reconcile Fixture.env Fixture.repo Fixture.request s in
  st_Phase (sc_Status (instance mid.2)) = PhaseClusterExpanding /\
  r.1 = Ok tt /\
  (st_Phase (sc_Status (instance r.2)) = PhaseReady
   \/ st_Phase (sc_Status (instance r.2)) = PhaseNotReady) /\
  (st_Phase ∘ sc_Status <$> storageClusters (store r.2) !! Fixture.request)
  = Some PhaseReady.
Proof.
  intros s mid r.
  edestruct (Reconcile_with_persists_ready Fixture.env
               [ensureCephCluster Fixture.env Fixture.repo] Fixture.request s
               (reconcilePrologue Fixture.env Fixture.request s).2 r.2)
    as (Hphase & _).
  - vm_compute. reflexivity.
  - vm_compute. reflexivity.
  - split; [vm_compute; reflexivity|]. split; [vm_compute; reflexivity|].
    split; [exact Hphase|]. vm_compute. reflexivity.
Defined.

Lemma Reconcile_with_readiness_witness :
  let s := Scenario.expanding in
  let r := Reconcile Fixture.env Fixture.repo Fixture.request s in
  ready r.2 = true /\ st_Phase (sc_Status (instance r.2)) = PhaseReady.
Proof.
  intros s r.
  pose (s0 := (reconcilePrologue Fixture.env Fixture.request s).2).
  pose (s1 := (ensureCephCluster Fixture.env Fixture.repo (setConditions s0 [])).2).
  apply (Reconcile_with_readiness Fixture.env
           [ensureCephCluster Fixture.env Fixture.repo] Fixture.request s s0 s1 r.2).
  - vm_compute. reflexivity.
  - exists s1. split; [vm_compute; reflexivity|reflexivity].
  - vm_compute. reflexivity.
Defined.

Lemma Reconcile_initialization_create_error_witness :
  let E := failingAt Fixture.env 2 alreadyExists in
  let s := Fixture.stateOf
             (setObjects (A:=StorageCluster) {[ Fixture.request := Scenario.grownCluster ]}
                emptyStore) Scenario.grownCluster in
  let r := Reconcile E Fixture.repo Fixture.request s in
  IsAlreadyExists alreadyExists = true /\ r.1 = Err alreadyExists /\ store r.2 = store s.
Proof.
  intros E s r.
  edestruct (Reconcile_initialization_create_error E Fixture.repo Fixture.request s
               Scenario.grownCluster alreadyExists) as (Herr & Hst & _).
  - reflexivity.
  - vm_compute. reflexivity.
  - discriminate.
  - reflexivity.
  - vm_compute. reflexivity.
  - reflexivity.
  - reflexivity.
  - split; [reflexivity|]. split; [exact Herr|exact Hst].
Defined.

(** ** The external-secret synthesizer, record by record *)

Module Payload.

(** A payload whose only record is a storage class under a name the
    synthesizer does not know. *)
Definition unknownClass : list ExternalResource :=
  [ mkExternalResource "StorageClass" {[ "pool" := "nfs-pool" ]} "ceph-nfs" ].

Definition envUnknownClass : Env :=
  Fixture.world "BareMetal" None (fun _ => inr unknownClass).

(** The operator's config map, with CephFS turned off. *)
Definition operatorConfig : ConfigMap :=
  mkConfigMap (mkObjectMeta rookCephOperatorConfigName Fixture.ns "" ∅ ∅ [] None)
    {[ rookEnableCephFSCSIKey := "false"; "ROOK_CSI_ENABLE_RBD" := "true" ]}.

Definition withOperatorConfig : Store :=
  setObjects (A:=ConfigMap)
    {[ (Fixture.ns, rookCephOperatorConfigName) := operatorConfig ]} Fixture.freshStore.

(** The operator's config map with CephFS turned on, beside the external
    secret; and a payload whose only record is the block class. *)
Definition cephfsOn : ConfigMap :=
  mkConfigMap (mkObjectMeta rookCephOperatorConfigName Fixture.ns "" ∅ ∅ [] None)
    {[ rookEnableCephFSCSIKey := "true" ]}.

Definition externalWithOperator : Store :=
  setObjects (A:=ConfigMap) {[ (Fixture.ns, rookCephOperatorConfigName) := cephfsOn ]}
    (Fixture.externalStore "[ceph-rbd]").

Definition blockOnly : list ExternalResource :=
  [ mkExternalResource "StorageClass" {[ "pool" := "rbd-pool" ]} "ceph-rbd" ].

Definition envBlockOnly : Env :=
  Fixture.world "BareMetal" None (fun _ => inr blockOnly).

(** The record of the object-gateway class. *)
Definition rgwRecord : ExternalResource :=
  mkExternalResource "StorageClass"
    {[ "endpoint" := "10.0.0.1:80"; "region" := "eu-west-1" ]} "ceph-rgw".

Definition classes : ExtLoop :=
  mkExtLoop (match newStorageClasses Fixture.repo Fixture.managed with
             | Ok l => l | _ => [] end) [None; None; None] false [].

End Payload.

Section ExternalRecords.
Context (E : Env) (R : Repo).

Definition flagString (b : bool) : string := if b then "true" else "false".

(** X13.  setRookCSICephFS sets the flag and nothing else.  With a client
    that answers and the operator's config map in place with a non-empty
    data map, setRookCSICephFS returns nil; the stored config map then holds
    the flag under ROOK_CSI_ENABLE_CEPHFS while its metadata and every other
    key are as before, and no other config map is touched.  The Update is
    issued only when the key did not hold the flag already, so that a second
    call issues a single Get. *)
Theorem setRookCSICephFS_sets_flag (flag : bool) (s : State) (cm : ConfigMap) :
  let k := (om_Namespace (sc_Meta (instance s)), rookCephOperatorConfigName) in
  faultFreeFrom E (length (trace s)) ->
  configMaps (store s) !! k = Some cm ->
  keyOf (cm_Meta cm) = k ->
  cm_Data cm <> ∅ ->
  let r := setRookCSICephFS E flag s in
  let r' := setRookCSICephFS E flag r.2 in
  r.1 = Ok tt /\
  (exists cm',
     configMaps (store r.2) !! k = Some cm' /\
     cm_Meta cm' = cm_Meta cm /\
     cm_Data cm' !! rookEnableCephFSCSIKey = Some (flagString flag) /\
     forall j, j <> rookEnableCephFSCSIKey -> cm_Data cm' !! j = cm_Data cm !! j) /\
  (forall k', k' <> k -> configMaps (store r.2) !! k' = configMaps (store s) !! k') /\
  issued s r.2
  = ok (mkCall Get KConfigMap k)
    :: (if bool_decide (cm_Data cm !! rookEnableCephFSCSIKey = Some (flagString flag))
        then [] else [ok (mkCall Update KConfigMap k)]) /\
  r'.1 = Ok tt /\ store r'.2 = store r.2 /\
  issued r.2 r'.2 = [ok (mkCall Get KConfigMap k)].
Proof.
  intros k Hff Hcm Hkey Hne r r'.
  assert (Hflag : flagString flag <> "") by (by destruct flag).
  assert (Hidx : forall data : gmap string string,
            mapIndex data rookEnableCephFSCSIKey = flagString flag
            <-> data !! rookEnableCephFSCSIKey = Some (flagString flag)).
  { intros data. unfold mapIndex.
    destruct (data !! rookEnableCephFSCSIKey) as [v|]; simpl; split; congruence. }
  assert (Hsame : forall t c,
            instance t = instance s ->
            clientFault E (length (trace t)) (mkCall Get KConfigMap k) = None ->
            configMaps (store t) !! k = Some c ->
            cm_Data c !! rookEnableCephFSCSIKey = Some (flagString flag) ->
            setRookCSICephFS E flag t = (Ok tt, logEvent t (mkCall Get KConfigMap k) None)).
  { intros t c Hi Hg Hc Hv.
    unfold setRookCSICephFS, bind, getInstance, clientGet. simpl. rewrite Hi. fold k.
    rewrite Hg, Hc. simpl. fold (flagString flag).
    by rewrite bool_decide_eq_true_2 by (by apply Hidx). }
  case_bool_decide as Hv.
  - assert (Hr : r = (Ok tt, logEvent s (mkCall Get KConfigMap k) None)).
    { subst r. apply (Hsame s cm); [done|apply Hff; lia|done|done]. }
    assert (Hr' : r' = (Ok tt, logEvent r.2 (mkCall Get KConfigMap k) None)).
    { subst r'. rewrite Hr. apply (Hsame _ cm); [done| |done|done].
      apply Hff. simpl. rewrite length_app. lia. }
    rewrite Hr', Hr. simpl.
    split; [done|]. split; [by exists cm|]. split; [done|].
    split; [by apply issued_app|]. split; [done|]. split; [done|by apply issued_app].
  - set (cm' := mkConfigMap (cm_Meta cm)
                  (<[rookEnableCephFSCSIKey := flagString flag]> (cm_Data cm))).
    assert (Hr : r = (Ok tt,
              logEvent
                (setStore (logEvent s (mkCall Get KConfigMap k) None)
                   (setObjects (<[k := cm']> (configMaps (store s))) (store s)))
                (mkCall Update KConfigMap k) None)).
    { subst r. unfold setRookCSICephFS, bind, getInstance, clientGet, clientUpdate. simpl.
      fold k. rewrite Hff by lia. rewrite Hcm. simpl. fold (flagString flag).
      rewrite bool_decide_eq_false_2 by (by rewrite Hidx).
      rewrite bool_decide_eq_false_2 by done.
      unfold keyOf in Hkey. unfold keyOf. simpl. rewrite Hkey.
      rewrite Hff by (rewrite length_app; simpl; lia). by rewrite Hcm. }
    assert (Hr' : r' = (Ok tt, logEvent r.2 (mkCall Get KConfigMap k) None)).
    { subst r'. rewrite Hr. apply (Hsame _ cm'); [done| | |].
      - apply Hff. simpl. rewrite !length_app. lia.
      - simpl. apply lookup_insert_eq.
      - simpl. apply lookup_insert_eq. }
    rewrite Hr', Hr. simpl.
    split; [done|]. split.
    { exists cm'. split; [apply lookup_insert_eq|]. split; [done|].
      split; [apply lookup_insert_eq|]. intros j Hj. simpl. by rewrite lookup_insert_ne. }
    split; [intros k' Hk'; by rewrite lookup_insert_ne|].
    split; [apply issued_app; simpl; by rewrite <- app_assoc|].
    split; [done|]. split; [done|by apply issued_app].
Qed.

(** An iteration of the record loop issues only Gets and Creates, of config
    maps and secrets. *)
Lemma createExternalStorageClusterResources_iter_calls st d s :
  exists evs,
    trace (createExternalStorageClusterResources_iter E R st d s).2 = trace s ++ evs /\
    Forall (fun ev => kind (ev_call ev) ∈ [KConfigMap; KSecret]
                      /\ verb (ev_call ev) ∈ [Get; Create]) evs.
Proof.
  unfold createExternalStorageClusterResources_iter, createExternalStorageClusterConfigMap,
    createExternalStorageClusterSecret, bind, attempt, getInstance, clientGet, clientCreate,
    liftE, lift, ret, fail. simpl.
  repeat (case_match; simplify_eq/=);
    rewrite <- ?app_assoc; simpl;
    first [ exists []; split; [symmetry; apply app_nil_r|constructor]
          | eexists; split; [reflexivity|]; repeat constructor ].
Qed.

(** X14.  Config maps and secrets are got or created, never changed.
    Whatever the records and whatever the outcome, the record loop of the
    synthesizer leaves every config map and every secret that existed as it
    was, and issues no call but Gets and Creates of config maps and
    secrets. *)
Theorem createExternalStorageClusterResources_loop_get_or_create
  (st : ExtLoop) (data : list ExternalResource) (s : State) :
  let r := createExternalStorageClusterResources_loop E R st data s in
  (forall k cm, configMaps (store s) !! k = Some cm ->
                configMaps (store r.2) !! k = Some cm) /\
  (forall k sec, secrets (store s) !! k = Some sec ->
                 secrets (store r.2) !! k = Some sec) /\
  exists evs,
    trace r.2 = trace s ++ evs /\
    Forall (fun ev => kind (ev_call ev) ∈ [KConfigMap; KSecret]
                      /\ verb (ev_call ev) ∈ [Get; Create]) evs.
Proof.
  revert st s. induction data as [|d data IH]; intros st s; simpl.
  - split; [done|]. split; [done|]. exists []. split; [by rewrite app_nil_r|constructor].
  - pose proof (createExternalStorageClusterResources_iter_writes E R st d s)
      as [(_ & _ & _ & _ & _ & _ & _ & _ & Hcm & Hsec) _].
    destruct (createExternalStorageClusterResources_iter_calls st d s) as (evs & Htr & Hev).
    assert (Hkeep :
      (forall k cm, configMaps (store s) !! k = Some cm ->
         configMaps (store (createExternalStorageClusterResources_iter E R st d s).2) !! k
         = Some cm) /\
      (forall k sec, secrets (store s) !! k = Some sec ->
         secrets (store (createExternalStorageClusterResources_iter E R st d s).2) !! k
         = Some sec)).
    { split.
      - intros k cm Hk. destruct (Hcm k) as [->|[Hn _]]; congruence.
      - intros k sec Hk. destruct (Hsec k) as [->|[Hn _]]; congruence. }
    destruct Hkeep as [Hkcm Hksec].
    unfold bind.
    destruct (createExternalStorageClusterResources_iter E R st d s) as [[st1|e|p] s1];
      simpl in *; try (split; [done|]; split; [done|]; by exists evs).
    destruct (IH st1 s1) as (Hcm' & Hsec' & evs' & Htr' & Hev').
    split; [intros k cm Hk; by apply Hcm', Hkcm|].
    split; [intros k sec Hk; by apply Hsec', Hksec|].
    exists (evs ++ evs'). split; [by rewrite Htr', Htr, app_assoc|by apply Forall_app].
Qed.

(** The synthesizer once the secret is read and its payload decoded: the
    record loop, then the three steps that follow it. *)
Lemma createExternalStorageClusterResources_records s sec scs0 data :
  newStorageClasses R (instance s) = Ok scs0 ->
  clientFault E (length (trace s)) (secretCall s) = None ->
  secrets (store s) !! key (secretCall s) = Some sec ->
  jsonUnmarshal E (payload sec) = inr data ->
  createExternalStorageClusterResources E R s
  = bind (createExternalStorageClusterResources_loop E R
            (mkExtLoop scs0 [None; None; None] false []) data)
      (fun st =>
         createStorageClasses_reqLogger R
           (map (fun p => i ← p; scs st !! i) (availableSCs st)) ;;;
         setRookCSICephFS E (enableRookCSICephFS st) ;;;
         match extCephObjectStores st with
         | [] => ret tt
         | stores => createCephObjectStores_reqLogger R stores
         end) (logEvent s (secretCall s) None).
Proof.
  intros Hscs Hff Hsec Hd.
  unfold createExternalStorageClusterResources, retrieveExternalSecretData, retrieveSecret.
  unfold bind at 1. unfold getInstance at 1.
  unfold bind at 1. unfold lift at 1. rewrite Hscs.
  unfold bind at 1. unfold bind at 1. unfold bind at 1. unfold getInstance at 1.
  unfold clientGet. simpl. unfold secretCall in Hff, Hsec. simpl in Hff, Hsec.
  rewrite Hff, Hsec. unfold liftE. fold (payload sec). by rewrite Hd.
Qed.

(** A record names the CephFS class. *)
Definition isCephFSClass (d : ExternalResource) : bool :=
  bool_decide (er_Kind d = "StorageClass")
  && bool_decide (er_Name d = cephFsStorageClassName).

Lemma createExternalStorageClusterResources_iter_flag st d s st' s' :
  createExternalStorageClusterResources_iter E R st d s = (Ok st', s') ->
  enableRookCSICephFS st' = enableRookCSICephFS st || isCephFSClass d.
Proof.
  unfold createExternalStorageClusterResources_iter, createExternalStorageClusterConfigMap,
    createExternalStorageClusterSecret, isCephFSClass, bind, attempt, getInstance, clientGet,
    clientCreate, liftE, lift, ret, fail, mergeParameters, setAvailable, indexSCs. simpl.
  intros Hrun.
  repeat (case_match; simplify_eq/=);
    repeat match goal with
           | H : bool_decide _ = true |- _ => apply bool_decide_eq_true_1 in H
           | H : bool_decide _ = false |- _ => apply bool_decide_eq_false_1 in H
           end;
    repeat case_bool_decide; simpl;
    rewrite ?orb_false_r, ?orb_true_r; try reflexivity; try congruence.
Qed.

(** X15.  CephFS CSI follows the payload.  When the record loop returns,
    its flag for ROOK_CSI_ENABLE_CEPHFS is true exactly when the payload
    holds a storage-class record named cephfs; that flag is the one the
    synthesizer then hands to setRookCSICephFS, so a payload without such a
    record turns CephFS CSI off. *)
Theorem createExternalStorageClusterResources_cephfs_flag
  (s : State) (sec : Secret) (scs0 : list StorageClass) (data : list ExternalResource)
  (st : ExtLoop) (s2 : State) :
  newStorageClasses R (instance s) = Ok scs0 ->
  clientFault E (length (trace s)) (secretCall s) = None ->
  secrets (store s) !! key (secretCall s) = Some sec ->
  jsonUnmarshal E (payload sec) = inr data ->
  createExternalStorageClusterResources_loop E R
    (mkExtLoop scs0 [None; None; None] false []) data (logEvent s (secretCall s) None)
  = (Ok st, s2) ->
  enableRookCSICephFS st = existsb isCephFSClass data /\
  createExternalStorageClusterResources E R s
  = (createStorageClasses_reqLogger R
       (map (fun p => i ← p; scs st !! i) (availableSCs st)) ;;;
     setRookCSICephFS E (existsb isCephFSClass data) ;;;
     match extCephObjectStores st with
     | [] => ret tt
     | stores => createCephObjectStores_reqLogger R stores
     end) s2.
Proof.
  intros Hscs Hff Hsec Hd Hloop.
  assert (Hflag : forall data st0 s0 st s2,
            createExternalStorageClusterResources_loop E R st0 data s0 = (Ok st, s2) ->
            enableRookCSICephFS st = enableRookCSICephFS st0 || existsb isCephFSClass data).
  { clear. intros data. induction data as [|d data IH]; intros st0 s0 st s2 Hrun;
      simpl in Hrun.
    - injection Hrun as <- _. by rewrite orb_false_r.
    - unfold bind in Hrun.
      destruct (createExternalStorageClusterResources_iter E R st0 d s0)
        as [[st1|e|p] s1] eqn:Hiter; try done.
      rewrite (IH _ _ _ _ Hrun).
      rewrite (createExternalStorageClusterResources_iter_flag _ _ _ _ _ Hiter).
      simpl. by rewrite orb_assoc. }
  pose proof (Hflag _ _ _ _ _ Hloop) as Hst. simpl in Hst.
  split; [exact Hst|].
  rewrite (createExternalStorageClusterResources_records s sec scs0 data Hscs Hff Hsec Hd).
  rewrite (bind_Ok _ _ _ _ _ Hloop). by rewrite Hst.
Qed.

(** X16.  A storage-class record under an unknown name crashes the pass.
    For a record of kind StorageClass whose name is none of cephfs, ceph-rbd
    and ceph-rgw, the pointer to the class stays nil; when the record
    carries data, writing its first parameter through that pointer panics.
    The synthesizer reaches the record after the records before it and
    ends there, with what those records wrote. *)
Theorem createExternalStorageClusterResources_unknown_class_panics
  (s : State) (sec : Secret) (scs0 : list StorageClass)
  (pre post : list ExternalResource) (d : ExternalResource) (st1 : ExtLoop) (s2 : State) :
  newStorageClasses R (instance s) = Ok scs0 ->
  clientFault E (length (trace s)) (secretCall s) = None ->
  secrets (store s) !! key (secretCall s) = Some sec ->
  jsonUnmarshal E (payload sec) = inr (pre ++ d :: post) ->
  createExternalStorageClusterResources_loop E R
    (mkExtLoop scs0 [None; None; None] false []) pre (logEvent s (secretCall s) None)
  = (Ok st1, s2) ->
  er_Kind d = "StorageClass" ->
  er_Name d <> cephFsStorageClassName ->
  er_Name d <> cephRbdStorageClassName ->
  er_Name d <> cephRgwStorageClassName ->
  er_Data d <> ∅ ->
  createExternalStorageClusterResources E R s = (Panic "nil pointer dereference", s2).
Proof.
  intros Hscs Hff Hsec Hd Hpre Hkind Hn1 Hn2 Hn3 Hdata.
  assert (Hiter : createExternalStorageClusterResources_iter E R st1 d s2
                  = (Panic "nil pointer dereference", s2)).
  { unfold createExternalStorageClusterResources_iter, bind, getInstance. simpl.
    rewrite Hkind. simpl.
    rewrite !bool_decide_eq_false_2 by done.
    unfold lift, mergeParameters. by rewrite bool_decide_eq_false_2 by done. }
  rewrite (createExternalStorageClusterResources_records s sec scs0 _ Hscs Hff Hsec Hd).
  unfold bind at 1. rewrite createExternalStorageClusterResources_loop_app.
  rewrite (bind_Ok _ _ _ _ _ Hpre). simpl. unfold bind at 1. by rewrite Hiter.
Qed.

(** X17.  The record of the object-gateway class.  When its endpoint answers
    and the object stores can be built from it, the record of ceph-rgw
    issues no call and writes nothing: it hands the object stores on to the
    step after the loop, marks the class at the object-store index as
    available, and merges its data into that class's parameters without the
    endpoint key: every other key of the record overrides the pre-built
    value, the keys the record does not name keep theirs, and the classes
    at the other indices are as they were. *)
Theorem createExternalStorageClusterResources_iter_rgw
  (st : ExtLoop) (d : ExternalResource) (s : State)
  (c : StorageClass) (params : gmap string string) (stores : list CephObjectStore) :
  let endpoint := mapIndex (er_Data d) externalCephRgwEndpointKey in
  let idx := cephObjectStoreIndex R in
  er_Kind d = "StorageClass" ->
  er_Name d = cephRgwStorageClassName ->
  DialTimeout E endpoint = None ->
  newExternalCephObjectStoreInstances E R (instance s) endpoint = inr stores ->
  scs st !! idx = Some c ->
  scl_Parameters c = Some params ->
  (idx < length (availableSCs st))%nat ->
  exists st' c' params',
    createExternalStorageClusterResources_iter E R st d s = (Ok st', s) /\
    extCephObjectStores st' = stores /\
    availableSCs st' = <[idx := Some idx]> (availableSCs st) /\
    enableRookCSICephFS st' = enableRookCSICephFS st /\
    scs st' !! idx = Some c' /\
    scl_Meta c' = scl_Meta c /\
    scl_Parameters c' = Some params' /\
    params' !! externalCephRgwEndpointKey = params !! externalCephRgwEndpointKey /\
    (forall k, k <> externalCephRgwEndpointKey ->
       params' !! k = match er_Data d !! k with
                      | Some v => Some v
                      | None => params !! k
                      end) /\
    (forall j, j <> idx -> scs st' !! j = scs st !! j).
Proof.
  intros endpoint idx Hkind Hname Hdial Hstores Hc Hparams Hidx.
  assert (Hhead : createExternalStorageClusterResources_iter E R st d s
    = (st1 <- lift (mergeParameters
                      (mkExtLoop (scs st) (availableSCs st) (enableRookCSICephFS st) stores)
                      (Some idx) (delete externalCephRgwEndpointKey (er_Data d))) ;;
       lift (setAvailable st1 idx (Some idx))) s).
  { unfold createExternalStorageClusterResources_iter.
    unfold bind at 1. unfold getInstance at 1.
    rewrite Hkind, Hname. simpl.
    unfold bind at 1. unfold liftE at 1, checkRGWEndpoint.
    fold endpoint. rewrite Hdial.
    unfold bind at 1. unfold liftE at 1. rewrite Hstores.
    unfold bind at 1. unfold lift at 1, indexSCs. simpl. fold idx. by rewrite Hc. }
  rewrite Hhead. unfold bind, lift, mergeParameters, setAvailable. simpl.
  case_bool_decide as Hempty.
  - simpl. rewrite bool_decide_eq_true_2 by done.
    eexists _, c, params. split; [reflexivity|]. simpl.
    split_and!; try done.
    intros k Hk.
    assert (Hlook : delete externalCephRgwEndpointKey (er_Data d) !! k = None)
      by (by rewrite Hempty).
    rewrite lookup_delete_ne in Hlook by done. by rewrite Hlook.
  - rewrite Hc, Hparams. simpl.
    rewrite bool_decide_eq_true_2 by done.
    eexists _, (mkStorageClass (scl_Meta c) (scl_Provisioner c) (scl_ReclaimPolicy c)
                  (scl_AllowVolumeExpansion c)
                  (Some (delete externalCephRgwEndpointKey (er_Data d) ∪ params))),
      (delete externalCephRgwEndpointKey (er_Data d) ∪ params).
    split; [reflexivity|]. simpl.
    split_and!; try done.
    + apply list_lookup_insert_eq. by eapply lookup_lt_Some.
    + rewrite lookup_union_r; [done|apply lookup_delete_eq].
    + intros k Hk. rewrite lookup_union. rewrite lookup_delete_ne by done.
      destruct (er_Data d !! k), (params !! k); reflexivity.
    + intros j Hj. by rewrite list_lookup_insert_ne.
Qed.

End ExternalRecords.

Lemma setRookCSICephFS_sets_flag_witness :
  let s := Fixture.stateOf Payload.withOperatorConfig Fixture.managed in
  let r := setRookCSICephFS Fixture.env true s in
  r.1 = Ok tt /\
  issued s r.2
  = [ ok (mkCall Get KConfigMap (Fixture.ns, rookCephOperatorConfigName));
      ok (mkCall Update KConfigMap (Fixture.ns, rookCephOperatorConfigName)) ].
Proof.
  intros s r.
  edestruct (setRookCSICephFS_sets_flag Fixture.env true s Payload.operatorConfig)
    as (Hok & _ & _ & Hev & _).
  - intros m c _. reflexivity.
  - vm_compute. reflexivity.
  - reflexivity.
  - intros Hempty.
    apply (f_equal (fun m : gmap string string => m !! rookEnableCephFSCSIKey)) in Hempty.
    vm_compute in Hempty. discriminate.
  - split; [exact Hok|]. exact Hev.
Defined.

Lemma createExternalStorageClusterResources_cephfs_flag_witness :
  let s := Fixture.stateOf Payload.externalWithOperator (Fixture.withHash "") in
  let r := createExternalStorageClusterResources Payload.envBlockOnly Fixture.repo s in
  r.1 = Ok tt /\
  (configMaps (store r.2) !! (Fixture.ns, rookCephOperatorConfigName)
     ≫= (fun cm => cm_Data cm !! rookEnableCephFSCSIKey)) = Some "false".
Proof.
  intros s r.
  pose (run := createExternalStorageClusterResources_loop Payload.envBlockOnly Fixture.repo
                 Payload.classes Payload.blockOnly (logEvent s (secretCall s) None)).
  pose (st := match run.1 with Ok st => st | _ => Payload.classes end).
  edestruct (createExternalStorageClusterResources_cephfs_flag Payload.envBlockOnly
               Fixture.repo s (Fixture.detailsSecret "[ceph-rbd]") (scs Payload.classes)
               Payload.blockOnly
               st run.2) as (_ & Hrun).
  - reflexivity.
  - reflexivity.
  - vm_compute. reflexivity.
  - reflexivity.
  - vm_compute. reflexivity.
  - subst r. rewrite Hrun. split; vm_compute; reflexivity.
Defined.

Lemma createExternalStorageClusterResources_unknown_class_panics_witness :
  let s := Fixture.stateOf (Fixture.externalStore "[ceph-nfs]") (Fixture.withHash "") in
  (createExternalStorageClusterResources Payload.envUnknownClass Fixture.repo s).1
  = Panic "nil pointer dereference".
Proof.
  intros s.
  erewrite (createExternalStorageClusterResources_unknown_class_panics
              Payload.envUnknownClass Fixture.repo s
              (Fixture.detailsSecret "[ceph-nfs]") _ [] []); [reflexivity|..].
  - reflexivity.
  - reflexivity.
  - vm_compute. reflexivity.
  - reflexivity.
  - reflexivity.
  - reflexivity.
  - discriminate.
  - discriminate.
  - discriminate.
  - intros Hempty.
    apply (f_equal (fun m : gmap string string => m !! "pool")) in Hempty.
    vm_compute in Hempty. discriminate.
Defined.

Lemma createExternalStorageClusterResources_iter_rgw_witness :
  let s := Fixture.stateOf Fixture.freshStore Fixture.managed in
  exists st',
    createExternalStorageClusterResources_iter Fixture.env Fixture.repo Payload.classes
      Payload.rgwRecord s = (Ok st', s) /\
    ((fun c => scl_Parameters c ≫= (fun p => p !! "endpoint")) <$> scs st' !! 2%nat)
    = Some None /\
    ((fun c => scl_Parameters c ≫= (fun p => p !! "region")) <$> scs st' !! 2%nat)
    = Some (Some "eu-west-1").
Proof.
  intros s.
  edestruct (createExternalStorageClusterResources_iter_rgw Fixture.env Fixture.repo
               Payload.classes Payload.rgwRecord s)
    as (st' & c' & params' & Hrun & _ & _ & _ & Hc' & _ & Hp' & Hend & Hother & _).
  - reflexivity.
  - reflexivity.
  - reflexivity.
  - reflexivity.
  - reflexivity.
  - reflexivity.
  - simpl. lia.
  - exists st'. split; [exact Hrun|].
    simpl in Hc'. rewrite Hc'. simpl. rewrite Hp'. simpl. split; f_equal.
    + etrans; [exact Hend|]. vm_compute. reflexivity.
    + etrans; [apply Hother; discriminate|]. vm_compute. reflexivity.
Defined.

(** ** The CephCluster in its desired state, and the loop of the manager *)

Section DesiredState.
Context (E : Env) (R : Repo).

(** X18.  A CephCluster in its desired state is read, not written, and its
    status is translated.  When the CephCluster is found with the desired
    spec, ensureCephCluster issues the Get and no write.  If GetReference
    fails its error is returned and neither the related objects nor the
    accumulator of conditions change.  Otherwise the CephCluster is recorded
    among the related objects and the ensurer returns nil, the accumulator
    being handed to MapCephClusterNoConditions when the CephCluster reports
    no state and to MapCephClusterNegativeConditions when it reports one. *)
Theorem ensureCephCluster_in_desired_state (s : State) (found : CephCluster) :
  let i := instance s in
  let k := keyOf (sc_Meta i) in
  let desired := newCephCluster R i (cephImage E) in
  let s1 := logEvent s (mkCall Get KCephCluster k) None in
  let ref := mkObjectReference "CephCluster" (om_Namespace (cc_Meta found))
               (om_Name (cc_Meta found)) in
  setControllerReferenceErr E (sc_Meta i) (cc_Meta desired) = None ->
  clientFault E (length (trace s)) (mkCall Get KCephCluster k) = None ->
  cephClusters (store s) !! k = Some found ->
  cc_Spec found = cc_Spec desired ->
  ensureCephCluster E R s
  = match getReferenceErr E (cc_Meta found) with
    | Some e => (Err e, s1)
    | None =>
        (Ok tt,
         setConditions
           (setInstance s1
              (withStatus i
                 (withRelatedObjects (sc_Status i)
                    (SetObjectReference (st_RelatedObjects (sc_Status i)) ref))))
           (if bool_decide (cc_State found = "")
            then MapCephClusterNoConditions R (conditions s) "CephClusterStatus"
                   "CephCluster resource is not reporting status"
            else MapCephClusterNegativeConditions R (conditions s) found))
    end.
Proof.
  intros i k desired s1 ref Hscheme Hget Hfound Hspec.
  unfold ensureCephCluster.
  unfold bind at 1. unfold getInstance at 1. fold i. fold desired.
  unfold bind at 1. unfold liftE at 1. unfold SetControllerReference. rewrite Hscheme.
  unfold bind at 1. unfold attempt at 1. unfold clientGet at 1.
  change (keyOf (cc_Meta (mkCephCluster _ (cc_Spec desired) (cc_State desired)))) with k.
  cbn [kindOf objects CephCluster_resource].
  rewrite Hget, Hfound.
  change (cc_Spec (mkCephCluster _ (cc_Spec desired) (cc_State desired)))
    with (cc_Spec desired).
  rewrite bool_decide_eq_true_2 by done. cbn [negb].
  unfold bind at 1. unfold liftE at 1. unfold GetReference.
  destruct (getReferenceErr E (cc_Meta found)) as [e|]; [reflexivity|].
  unfold bind at 1. fold s1. cbn [instance setInstance logEvent].
  by case_bool_decide.
Qed.

(** X19.  The loop of createStorageClasses ends at the first error.  When
    the configurations before one were processed and that one fails, the
    function returns its error in the state its iteration left: nothing is
    asked about the classes after it. *)
Theorem createStorageClasses_stops_at_error
  (pre post : list StorageClassConfiguration) (scc : StorageClassConfiguration)
  (s s1 s2 : State) (e : error) :
  createStorageClasses E pre s = (Ok tt, s1) ->
  createStorageClasses_iter E scc s1 = (Err e, s2) ->
  createStorageClasses E (pre ++ scc :: post) s = (Err e, s2).
Proof.
  intros Hpre Hiter. rewrite (createStorageClasses_app_Ok E pre _ s s1 Hpre).
  simpl. unfold bind. by rewrite Hiter.
Qed.

End DesiredState.

Lemma ensureCephCluster_in_desired_state_witness :
  let s := Fixture.stateOf Fixture.initializedStore Fixture.managed in
  let s1 := (ensureCephCluster Fixture.env Fixture.repo s).2 in
  (ensureCephCluster Fixture.env Fixture.repo s1).1 = Ok tt /\
  issued s1 (ensureCephCluster Fixture.env Fixture.repo s1).2
  = [ ok (mkCall Get KCephCluster Fixture.request) ].
Proof.
  intros s s1.
  erewrite (ensureCephCluster_in_desired_state Fixture.env Fixture.repo s1); cycle 1.
  - reflexivity.
  - reflexivity.
  - vm_compute. reflexivity.
  - reflexivity.
  - split; [reflexivity|]. by apply issued_app.
Defined.

Lemma createStorageClasses_stops_at_error_witness :
  let s := Fixture.stateOf (Fixture.withClasses [Fixture.rbdMarked] Fixture.freshStore)
             Fixture.managed in
  let r := createStorageClasses Fixture.env
             [ Fixture.rbdWanted "manage";
               Fixture.config "ocsinit-cephfs" "manage" [("clusterID", Fixture.ns)] ] s in
  r.1 = Err (Errorf "failed to restore StorageClass  ocsinit-ceph-rbd because it is marked for deletion") /\
  issued s r.2 = [ ok (mkCall Get KStorageClass Fixture.rbdKey) ].
Proof.
  intros s r.
  assert (Hrun : r = (Err (Errorf "failed to restore StorageClass  ocsinit-ceph-rbd because it is marked for deletion"),
                      (createStorageClasses_iter Fixture.env (Fixture.rbdWanted "manage") s).2)).
  { apply (createStorageClasses_stops_at_error Fixture.env [] _ _ s s).
    - reflexivity.
    - vm_compute. reflexivity. }
  rewrite Hrun. split; [reflexivity|]. vm_compute. reflexivity.
Defined.

(** ** Endpoints of the external cluster *)

Section Endpoints.
Context (E : Env) (R : Repo).

(** X20.  The object stores built from the gateway endpoint.  An endpoint
    that is empty once trimmed gives no object store and no error.  Any
    other endpoint gives exactly one object store, named after the
    StorageCluster in its namespace, whose gateway has the host of the
    endpoint as its only external address and the port of the endpoint,
    provided the endpoint splits into a host that is not empty and a port
    that parses; otherwise the error of the split, the empty-host error or
    the error of the parse is returned. *)
Theorem newExternalCephObjectStoreInstances_spec
  (initData : StorageCluster) (rgwEndpoint : string) :
  let trimmed := TrimSpace E rgwEndpoint in
  match newExternalCephObjectStoreInstances E R initData rgwEndpoint with
  | inr [] => trimmed = ""
  | inr [o] =>
      trimmed <> "" /\
      keyOf (cos_Meta o)
      = (om_Namespace (sc_Meta initData), generateNameForCephObjectStore R initData) /\
      exists host port,
        SplitHostPort E trimmed = inr (host, port) /\ host <> "" /\
        ParseInt32 E port = inr (gw_Port (os_Gateway (cos_Spec o))) /\
        gw_ExternalRgwEndpoints (os_Gateway (cos_Spec o)) = [host]
  | inr _ => False
  | inl e =>
      trimmed <> "" /\
      (SplitHostPort E trimmed = inl e \/
       exists host port,
         SplitHostPort E trimmed = inr (host, port) /\
         ((host = "" /\ e = Errorf "An empty rgw host 'IP' address found") \/
          (host <> "" /\ ParseInt32 E port = inl e)))
  end.
Proof.
  intros trimmed.
  unfold newExternalCephObjectStoreInstances, newExternalGatewaySpec. fold trimmed.
  case_bool_decide as Hempty; [done|].
  destruct (SplitHostPort E trimmed) as [e|[host port]] eqn:Hsplit; [by split; [|left]|].
  case_bool_decide as Hhost.
  { split; [done|]. right. exists host, port. split; [done|]. by left. }
  destruct (ParseInt32 E port) as [e|n] eqn:Hport.
  { split; [done|]. right. exists host, port. split; [done|]. by right. }
  split; [done|]. split; [done|]. by exists host, port.
Qed.

(** X21.  The connection-info record.  A CephCluster record issues no call
    and writes nothing.  It succeeds exactly when it carries both the
    MonitoringEndpoint and the MonitoringPort, the endpoint resolves and
    the joined address answers; r.monitoringIP then becomes the endpoint,
    and in every other case it keeps its value and the record fails. *)
Theorem createExternalStorageClusterResources_iter_monitoring
  (st : ExtLoop) (d : ExternalResource) (s : State) :
  er_Kind d = "CephCluster" ->
  let r := createExternalStorageClusterResources_iter E R st d s in
  let reachable (ip : string) : Prop :=
    er_Data d !! "MonitoringEndpoint" = Some ip /\
    (exists port, er_Data d !! "MonitoringPort" = Some port /\
                  LookupIP E ip = None /\
                  DialTimeout E (JoinHostPort E ip port) = None) in
  store r.2 = store s /\ trace r.2 = trace s /\ instance r.2 = instance s /\
  (forall ip, reachable ip -> r.1 = Ok st /\ monitoringIP r.2 = ip) /\
  ((forall ip, ~ reachable ip) ->
   (exists e, r.1 = Err e) /\ monitoringIP r.2 = monitoringIP s).
Proof.
  intros Hkind r reachable. subst r reachable.
  unfold createExternalStorageClusterResources_iter, bind, getInstance, liftE, fail, ret,
    validateMonitoringEndpoint. simpl.
  rewrite Hkind. simpl.
  destruct (er_Data d !! "MonitoringEndpoint") as [ip|] eqn:Hip; simpl.
  2:{ split_and!; try done.
      - intros ip [Habs _]. done.
      - intros _. split; [by eexists|done]. }
  destruct (er_Data d !! "MonitoringPort") as [port|] eqn:Hport; simpl.
  2:{ split_and!; try done.
      - intros ip' [_ (port & Habs & _)]. done.
      - intros _. split; [by eexists|done]. }
  destruct (LookupIP E ip) as [e|] eqn:Hlook; simpl.
  { split_and!; try done.
    - intros ip' [[= <-] (port' & [= <-] & Hl & _)]. congruence.
    - intros _. split; [by eexists|done]. }
  destruct (DialTimeout E (JoinHostPort E ip port)) as [e|] eqn:Hdial; simpl.
  { split_and!; try done.
    - intros ip' [[= <-] (port' & [= <-] & _ & Hd)]. congruence.
    - intros _. split; [by eexists|done]. }
  split_and!; try done.
  - intros ip' [[= <-] _]. done.
  - intros Hnone. exfalso. apply (Hnone ip). split; [done|]. by exists port.
Qed.

End Endpoints.

Lemma createExternalStorageClusterResources_iter_monitoring_witness :
  let d := mkExternalResource "CephCluster"
             {[ "MonitoringEndpoint" := "10.0.0.9"; "MonitoringPort" := "9283" ]}
             "monitoring-endpoint" in
  let s := Fixture.stateOf Fixture.freshStore Fixture.managed in
  let r := createExternalStorageClusterResources_iter Fixture.env Fixture.repo
             Payload.classes d s in
  r.1 = Ok Payload.classes /\ monitoringIP r.2 = "10.0.0.9" /\ store r.2 = store s.
Proof.
  intros d s r.
  edestruct (createExternalStorageClusterResources_iter_monitoring Fixture.env Fixture.repo
               Payload.classes d s) as (Hst & _ & _ & Hok & _).
  - reflexivity.
  - destruct (Hok "10.0.0.9") as [H1 H2].
    + split; [reflexivity|]. exists "9283". split; [reflexivity|]. split; reflexivity.
    + split; [exact H1|]. split; [exact H2|exact Hst].
Defined.
